(** * TOS Management PWA: ranked search and offline mutation log

    A shallow embedding of the client-side store [TOSDatabase]
    (frontend/src/lib/database.ts) and of the server's in-memory model
    [MockTOSModel] (backend/src/models/mockTosModel.js), with the
    properties of the ranked search, of the pending-update queue and of
    the bulk update.

    Conventions of the embedding.
    - A JavaScript string is a [string]: a sequence of code units, here
      the code units below 256 (Basic Latin and Latin-1).  [s[i]] is
      [String.get i s], with [None] for [undefined].
    - A JavaScript number that holds a record id, a length, a clock
      reading or a priority is a [Z].
    - A rejected promise or a thrown [Error] is the [inl] of a sum.
    - An IndexedDB object store is the list of its values in ascending
      key order, which is the order [getAll()] returns them in.
    - A reading of the clock, [Date.now()], is an argument of the
      operation that takes it. *)

From Stdlib Require Import ZArith List String Ascii Bool Lia.
From Stdlib Require Import Sorting.Sorted Sorting.Permutation.
From Stdlib Require Import DecimalString DecimalZ.
From Stdlib Require Import RelationClasses.
From Stdlib Require OrdersEx.
Import ListNotations.

Local Open Scope Z_scope.

(** ** JavaScript string primitives *)

Module JsString.

Definition codeUnit (c : ascii) : Z := Z.of_N (N_of_ascii c).

(** White space and line terminators removed by [String.prototype.trim]:
    TAB, LF, VT, FF, CR, SP and NBSP. *)
Definition isWhiteSpace (c : ascii) : bool :=
  let n := codeUnit c in
  ((9 <=? n) && (n <=? 13)) || (n =? 32) || (n =? 160).

(** Lower-casing of one code unit: A-Z and the Latin-1 capitals
    U+00C0..U+00DE (the multiplication sign U+00D7 apart) move up by 32. *)
Definition lowerUnit (c : ascii) : ascii :=
  let n := codeUnit c in
  if ((65 <=? n) && (n <=? 90))
     || ((192 <=? n) && (n <=? 222) && negb (n =? 215))
  then ascii_of_N (Z.to_N (n + 32))
  else c.

Fixpoint toLowerCase (s : string) : string :=
  match s with
  | EmptyString => EmptyString
  | String c s' => String (lowerUnit c) (toLowerCase s')
  end.

Fixpoint trimStart (s : string) : string :=
  match s with
  | EmptyString => EmptyString
  | String c s' => if isWhiteSpace c then trimStart s' else s
  end.

Fixpoint trimEnd (s : string) : string :=
  match s with
  | EmptyString => EmptyString
  | String c s' =>
      match trimEnd s' with
      | EmptyString => if isWhiteSpace c then EmptyString
                       else String c EmptyString
      | t => String c t
      end
  end.

Definition trim (s : string) : string := trimEnd (trimStart s).

(** [s.length] *)
Definition len (s : string) : Z := Z.of_nat (String.length s).

(** [s.startsWith(q)] *)
Definition startsWith (s q : string) : bool := String.prefix q s.

(** [s.includes(q)]: [q] occurs in [s] at some position. *)
Fixpoint includes (s q : string) : bool :=
  String.prefix q s ||
  match s with
  | EmptyString => false
  | String _ s' => includes s' q
  end.

(** [a !== b] on the results of indexing: a code unit or [undefined]. *)
Definition strictNe (a b : option ascii) : bool :=
  match a, b with
  | Some x, Some y => negb (Ascii.eqb x y)
  | None, None => false
  | _, _ => true
  end.

(** A string is falsy exactly when it is empty. *)
Definition truthy (s : string) : bool := negb (String.eqb s EmptyString).

(** Whether the code unit [c] occurs in [s]. *)
Fixpoint occurs (c : ascii) (s : string) : bool :=
  match s with
  | EmptyString => false
  | String a s' => Ascii.eqb c a || occurs c s'
  end.

(** [`${n}`] for an integral number: its decimal numeral. *)
Definition numberToString (n : Z) : string :=
  NilZero.string_of_int (Z.to_int n).

(** [l.slice(start, end)] with the relative indices of the language. *)
Definition slice {A : Type} (l : list A) (start finish : Z) : list A :=
  let n := Z.of_nat (List.length l) in
  let k := if start <? 0 then Z.max (n + start) 0 else Z.min start n in
  let final := if finish <? 0 then Z.max (n + finish) 0 else Z.min finish n in
  firstn (Z.to_nat (final - k)) (skipn (Z.to_nat k) l).

End JsString.
Import JsString.

(** ** [Array.prototype.sort]

    The sort is stable, and for a consistent comparator it returns the
    one stable ordering; a stable insertion sort computes it. *)

Section ArraySort.
Context {A : Type} (compareFn : A -> A -> Z).

Fixpoint insert (x : A) (l : list A) : list A :=
  match l with
  | [] => [x]
  | y :: l' => if compareFn x y <=? 0 then x :: l else y :: insert x l'
  end.

Definition sort (l : list A) : list A := fold_right insert [] l.

End ArraySort.

(** ** IndexedDB object stores

    A store with an in-line key: the values in ascending key order.
    [storeAdd] refuses a key that is present ([ConstraintError]);
    [storePut] replaces it; [storeDelete] of an absent key succeeds. *)

Section ObjectStore.
Context {K V : Type} (keyOf : V -> K) (keyCompare : K -> K -> comparison).

Definition sameKey (k : K) (v : V) : bool :=
  match keyCompare k (keyOf v) with Eq => true | _ => false end.

Definition storeGet (k : K) (s : list V) : option V := find (sameKey k) s.

Fixpoint storePut (v : V) (s : list V) : list V :=
  match s with
  | [] => [v]
  | w :: s' =>
      match keyCompare (keyOf v) (keyOf w) with
      | Lt => v :: s
      | Eq => v :: s'
      | Gt => w :: storePut v s'
      end
  end.

Definition storeAdd (v : V) (s : list V) : option (list V) :=
  match storeGet (keyOf v) s with
  | Some _ => None
  | None => Some (storePut v s)
  end.

Definition storeDelete (k : K) (s : list V) : list V :=
  filter (fun v => negb (sameKey k v)) s.

Definition storeGetAll (s : list V) : list V := s.

End ObjectStore.

(** ** Data model (frontend/src/types/tos.ts) *)

Record TOSRecord := mkTOSRecord {
  ID : Z;
  CONTRACTOR : string;
  DATE : string;
  SHIFT : string;
  STOCK_ID : string;
  STOCK_STATUS : string
}.

(** The type ['SHIFT' | 'STOCK_STATUS'] of the editable fields. *)
Inductive MutableField := SHIFT_field | STOCK_STATUS_field.

Definition fieldName (f : MutableField) : string :=
  match f with
  | SHIFT_field => "SHIFT"
  | STOCK_STATUS_field => "STOCK_STATUS"
  end.

Definition getField (f : MutableField) (r : TOSRecord) : string :=
  match f with
  | SHIFT_field => SHIFT r
  | STOCK_STATUS_field => STOCK_STATUS r
  end.

Definition setField (f : MutableField) (v : string) (r : TOSRecord)
  : TOSRecord :=
  match f with
  | SHIFT_field =>
      mkTOSRecord (ID r) (CONTRACTOR r) (DATE r) v (STOCK_ID r)
                  (STOCK_STATUS r)
  | STOCK_STATUS_field =>
      mkTOSRecord (ID r) (CONTRACTOR r) (DATE r) (SHIFT r) (STOCK_ID r) v
  end.

Record PendingUpdate := mkPendingUpdate {
  pu_id : string;
  pu_recordId : Z;
  pu_field : MutableField;
  pu_oldValue : string;
  pu_newValue : string;
  pu_timestamp : Z;
  pu_synced : bool
}.

(** ** The client-side store [TOSDatabase] *)

Module TOSDatabase.

(** The two object stores the operations below use: [tosRecords]
    (key path [ID]) and [pendingUpdates] (key path [id]). *)
Record t := mk {
  tosRecords : list TOSRecord;
  pendingUpdates : list PendingUpdate
}.

(** What a rejected promise carries: an [Error] with its message, or
    the [ConstraintError] of an [add] whose key is taken. *)
Inductive Rejection :=
| Error (message : string)
| ConstraintError.

Definition getAllRecords (db : t) : list TOSRecord :=
  storeGetAll (tosRecords db).

(** The [for] loop of [calculateSimpleDistance] from index [i], with
    [fuel = maxLength - i] iterations left. *)
Fixpoint distanceLoop (fuel : nat) (i : nat) (distance : Z)
         (str1 str2 : string) : Z :=
  match fuel with
  | O => distance
  | S fuel' =>
      let distance' :=
        if strictNe (String.get i str1) (String.get i str2)
        then distance + 1 else distance in
      if 2 <? distance' then 99
      else distanceLoop fuel' (S i) distance' str1 str2
  end.

Definition calculateSimpleDistance (str1 str2 : string) : Z :=
  if 2 <? Z.abs (len str1 - len str2) then 99
  else
    let maxLength := Nat.max (String.length str1) (String.length str2) in
    distanceLoop maxLength 0%nat 0 str1 str2.

(** The priority the [forEach] callback of [searchRecords] computes for
    one record; 0 when no level matches. *)
Definition priority (query : string) (record : TOSRecord) : Z :=
  let recordStockId := toLowerCase (STOCK_ID record) in
  let contractor := toLowerCase (CONTRACTOR record) in
  if String.eqb recordStockId query then 1
  else if startsWith recordStockId query then 2
  else if includes recordStockId query then 3
  else if includes contractor query then 4
  else if (calculateSimpleDistance recordStockId query <=? 2)
          && (2 <? len query) then 5
  else 0.

Section Search.
(** [String.prototype.localeCompare]: the collation of the runtime's
    locale; negative, zero or positive. *)
Variable localeCompare : string -> string -> Z.

Definition compareResults (a b : TOSRecord * Z) : Z :=
  if negb (snd a =? snd b) then snd a - snd b
  else if negb (len (STOCK_ID (fst a)) =? len (STOCK_ID (fst b)))
  then len (STOCK_ID (fst a)) - len (STOCK_ID (fst b))
  else localeCompare (STOCK_ID (fst a)) (STOCK_ID (fst b)).

Definition collect (query : string) (allRecords : list TOSRecord)
  : list (TOSRecord * Z) :=
  flat_map (fun record =>
              let p := priority query record in
              if 0 <? p then [(record, p)] else [])
           allRecords.

Definition searchRecords (db : t) (stockId : string) : list TOSRecord :=
  let allRecords := getAllRecords db in
  if negb (truthy (trim stockId)) then allRecords
  else
    let query := trim (toLowerCase stockId) in
    map fst (sort compareResults (collect query allRecords)).

End Search.

(** The generated key of a pending update:
    [`${id}-${field}-${Date.now()}`]. *)
Definition pendingId (id : Z) (field : MutableField) (now : Z) : string :=
  (numberToString id ++ "-" ++ fieldName field ++ "-"
   ++ numberToString now)%string.

(** [updateRecord]; [now] and [now'] are the two readings of [Date.now()],
    for the key and for the timestamp.  A rejection leaves the stores as
    they were: nothing is written before 'Record not found', and the
    failed [add] aborts the transaction, which undoes the [put]. *)
Definition updateRecord (db : t) (id : Z) (field : MutableField)
           (newValue : string) (now now' : Z) : t * (Rejection + unit) :=
  match storeGet ID Z.compare id (tosRecords db) with
  | None => (db, inl (Error "Record not found"))
  | Some record =>
      let oldValue := getField field record in
      let record' := setField field newValue record in
      let tosStore := storePut ID Z.compare record' (tosRecords db) in
      let pendingUpdate :=
        mkPendingUpdate (pendingId id field now) id field oldValue
                        newValue now' false in
      match storeAdd pu_id String.compare pendingUpdate
                     (pendingUpdates db) with
      | None => (db, inl ConstraintError)
      | Some pendingStore => (mk tosStore pendingStore, inr tt)
      end
  end.

Definition getPendingUpdates (db : t) : list PendingUpdate :=
  storeGetAll (pendingUpdates db).

Definition clearPendingUpdate (db : t) (id : string)
  : t * (Rejection + unit) :=
  (mk (tosRecords db) (storeDelete pu_id String.compare id (pendingUpdates db)),
   inr tt).

(** One call of [updateRecord] with its clock readings. *)
Record Edit := mkEdit {
  e_id : Z;
  e_field : MutableField;
  e_newValue : string;
  e_now : Z;
  e_now' : Z
}.

Definition editKey (e : Edit) : string :=
  pendingId (e_id e) (e_field e) (e_now e).

(** A sequence of [updateRecord] calls, nothing in between; [None] as
    soon as one of them is rejected. *)
Fixpoint applyEdits (db : t) (edits : list Edit) : option t :=
  match edits with
  | [] => Some db
  | e :: rest =>
      match updateRecord db (e_id e) (e_field e) (e_newValue e)
                         (e_now e) (e_now' e) with
      | (db', inr _) => applyEdits db' rest
      | (_, inl _) => None
      end
  end.

End TOSDatabase.

(** ** The server's in-memory model [MockTOSModel] *)

Module MockTOSModel.

(** [this.data] *)
Definition t := list TOSRecord.

Record Filters := mkFilters {
  contractor : option string;
  status : option string;
  limit : option Z;
  offset : option Z
}.

(** [filters = {}] *)
Definition noFilters : Filters := mkFilters None None None None.

Record SearchResult := mkSearchResult {
  records : list (TOSRecord * Z);
  total : Z
}.

Definition truthyOpt (o : option string) : bool :=
  match o with Some s => truthy s | None => false end.

(** [n || d] *)
Definition orDefault (o : option Z) (d : Z) : Z :=
  match o with
  | Some n => if n =? 0 then d else n
  | None => d
  end.

Definition matches (searchTerm : string) (record : TOSRecord) : bool :=
  let stockId := toLowerCase (STOCK_ID record) in
  let contractor := toLowerCase (CONTRACTOR record) in
  includes stockId searchTerm || includes contractor searchTerm.

Definition compareRelevance (searchTerm : string) (a b : TOSRecord) : Z :=
  let aStockId := toLowerCase (STOCK_ID a) in
  let bStockId := toLowerCase (STOCK_ID b) in
  if String.eqb aStockId searchTerm && negb (String.eqb bStockId searchTerm)
  then -1
  else if String.eqb bStockId searchTerm
          && negb (String.eqb aStockId searchTerm)
  then 1
  else if startsWith aStockId searchTerm
          && negb (startsWith bStockId searchTerm)
  then -1
  else if startsWith bStockId searchTerm
          && negb (startsWith aStockId searchTerm)
  then 1
  else len aStockId - len bStockId.

Definition searchRecords (data : t) (query : string) (filters : Filters)
  : SearchResult :=
  let results := data in
  let results :=
    if truthy query && truthy (trim query) then
      let searchTerm := toLowerCase query in
      sort (compareRelevance searchTerm) (filter (matches searchTerm) results)
    else results in
  let results :=
    if truthyOpt (contractor filters) then
      filter (fun record =>
                match contractor filters with
                | Some c => String.eqb (CONTRACTOR record) c
                | None => false
                end) results
    else results in
  let results :=
    if truthyOpt (status filters) then
      filter (fun record =>
                match status filters with
                | Some s => String.eqb (STOCK_STATUS record) s
                | None => false
                end) results
    else results in
  let limit := orDefault (limit filters) 50 in
  let offset := orDefault (offset filters) 0 in
  let total := Z.of_nat (List.length results) in
  let paginatedResults := slice results offset (offset + limit) in
  mkSearchResult (map (fun r => (r, total)) paginatedResults) total.

(** [this.data.findIndex(r => r.ID === id)], [None] for -1. *)
Fixpoint findIndex (id : Z) (data : t) : option nat :=
  match data with
  | [] => None
  | r :: data' =>
      if ID r =? id then Some O
      else option_map S (findIndex id data')
  end.

Definition allowedFields : list string := ["SHIFT"; "STOCK_STATUS"]%string.

(** [allowedFields.includes(field)] *)
Definition isAllowed (field : string) : bool :=
  existsb (String.eqb field) allowedFields.

(** [record[field] = value], for the names that pass the validation. *)
Definition assign (field value : string) (r : TOSRecord) : TOSRecord :=
  if String.eqb field "SHIFT" then setField SHIFT_field value r
  else if String.eqb field "STOCK_STATUS"
  then setField STOCK_STATUS_field value r
  else r.

Fixpoint assignAt (i : nat) (field value : string) (data : t) : t :=
  match data, i with
  | [], _ => []
  | r :: data', O => assign field value r :: data'
  | r :: data', S i' => r :: assignAt i' field value data'
  end.

Definition notFoundMessage (id : Z) : string :=
  ("Record with ID " ++ numberToString id ++ " not found")%string.

Definition invalidFieldMessage (field : string) : string :=
  ("Invalid field: " ++ field)%string.

(** [updateRecord]: the data afterwards, and the message of the thrown
    [Error] or the returned [this.data[recordIndex]]. *)
Definition updateRecord (data : t) (id : Z) (field value : string)
  : t * (string + option TOSRecord) :=
  match findIndex id data with
  | None => (data, inl (notFoundMessage id))
  | Some recordIndex =>
      if negb (isAllowed field) then (data, inl (invalidFieldMessage field))
      else
        let data' := assignAt recordIndex field value data in
        (data', inr (nth_error data' recordIndex))
  end.

(** An element of the [updates] array. *)
Record Update := mkUpdate {
  u_id : Z;
  u_field : string;
  u_value : string
}.

Record BulkResult := mkBulkResult {
  successful : Z;
  failed : Z;
  errors : list (Z * string)
}.

(** The [for ... of] loop of [bulkUpdate] with its [try]/[catch]. *)
Fixpoint bulkLoop (updates : list Update) (data : t) (results : BulkResult)
  : t * BulkResult :=
  match updates with
  | [] => (data, results)
  | update :: rest =>
      match updateRecord data (u_id update) (u_field update)
                         (u_value update) with
      | (data', inr _) =>
          bulkLoop rest data'
                   (mkBulkResult (successful results + 1) (failed results)
                                 (errors results))
      | (data', inl message) =>
          bulkLoop rest data'
                   (mkBulkResult (successful results) (failed results + 1)
                                 (errors results ++ [(u_id update, message)]))
      end
  end.

Definition bulkUpdate (data : t) (updates : list Update) : t * BulkResult :=
  bulkLoop updates data (mkBulkResult 0 0 []).

End MockTOSModel.

(** ** The ranking in the words of the specification *)

(** The count of positions, up to the longer string's length, at which
    the aligned code units of the two strings differ. *)
Definition hammingDistance (s1 s2 : string) : Z :=
  let maxLength := Nat.max (String.length s1) (String.length s2) in
  Z.of_nat (List.length
              (filter (fun i => strictNe (String.get i s1) (String.get i s2))
                      (seq 0 maxLength))).

(** Tier [k] of the specification, as it words the five tiers. *)
Definition specTierApplies (k : Z) (query : string) (r : TOSRecord) : bool :=
  let stockId := toLowerCase (STOCK_ID r) in
  match k with
  | 1 => String.eqb stockId query
  | 2 => startsWith stockId query
  | 3 => includes stockId query
  | 4 => includes (toLowerCase (CONTRACTOR r)) query
  | 5 => hammingDistance stockId query <=? 2
  | _ => false
  end.

(** The tiers with the guard of the local store on the fuzzy one: the
    query has more than two code units. *)
Definition tierApplies (k : Z) (query : string) (r : TOSRecord) : bool :=
  if k =? 5 then specTierApplies 5 query r && (2 <? len query)
  else specTierApplies k query r.

(** The order of the results: tier, then identifier length, then the
    collation of the identifiers. *)
Definition rankedBefore (localeCompare : string -> string -> Z)
           (query : string) (a b : TOSRecord) : Prop :=
  TOSDatabase.priority query a < TOSDatabase.priority query b \/
  (TOSDatabase.priority query a = TOSDatabase.priority query b /\
   (len (STOCK_ID a) < len (STOCK_ID b) \/
    (len (STOCK_ID a) = len (STOCK_ID b) /\
     localeCompare (STOCK_ID a) (STOCK_ID b) <= 0))).

(** The comparison of the sort, on records decorated with their own
    priority. *)
Definition compareRanked (localeCompare : string -> string -> Z)
           (query : string) (a b : TOSRecord) : Z :=
  TOSDatabase.compareResults localeCompare
    (a, TOSDatabase.priority query a) (b, TOSDatabase.priority query b).

(** Two matching records, [a] listed before [b] in the collection, that
    the server's ranking (relevance class, then identifier length, then
    the order of the collection) and the local ranking (tier, identifier
    length, collation) put in the same order: an identifier match by
    substring and a match by contractor only are of one relevance class
    for the server, so the identifier match must not be the longer one,
    and must be the shorter one when it is listed second; records of one
    tier and one identifier length must be listed in collation order. *)
Definition listedInRank (localeCompare : string -> string -> Z)
           (query : string) (a b : TOSRecord) : Prop :=
  0 < TOSDatabase.priority query a -> 0 < TOSDatabase.priority query b ->
  (TOSDatabase.priority query a = 3 -> TOSDatabase.priority query b = 4 ->
   len (STOCK_ID a) <= len (STOCK_ID b))
  /\ (TOSDatabase.priority query a = 4 -> TOSDatabase.priority query b = 3 ->
      len (STOCK_ID b) < len (STOCK_ID a))
  /\ (TOSDatabase.priority query a = TOSDatabase.priority query b ->
      len (STOCK_ID a) = len (STOCK_ID b) ->
      localeCompare (STOCK_ID a) (STOCK_ID b) <= 0).

(** Ascending key order of the [pendingUpdates] store. *)
Definition keyBefore (a b : PendingUpdate) : Prop :=
  String.compare (pu_id a) (pu_id b) = Lt.

(** Whether some record of the server model has the id. *)
Definition hasRecord (data : MockTOSModel.t) (id : Z) : bool :=
  existsb (fun r => ID r =? id) data.

(** Whether an update names an existing record and a mutable field. *)
Definition accepted (data : MockTOSModel.t) (u : MockTOSModel.Update) : bool :=
  hasRecord data (MockTOSModel.u_id u)
  && MockTOSModel.isAllowed (MockTOSModel.u_field u).

Definition rejected (data : MockTOSModel.t) (u : MockTOSModel.Update) : bool :=
  negb (accepted data u).

(** The entry of [errors] for an update that is not accepted. *)
Definition errorOf (data : MockTOSModel.t) (u : MockTOSModel.Update)
  : Z * string :=
  (MockTOSModel.u_id u,
   if hasRecord data (MockTOSModel.u_id u)
   then MockTOSModel.invalidFieldMessage (MockTOSModel.u_field u)
   else MockTOSModel.notFoundMessage (MockTOSModel.u_id u)).

(** The data after one update, accepted or not. *)
Definition applyUpdate (data : MockTOSModel.t) (u : MockTOSModel.Update)
  : MockTOSModel.t :=
  fst (MockTOSModel.updateRecord data (MockTOSModel.u_id u)
         (MockTOSModel.u_field u) (MockTOSModel.u_value u)).

(** ** Sample data *)

(** A collation to run the search with: code-unit order. *)
Definition codeUnitCompare (a b : string) : Z :=
  match String.compare a b with
  | Lt => -1
  | Eq => 0
  | Gt => 1
  end.

Definition sampleRecord (id : Z) (contractor stockId : string) : TOSRecord :=
  mkTOSRecord id contractor "2025-01-15" "Day Shift" stockId "Active".

(** The sample records the client store is seeded with. *)
Definition SAMPLE_TOS_DATA : list TOSRecord :=
  [ mkTOSRecord 1 "ABC Mining Co" "2025-01-15" "Day Shift"
                "BB.D.5348" "Active";
    mkTOSRecord 2 "XYZ Corp" "2025-01-15" "Night Shift"
                "CC.A.5348.01" "Full";
    mkTOSRecord 3 "Mining Solutions Ltd" "2025-01-16" "Day Shift"
                "AA.B.1234" "Empty";
    mkTOSRecord 4 "ABC Mining Co" "2025-01-16" "Morning Shift"
                "DD.C.5348.02" "Maintenance";
    mkTOSRecord 5 "Rock Extractors Inc" "2025-01-17" "Afternoon Shift"
                "EE.A.9876" "Reserved";
    mkTOSRecord 6 "Mining Solutions Ltd" "2025-01-17" "Day Shift"
                "FF.B.5348.03" "Active";
    mkTOSRecord 7 "XYZ Corp" "2025-01-18" "Night Shift"
                "GG.D.1234.01" "Processing";
    mkTOSRecord 8 "ABC Mining Co" "2025-01-18" "Afternoon Shift"
                "HH.A.5555" "Active" ]%string.

Definition sampleDb : TOSDatabase.t := TOSDatabase.mk SAMPLE_TOS_DATA [].

(** A store with the records 2 and 10 and nothing pending. *)
Definition twoRecordDb : TOSDatabase.t :=
  TOSDatabase.mk [ sampleRecord 2 "North Pit" "AA.1";
                   sampleRecord 10 "South Pit" "BB.2" ] [].

(** An edit of record 2 followed by an edit of record 10. *)
Definition twoEdits : list TOSDatabase.Edit :=
  [ TOSDatabase.mkEdit 2 SHIFT_field "Night Shift" 1000 1000;
    TOSDatabase.mkEdit 10 STOCK_STATUS_field "Full" 1001 1001 ].

(** A batch with two valid updates, an immutable field and an unknown
    record. *)
Definition mixedUpdates : list MockTOSModel.Update :=
  [ MockTOSModel.mkUpdate 1 "SHIFT" "Night Shift";
    MockTOSModel.mkUpdate 1 "DATE" "2025-02-01";
    MockTOSModel.mkUpdate 77 "SHIFT" "Night Shift";
    MockTOSModel.mkUpdate 2 "STOCK_STATUS" "Empty" ]%string.

(** Records on which a query "ab" exercises the exact, the prefix and
    the substring tier. *)
Definition tieredRecords : list TOSRecord :=
  [ sampleRecord 1 "North Pit" "AB.10";
    sampleRecord 2 "South Pit" "x.ab.long";
    sampleRecord 3 "East Pit" "Ab";
    sampleRecord 4 "West Pit" "CD.20" ]%string.

(** Records on which the two searches order a query "ab" differently:
    the first matches by contractor only, the second by identifier. *)
Definition contractorRecords : list TOSRecord :=
  [ sampleRecord 1 "AB Mining" "zz.1";
    sampleRecord 2 "XYZ Corp" "cc.ab.77" ]%string.

(** ** Further primitives of the language *)

(** A [Set] as the list of its elements in insertion order. *)
Section JsSet.
Context {A : Type} (eqb : A -> A -> bool).

Definition setHas (s : list A) (x : A) : bool := existsb (eqb x) s.

Definition setAdd (s : list A) (x : A) : list A :=
  if setHas s x then s else s ++ [x].

Definition setDelete (s : list A) (x : A) : list A :=
  filter (fun y => negb (eqb x y)) s.

(** [new Set(l)] *)
Definition setFrom (l : list A) : list A := fold_left setAdd l [].

End JsSet.

Module JsText.

(** [s.indexOf(q)] searched from position [i] on; -1 when [q] does not
    occur. *)
Fixpoint indexOfFrom (s q : string) (i : Z) : Z :=
  if String.prefix q s then i
  else match s with
       | EmptyString => -1
       | String _ s' => indexOfFrom s' q (i + 1)
       end.

Definition indexOf (s q : string) : Z := indexOfFrom s q 0.

(** [s.substring(start, finish)]: both indices are clamped to the
    string and swapped when out of order. *)
Definition substring (s : string) (start finish : Z) : string :=
  let n := len s in
  let a := Z.min (Z.max start 0) n in
  let b := Z.min (Z.max finish 0) n in
  let from := Z.min a b in
  let to := Z.max a b in
  String.substring (Z.to_nat from) (Z.to_nat (to - from)) s.

End JsText.

(** ** The suggestion list [EnhancedSearch] (components/EnhancedSearch.tsx) *)

Module EnhancedSearch.

(** The [for] loop of the component's [calculateSimpleDistance]. *)
Fixpoint countLoop (fuel : nat) (i : nat) (distance : Z)
         (str1 str2 : string) : Z :=
  match fuel with
  | O => distance
  | S fuel' =>
      let distance' :=
        if strictNe (String.get i str1) (String.get i str2)
        then distance + 1 else distance in
      countLoop fuel' (S i) distance' str1 str2
  end.

Definition calculateSimpleDistance (str1 str2 : string) : Z :=
  let swap := len str1 <? len str2 in
  let s1 := if swap then str2 else str1 in
  let s2 := if swap then str1 else str2 in
  let maxLength := Nat.max (String.length s1) (String.length s2) in
  countLoop maxLength 0%nat 0 s1 s2.

Definition priority (query : string) (record : TOSRecord) : Z :=
  let stockId := toLowerCase (STOCK_ID record) in
  let contractor := toLowerCase (CONTRACTOR record) in
  if String.eqb stockId query then 1
  else if startsWith stockId query then 2
  else if includes stockId query then 3
  else if includes contractor query then 4
  else if calculateSimpleDistance stockId query <=? 2 then 5
  else 0.

Section Results.
Variable localeCompare : string -> string -> Z.

(** The memoised [searchResults]: the top 8 of the ranking. *)
Definition searchResults (records : list TOSRecord) (value : string)
  : list TOSRecord :=
  if negb (truthy (trim value)) then []
  else
    let query := trim (toLowerCase value) in
    let results :=
      flat_map (fun record =>
                  let p := priority query record in
                  if 0 <? p then [(record, p)] else [])
               records in
    map fst (slice (sort (TOSDatabase.compareResults localeCompare) results)
                   0 8).

End Results.

(** [handleSearch]: the search history it sets (and stores); a blank
    value returns before anything is set. *)
Definition handleSearch (value : string) (searchHistory : list string)
  : list string :=
  if negb (truthy (trim value)) then searchHistory
  else
    slice (value :: filter (fun h => negb (String.eqb h value)) searchHistory)
          0 5.

(** [highlightMatch]: the text as it is, or the three pieces around the
    first match: before it, the match, after it. *)
Definition highlightMatch (text query : string)
  : string + (string * string * string) :=
  if negb (truthy (trim query)) then inl text
  else
    let index := JsText.indexOf (toLowerCase text) (toLowerCase query) in
    if index =? -1 then inl text
    else inr (JsText.substring text 0 index,
              JsText.substring text index (index + len query),
              JsText.substring text (index + len query) (len text)).

End EnhancedSearch.

(** ** The selection of [BulkOperations] (components/BulkOperations.tsx) *)

Module BulkOperations.

(** The set handed to [onSelectionChange]. *)
Definition toggleSelectAll (records : list TOSRecord)
           (selectedRecords : list Z) : list Z :=
  if Z.of_nat (List.length selectedRecords)
     =? Z.of_nat (List.length records)
  then []
  else setFrom Z.eqb (map ID records).

Definition toggleRecord (selectedRecords : list Z) (recordId : Z) : list Z :=
  let newSelection := selectedRecords in
  if setHas Z.eqb newSelection recordId
  then setDelete Z.eqb newSelection recordId
  else setAdd Z.eqb newSelection recordId.

(** The [selectedData] of [exportSelectedRecords]. *)
Definition selectedData (records : list TOSRecord)
           (selectedRecords : list Z) : list TOSRecord :=
  filter (fun r => setHas Z.eqb selectedRecords (ID r)) records.

End BulkOperations.

(** ** The main view [TOSManager] (components/TOSManager.tsx) *)

Module TOSManager.

(** [filterRecords]: the list handed to [setFilteredRecords]. *)
Definition filterRecords (records : list TOSRecord)
           (searchQuery filterContractor filterStatus : string)
  : list TOSRecord :=
  let filtered := records in
  let filtered :=
    if truthy (trim searchQuery) then
      let query := toLowerCase searchQuery in
      filter (fun record =>
                includes (toLowerCase (STOCK_ID record)) query
                || includes (toLowerCase (CONTRACTOR record)) query)
             filtered
    else filtered in
  let filtered :=
    if truthy filterContractor then
      filter (fun record => String.eqb (CONTRACTOR record) filterContractor)
             filtered
    else filtered in
  let filtered :=
    if truthy filterStatus then
      filter (fun record => String.eqb (STOCK_STATUS record) filterStatus)
             filtered
    else filtered in
  filtered.

(** The [updatedRecords] of [handleUpdateConfirm]: the view's copy of
    the records after an edit. *)
Definition updatedRecords (records : list TOSRecord)
           (editingRecord : TOSRecord) (editField : MutableField)
           (editValue : string) : list TOSRecord :=
  map (fun record =>
         if ID record =? ID editingRecord
         then setField editField editValue record
         else record)
      records.

End TOSManager.

(** ** The background sync of the service worker (public/sw.js) *)

Module ServiceWorker.

(** [getFromIndexedDB('pendingUpdates')] *)
Definition getFromIndexedDB (db : TOSDatabase.t) : list PendingUpdate :=
  storeGetAll (TOSDatabase.pendingUpdates db).

(** [removeFromIndexedDB('pendingUpdates', id)] *)
Definition removeFromIndexedDB (db : TOSDatabase.t) (id : string)
  : TOSDatabase.t :=
  TOSDatabase.mk (TOSDatabase.tosRecords db)
    (storeDelete pu_id String.compare id (TOSDatabase.pendingUpdates db)).

Definition syncData (db : TOSDatabase.t) : TOSDatabase.t :=
  let pendingUpdates := getFromIndexedDB db in
  if 0 <? Z.of_nat (List.length pendingUpdates) then
    fold_left (fun d update => removeFromIndexedDB d (pu_id update))
              pendingUpdates db
  else db.

End ServiceWorker.

(** ** The read operations of [MockTOSModel] *)

Module MockTOSModelQueries.

(** [getAllRecords(limit, offset)] *)
Definition getAllRecords (data : MockTOSModel.t) (limit offset : Z)
  : MockTOSModel.SearchResult :=
  let total := Z.of_nat (List.length data) in
  let records := slice data offset (offset + limit) in
  MockTOSModel.mkSearchResult (map (fun r => (r, total)) records) total.

(** [[...new Set(this.data.map(f))].sort()]: the default sort compares
    strings by their code units. *)
Definition distinctSorted (f : TOSRecord -> string) (data : MockTOSModel.t)
  : list string :=
  sort codeUnitCompare (setFrom String.eqb (map f data)).

Definition getContractors (data : MockTOSModel.t) : list string :=
  distinctSorted CONTRACTOR data.

Definition getStatuses (data : MockTOSModel.t) : list string :=
  distinctSorted STOCK_STATUS data.

End MockTOSModelQueries.

(** ** The listing route (backend/src/routes/tosRoutes.js), served from
    the in-memory model *)

Module TosRoutes.

Record Pagination := mkPagination {
  total : Z;
  limit : Z;
  offset : Z;
  hasMore : bool
}.

(** The body [GET /] answers with, from the parsed [limit] and [offset]
    ([None] for [NaN]): the data and the pagination. *)
Definition getList (data : MockTOSModel.t) (limitParam offsetParam : option Z)
  : list (TOSRecord * Z) * Pagination :=
  let limit := MockTOSModel.orDefault limitParam 50 in
  let offset := MockTOSModel.orDefault offsetParam 0 in
  let result := MockTOSModelQueries.getAllRecords data limit offset in
  (MockTOSModel.records result,
   mkPagination (MockTOSModel.total result) limit offset
                (offset + limit <? MockTOSModel.total result)).

End TosRoutes.

(** ** Invariants and orders used in the statements *)

(** The key order of the [tosRecords] store. *)
Definition idBefore (a b : TOSRecord) : Prop := ID a < ID b.

(** Both stores hold their values in ascending key order. *)
Definition keyOrdered (db : TOSDatabase.t) : Prop :=
  StronglySorted idBefore (TOSDatabase.tosRecords db)
  /\ StronglySorted keyBefore (TOSDatabase.pendingUpdates db).

(** The relevance class of the server's comparison: 0 for an exact
    match, 1 for a prefix match, 2 otherwise. *)
Definition relevanceClass (searchTerm : string) (r : TOSRecord) : Z :=
  let stockId := toLowerCase (STOCK_ID r) in
  if String.eqb stockId searchTerm then 0
  else if startsWith stockId searchTerm then 1
  else 2.

Definition relevanceBefore (searchTerm : string) (a b : TOSRecord) : Prop :=
  relevanceClass searchTerm a < relevanceClass searchTerm b
  \/ (relevanceClass searchTerm a = relevanceClass searchTerm b
      /\ len (toLowerCase (STOCK_ID a)) <= len (toLowerCase (STOCK_ID b))).

(** Strictly ascending code-unit order. *)
Definition codeUnitBefore (a b : string) : Prop := String.compare a b = Lt.

(** A record satisfies the search term and the filters of the server's
    search. *)
Definition satisfies (query : string) (filters : MockTOSModel.Filters)
           (r : TOSRecord) : bool :=
  (if truthy query && truthy (trim query)
   then MockTOSModel.matches (toLowerCase query) r else true)
  && (if MockTOSModel.truthyOpt (MockTOSModel.contractor filters)
      then match MockTOSModel.contractor filters with
           | Some c => String.eqb (CONTRACTOR r) c
           | None => false
           end
      else true)
  && (if MockTOSModel.truthyOpt (MockTOSModel.status filters)
      then match MockTOSModel.status filters with
           | Some s => String.eqb (STOCK_STATUS r) s
           | None => false
           end
      else true).

(** * Properties *)

(** ** Strings *)

Lemma length_toLowerCase (s : string) :
  String.length (toLowerCase s) = String.length s.
Proof.
  induction s as [|c s IH]; simpl; [reflexivity | now rewrite IH].
Qed.

Lemma len_toLowerCase (s : string) : len (toLowerCase s) = len s.
Proof. unfold len. now rewrite length_toLowerCase. Qed.

Lemma prefix_refl (s : string) : String.prefix s s = true.
Proof.
  induction s as [|c s IH]; simpl; [reflexivity|].
  destruct (ascii_dec c c) as [_|n]; [exact IH | now elim n].
Qed.

Lemma get_beyond (s : string) (i : nat) :
  (String.length s <= i)%nat -> String.get i s = None.
Proof.
  revert i. induction s as [|c s IH]; intros i Hi; simpl in *.
  - reflexivity.
  - destruct i as [|i]; [lia|]. apply IH. lia.
Qed.

Lemma get_within (s : string) (i : nat) :
  (i < String.length s)%nat -> exists c, String.get i s = Some c.
Proof.
  revert i. induction s as [|c s IH]; intros i Hi; simpl in *.
  - lia.
  - destruct i as [|i]; [eauto|]. apply IH. lia.
Qed.

(** ** The positional distance *)

Section Distance.
Variables str1 str2 : string.

Let differs (i : nat) : bool :=
  strictNe (String.get i str1) (String.get i str2).

Let mismatches (i n : nat) : Z :=
  Z.of_nat (List.length (filter differs (seq i n))).

Lemma mismatches_nonneg (i n : nat) : 0 <= mismatches i n.
Proof. unfold mismatches. lia. Qed.

Lemma mismatches_step (i n : nat) :
  mismatches i (S n)
  = (if differs i then 1 else 0) + mismatches (S i) n.
Proof.
  unfold mismatches. simpl seq. simpl filter.
  destruct (differs i); simpl List.length; lia.
Qed.

(** The loop returns the count of the remaining mismatches added to the
    running one, unless that exceeds 2. *)
Lemma distanceLoop_spec (fuel i : nat) (distance : Z) :
  0 <= distance <= 2 ->
  TOSDatabase.distanceLoop fuel i distance str1 str2
  = if distance + mismatches i fuel <=? 2
    then distance + mismatches i fuel else 99.
Proof.
  revert i distance.
  induction fuel as [|fuel IH]; intros i distance Hd.
  - simpl. unfold mismatches. simpl.
    rewrite Z.add_0_r. destruct (Z.leb_spec distance 2); [reflexivity | lia].
  - rewrite mismatches_step.
    pose proof (mismatches_nonneg (S i) fuel) as Hnn.
    simpl TOSDatabase.distanceLoop. fold (differs i).
    destruct (differs i).
    + destruct (Z.ltb_spec 2 (distance + 1)).
      * destruct (Z.leb_spec (distance + (1 + mismatches (S i) fuel)) 2);
          [lia | reflexivity].
      * rewrite IH by lia.
        replace (distance + (1 + mismatches (S i) fuel))
          with (distance + 1 + mismatches (S i) fuel) by lia.
        reflexivity.
    + destruct (Z.ltb_spec 2 distance); [lia|].
      rewrite IH by lia.
      replace (distance + (0 + mismatches (S i) fuel))
        with (distance + mismatches (S i) fuel) by lia.
      reflexivity.
Qed.

Lemma mismatches_tail (i n : nat) :
  (Nat.min (String.length str1) (String.length str2) <= i)%nat ->
  (i + n <= Nat.max (String.length str1) (String.length str2))%nat ->
  mismatches i n = Z.of_nat n.
Proof.
  revert i. induction n as [|n IH]; intros i Hlo Hhi.
  - reflexivity.
  - rewrite mismatches_step, IH by lia.
    assert (differs i = true) as ->; [|lia].
    unfold differs.
    destruct (Nat.le_gt_cases (String.length str1) i) as [H1|H1].
    + rewrite (get_beyond str1 i H1).
      destruct (get_within str2 i) as [c ->]; [lia | reflexivity].
    + rewrite (get_beyond str2 i) by lia.
      destruct (get_within str1 i H1) as [c ->]. reflexivity.
Qed.

Lemma mismatches_app (i n m : nat) :
  mismatches i (n + m) = mismatches i n + mismatches (i + n) m.
Proof.
  unfold mismatches. rewrite seq_app, filter_app, length_app. lia.
Qed.

Lemma hammingDistance_mismatches :
  hammingDistance str1 str2
  = mismatches 0 (Nat.max (String.length str1) (String.length str2)).
Proof. reflexivity. Qed.

(** The strings differ at every position past the shorter one. *)
Lemma hammingDistance_length_gap :
  Z.abs (len str1 - len str2) <= hammingDistance str1 str2.
Proof.
  rewrite hammingDistance_mismatches.
  set (lo := Nat.min (String.length str1) (String.length str2)).
  set (hi := Nat.max (String.length str1) (String.length str2)).
  assert (hi = lo + (hi - lo))%nat as -> by (subst lo hi; lia).
  rewrite mismatches_app.
  rewrite (mismatches_tail (0 + lo) (hi - lo)) by (subst lo hi; lia).
  pose proof (mismatches_nonneg 0 lo).
  unfold len. subst lo hi. lia.
Qed.

Lemma calculateSimpleDistance_spec :
  TOSDatabase.calculateSimpleDistance str1 str2
  = if hammingDistance str1 str2 <=? 2
    then hammingDistance str1 str2 else 99.
Proof.
  unfold TOSDatabase.calculateSimpleDistance.
  pose proof hammingDistance_length_gap as Hgap.
  destruct (Z.ltb_spec 2 (Z.abs (len str1 - len str2))).
  - destruct (Z.leb_spec (hammingDistance str1 str2) 2); [lia | reflexivity].
  - cbv zeta. rewrite distanceLoop_spec by lia.
    rewrite hammingDistance_mismatches. reflexivity.
Qed.

End Distance.

Lemma calculateSimpleDistance_le_2 (s1 s2 : string) :
  TOSDatabase.calculateSimpleDistance s1 s2 <= 2
  <-> hammingDistance s1 s2 <= 2.
Proof.
  rewrite calculateSimpleDistance_spec.
  destruct (Z.leb_spec (hammingDistance s1 s2) 2); lia.
Qed.

(** ** The stable sort *)

Section SortFacts.
Context {A : Type} (compareFn : A -> A -> Z).

Let before (a b : A) : Prop := compareFn a b <= 0.

Lemma insert_perm (x : A) (l : list A) :
  Permutation (insert compareFn x l) (x :: l).
Proof.
  induction l as [|y l IH]; simpl.
  - apply Permutation_refl.
  - destruct (compareFn x y <=? 0).
    + apply Permutation_refl.
    + eapply Permutation_trans; [apply perm_skip, IH | apply perm_swap].
Qed.

Lemma sort_perm (l : list A) : Permutation (sort compareFn l) l.
Proof.
  induction l as [|x l IH]; simpl.
  - apply perm_nil.
  - eapply Permutation_trans; [apply insert_perm | now apply perm_skip].
Qed.

Lemma sort_In (x : A) (l : list A) : In x (sort compareFn l) <-> In x l.
Proof.
  split; apply Permutation_in;
    [apply sort_perm | apply Permutation_sym, sort_perm].
Qed.

Hypothesis compareFn_total :
  forall a b, compareFn a b <= 0 \/ compareFn b a <= 0.

Lemma insert_sorted (x : A) (l : list A) :
  Sorted before l -> Sorted before (insert compareFn x l).
Proof.
  induction l as [|y l IH]; intros Hs; simpl.
  - repeat constructor.
  - destruct (Z.leb_spec (compareFn x y) 0) as [Hxy|Hxy].
    + constructor; [exact Hs | constructor; exact Hxy].
    + apply Sorted_inv in Hs. destruct Hs as [Hs Hhd].
      constructor; [now apply IH|].
      assert (Hyx : before y x)
        by (unfold before; destruct (compareFn_total x y); [lia | assumption]).
      destruct l as [|z l]; simpl.
      * constructor. exact Hyx.
      * destruct (compareFn x z <=? 0); constructor;
          [exact Hyx | now inversion Hhd].
Qed.

Lemma sort_sorted (l : list A) : Sorted before (sort compareFn l).
Proof.
  induction l as [|x l IH]; simpl; [constructor | now apply insert_sorted].
Qed.

End SortFacts.

(** Two comparators that agree, on the elements of the list, about which
    pairs are in order sort the list the same way. *)
Lemma insert_ext {A : Type} (c1 c2 : A -> A -> Z) (x : A) (l : list A) :
  (forall y, In y l -> (c1 x y <=? 0) = (c2 x y <=? 0)) ->
  insert c1 x l = insert c2 x l.
Proof.
  induction l as [|y l IH]; intros H; simpl; [reflexivity|].
  rewrite (H y (or_introl eq_refl)).
  destruct (c2 x y <=? 0); [reflexivity|].
  f_equal. apply IH. intros z Hz. apply H. now right.
Qed.

Lemma sort_ext {A : Type} (c1 c2 : A -> A -> Z) (l : list A) :
  (forall x y, In x l -> In y l -> (c1 x y <=? 0) = (c2 x y <=? 0)) ->
  sort c1 l = sort c2 l.
Proof.
  induction l as [|x l IH]; intros H; simpl; [reflexivity|].
  rewrite IH by (intros; apply H; now right).
  apply insert_ext. intros y Hy. apply H; [now left|].
  right. exact (proj1 (sort_In c2 y l) Hy).
Qed.

(** Sorting decorated elements is sorting the elements by the decorated
    comparison. *)
Lemma insert_map {A B : Type} (f : A -> B) (c : B -> B -> Z)
      (x : A) (l : list A) :
  insert c (f x) (map f l) = map f (insert (fun a b => c (f a) (f b)) x l).
Proof.
  induction l as [|y l IH]; simpl; [reflexivity|].
  destruct (c (f x) (f y) <=? 0); simpl; [reflexivity | now rewrite IH].
Qed.

Lemma sort_map {A B : Type} (f : A -> B) (c : B -> B -> Z) (l : list A) :
  sort c (map f l) = map f (sort (fun a b => c (f a) (f b)) l).
Proof.
  induction l as [|x l IH]; simpl; [reflexivity|].
  now rewrite IH, insert_map.
Qed.

(** ** The local search *)

Lemma collect_filter (query : string) (l : list TOSRecord) :
  TOSDatabase.collect query l
  = map (fun r => (r, TOSDatabase.priority query r))
        (filter (fun r => 0 <? TOSDatabase.priority query r) l).
Proof.
  unfold TOSDatabase.collect.
  induction l as [|r l IH]; simpl; [reflexivity|].
  rewrite IH. destruct (0 <? TOSDatabase.priority query r); reflexivity.
Qed.

Lemma searchRecords_ranked (localeCompare : string -> string -> Z)
      (db : TOSDatabase.t) (stockId : string) :
  trim stockId <> EmptyString ->
  TOSDatabase.searchRecords localeCompare db stockId
  = sort (compareRanked localeCompare (trim (toLowerCase stockId)))
         (filter (fun r => 0 <? TOSDatabase.priority
                                  (trim (toLowerCase stockId)) r)
                 (TOSDatabase.getAllRecords db)).
Proof.
  intros Hq. unfold TOSDatabase.searchRecords, truthy.
  destruct (String.eqb_spec (trim stockId) EmptyString) as [E|_];
    [contradiction|].
  cbv zeta. simpl negb. cbv iota.
  rewrite collect_filter, sort_map, map_map. simpl.
  rewrite map_id. reflexivity.
Qed.

Lemma fuzzy_test (s query : string) :
  (TOSDatabase.calculateSimpleDistance s query <=? 2)
  = (hammingDistance s query <=? 2).
Proof.
  pose proof (calculateSimpleDistance_le_2 s query) as H.
  destruct (Z.leb_spec (TOSDatabase.calculateSimpleDistance s query) 2);
    destruct (Z.leb_spec (hammingDistance s query) 2); lia.
Qed.

Lemma priority_unfold (query : string) (r : TOSRecord) :
  TOSDatabase.priority query r
  = if tierApplies 1 query r then 1
    else if tierApplies 2 query r then 2
    else if tierApplies 3 query r then 3
    else if tierApplies 4 query r then 4
    else if tierApplies 5 query r then 5
    else 0.
Proof.
  unfold TOSDatabase.priority, tierApplies, specTierApplies. simpl.
  rewrite fuzzy_test. reflexivity.
Qed.

Lemma priority_range (query : string) (r : TOSRecord) :
  0 <= TOSDatabase.priority query r <= 5.
Proof.
  rewrite priority_unfold.
  repeat match goal with |- context [if ?b then _ else _] => destruct b end;
    lia.
Qed.

Lemma tierApplies_outside (k : Z) (query : string) (r : TOSRecord) :
  ~ 1 <= k <= 5 -> tierApplies k query r = false.
Proof.
  intros Hk. unfold tierApplies.
  destruct (Z.eqb_spec k 5); [lia|].
  unfold specTierApplies.
  destruct k as [|p|p]; try reflexivity.
  destruct p as [[[p|p|]|[p|p|]|]|[[p|p|]|[p|p|]|]|]; try reflexivity; lia.
Qed.

Ltac tier_cases k H :=
  assert (k = 1 \/ k = 2 \/ k = 3 \/ k = 4 \/ k = 5) as H by lia;
  destruct H as [H|[H|[H|[H|H]]]]; subst k.

(** The priority is the lowest-numbered tier that applies. *)
Lemma priority_lowest_tier (query : string) (r : TOSRecord) (k : Z) :
  1 <= k <= 5 ->
  (TOSDatabase.priority query r = k
   <-> tierApplies k query r = true
       /\ forall j, 1 <= j < k -> tierApplies j query r = false).
Proof.
  intros Hk. rewrite priority_unfold. split.
  - intros H.
    destruct (tierApplies 1 query r) eqn:E1;
    [|destruct (tierApplies 2 query r) eqn:E2;
     [|destruct (tierApplies 3 query r) eqn:E3;
      [|destruct (tierApplies 4 query r) eqn:E4;
       [|destruct (tierApplies 5 query r) eqn:E5]]]];
    subst k; try lia;
    (split; [assumption|]); intros j Hj;
    assert (j = 1 \/ j = 2 \/ j = 3 \/ j = 4) as Hc by lia;
    destruct Hc as [-> | [-> | [-> | ->]]]; solve [assumption | lia].
  - intros [Hyes Hno]. tier_cases k Hc;
      repeat match goal with
             | |- context [tierApplies ?j query r] =>
                 first [ rewrite Hyes | rewrite (Hno j) by lia ]
             end; reflexivity.
Qed.

Lemma priority_no_tier (query : string) (r : TOSRecord) :
  TOSDatabase.priority query r = 0
  <-> forall k, tierApplies k query r = false.
Proof.
  rewrite priority_unfold. split.
  - intros H k.
    destruct (tierApplies 1 query r) eqn:E1; [lia|].
    destruct (tierApplies 2 query r) eqn:E2; [lia|].
    destruct (tierApplies 3 query r) eqn:E3; [lia|].
    destruct (tierApplies 4 query r) eqn:E4; [lia|].
    destruct (tierApplies 5 query r) eqn:E5; [lia|].
    destruct (Z_le_dec 1 k) as [H1|H1];
      [destruct (Z_le_dec k 5) as [H5|H5]|];
      [|apply tierApplies_outside; lia..].
    tier_cases k Hc; assumption.
  - intros H. now rewrite !H.
Qed.

(** C1 (amended): for a non-blank query the local search gives every
    record the lowest-numbered tier that applies, the tiers being: (1)
    the lower-cased stock identifier equals the lower-cased, trimmed
    query, (2) it starts with the query, (3) it contains the query, (4)
    the lower-cased contractor contains the query, (5) the positional
    distance is at most 2 and the query has more than two code units.
    The records returned are exactly the input records to which some
    tier applies, each as often as it occurs in the input. *)
Theorem searchRecords_assigns_lowest_tier
        (localeCompare : string -> string -> Z)
        (db : TOSDatabase.t) (stockId : string) :
  trim stockId <> EmptyString ->
  let query := trim (toLowerCase stockId) in
  (forall r k, 1 <= k <= 5 ->
     (TOSDatabase.priority query r = k
      <-> tierApplies k query r = true
          /\ forall j, 1 <= j < k -> tierApplies j query r = false))
  /\ (forall r, TOSDatabase.priority query r = 0
                <-> forall k, tierApplies k query r = false)
  /\ Permutation (TOSDatabase.searchRecords localeCompare db stockId)
                 (filter (fun r => 0 <? TOSDatabase.priority query r)
                         (TOSDatabase.getAllRecords db))
  /\ (forall r, In r (TOSDatabase.searchRecords localeCompare db stockId)
                <-> In r (TOSDatabase.getAllRecords db)
                    /\ exists k, tierApplies k query r = true).
Proof.
  intros Hq query.
  split; [intros r k Hk; now apply priority_lowest_tier|].
  split; [intros r; apply priority_no_tier|].
  rewrite (searchRecords_ranked localeCompare db stockId Hq). fold query.
  split; [apply sort_perm|].
  intros r. rewrite sort_In, filter_In.
  apply and_iff_compat_l.
  pose proof (priority_range query r) as Hr.
  split.
  - intros Hp. apply Z.ltb_lt in Hp.
    exists (TOSDatabase.priority query r).
    apply (priority_lowest_tier query r (TOSDatabase.priority query r));
      [lia | reflexivity].
  - intros [k Hk]. apply Z.ltb_lt.
    destruct (Z.eq_dec (TOSDatabase.priority query r) 0) as [E|E]; [|lia].
    rewrite (proj1 (priority_no_tier query r) E k) in Hk. discriminate.
Qed.

Lemma searchRecords_assigns_lowest_tier_witness :
  Permutation
    (TOSDatabase.searchRecords codeUnitCompare sampleDb " 5348 ")
    (filter (fun r => 0 <? TOSDatabase.priority "5348" r) SAMPLE_TOS_DATA).
Proof.
  refine (proj1 (proj2 (proj2
    (searchRecords_assigns_lowest_tier codeUnitCompare sampleDb " 5348 " _)))).
  vm_compute. discriminate.
Defined.

(** C1, as stated, fails on a query of two code units: the record's
    identifier is at distance 2 from the query, so the fuzzy tier as the
    claim words it applies, and the record is not returned. *)
Lemma searchRecords_short_query_counterexample :
  let r := sampleRecord 1 "zz" "xy" in
  let db := TOSDatabase.mk [r] [] in
  trim "ab" <> EmptyString
  /\ specTierApplies 5 (trim (toLowerCase "ab")) r = true
  /\ TOSDatabase.searchRecords codeUnitCompare db "ab" = [].
Proof.
  cbv zeta. split; [vm_compute; discriminate|].
  split; vm_compute; reflexivity.
Qed.

(** C3 (amended): the fuzzy tier is assigned exactly when none of tiers
    1-4 applies, the positional distance between the lower-cased stock
    identifier and the query is at most 2, and the query has more than
    two code units.  The distance function of the code is at most 2
    exactly when that count of mismatches is; it answers 99 as soon as
    the running count exceeds 2, and at once when the lengths differ by
    more than 2. *)
Theorem fuzzy_tier_characterisation (query : string) (r : TOSRecord) :
  let stockId := toLowerCase (STOCK_ID r) in
  (TOSDatabase.priority query r = 5
   <-> (forall k, 1 <= k <= 4 -> specTierApplies k query r = false)
       /\ hammingDistance stockId query <= 2
       /\ 2 < len query)
  /\ (TOSDatabase.calculateSimpleDistance stockId query <= 2
      <-> hammingDistance stockId query <= 2)
  /\ (2 < Z.abs (len stockId - len query) ->
      TOSDatabase.calculateSimpleDistance stockId query = 99
      /\ TOSDatabase.priority query r <> 5)
  /\ (forall fuel i distance,
        2 < (if strictNe (String.get i stockId) (String.get i query)
             then distance + 1 else distance) ->
        TOSDatabase.distanceLoop (S fuel) i distance stockId query = 99).
Proof.
  intros stockId.
  assert (Hfive :
    TOSDatabase.priority query r = 5
    <-> (forall k, 1 <= k <= 4 -> specTierApplies k query r = false)
        /\ hammingDistance stockId query <= 2 /\ 2 < len query).
  { rewrite (priority_lowest_tier query r 5) by lia.
    unfold tierApplies at 1. simpl (5 =? 5). cbv iota.
    rewrite andb_true_iff.
    change (specTierApplies 5 query r)
      with (hammingDistance stockId query <=? 2).
    rewrite Z.leb_le, Z.ltb_lt.
    split.
    - intros [[Hd Hl] Hlow]. split; [|now split].
      intros k Hk. specialize (Hlow k ltac:(lia)).
      unfold tierApplies in Hlow.
      destruct (Z.eqb_spec k 5); [lia | exact Hlow].
    - intros [Hlow [Hd Hl]]. split; [now split|].
      intros j Hj. unfold tierApplies.
      destruct (Z.eqb_spec j 5); [lia|]. apply Hlow. lia. }
  split; [exact Hfive|].
  split; [apply calculateSimpleDistance_le_2|].
  split.
  - intros Hgap.
    pose proof (hammingDistance_length_gap stockId query) as Hh.
    split.
    + unfold TOSDatabase.calculateSimpleDistance.
      destruct (Z.ltb_spec 2 (Z.abs (len stockId - len query)));
        [reflexivity | lia].
    + rewrite Hfive. intros [_ [Hd _]]. lia.
  - intros fuel i distance Hover. simpl.
    destruct (strictNe (String.get i stockId) (String.get i query));
      destruct (Z.ltb_spec 2 (distance + 1));
      destruct (Z.ltb_spec 2 distance); try reflexivity; lia.
Qed.

(** C3, as stated, fails on a short query: no tier from 1 to 4 applies
    and the distance is 1, yet the record gets no tier. *)
Lemma fuzzy_tier_short_query_counterexample :
  let r := sampleRecord 2 "q" "y" in
  (forall k, 1 <= k <= 4 -> specTierApplies k "x" r = false)
  /\ hammingDistance (toLowerCase (STOCK_ID r)) "x" <= 2
  /\ TOSDatabase.priority "x" r <> 5.
Proof.
  cbv zeta. split.
  - intros k Hk. tier_cases k Hc; solve [reflexivity | lia].
  - split; vm_compute; discriminate.
Qed.

(** ** The order of the results *)

Lemma StronglySorted_nth_error {A : Type} (R : A -> A -> Prop)
      (l : list A) :
  StronglySorted R l ->
  forall i j a b, (i < j)%nat ->
    nth_error l i = Some a -> nth_error l j = Some b -> R a b.
Proof.
  induction 1 as [|x l Hs IH Hall]; intros i j a b Hij Ha Hb.
  - destruct i; discriminate.
  - destruct j as [|j]; [lia|]. simpl in Hb.
    destruct i as [|i]; simpl in Ha.
    + injection Ha as <-. rewrite Forall_forall in Hall.
      apply Hall. eapply nth_error_In; eassumption.
    + apply (IH i j); [lia | assumption | assumption].
Qed.

Lemma compareRanked_rankedBefore (localeCompare : string -> string -> Z)
      (query : string) (a b : TOSRecord) :
  compareRanked localeCompare query a b <= 0
  <-> rankedBefore localeCompare query a b.
Proof.
  unfold compareRanked, TOSDatabase.compareResults, rankedBefore. simpl.
  destruct (Z.eqb_spec (TOSDatabase.priority query a)
                       (TOSDatabase.priority query b)) as [Ep|Ep];
    simpl; [|lia].
  destruct (Z.eqb_spec (len (STOCK_ID a)) (len (STOCK_ID b))) as [El|El];
    simpl; lia.
Qed.

Section Ranking.
Variable localeCompare : string -> string -> Z.
Variable query : string.

Hypothesis localeCompare_total :
  forall a b, localeCompare a b <= 0 \/ localeCompare b a <= 0.
Hypothesis localeCompare_trans :
  forall a b c,
    localeCompare a b <= 0 -> localeCompare b c <= 0 ->
    localeCompare a c <= 0.

Lemma rankedBefore_total (a b : TOSRecord) :
  rankedBefore localeCompare query a b
  \/ rankedBefore localeCompare query b a.
Proof.
  unfold rankedBefore.
  destruct (localeCompare_total (STOCK_ID a) (STOCK_ID b)); lia.
Qed.

Lemma rankedBefore_trans (a b c : TOSRecord) :
  rankedBefore localeCompare query a b ->
  rankedBefore localeCompare query b c ->
  rankedBefore localeCompare query a c.
Proof.
  unfold rankedBefore. intros Hab Hbc.
  pose proof (localeCompare_trans (STOCK_ID a) (STOCK_ID b) (STOCK_ID c)).
  lia.
Qed.

Lemma sort_ranked (l : list TOSRecord) :
  StronglySorted (rankedBefore localeCompare query)
                 (sort (compareRanked localeCompare query) l).
Proof.
  apply Sorted_StronglySorted.
  - intros a b c. apply rankedBefore_trans.
  - pose proof (sort_sorted (compareRanked localeCompare query)) as Hs.
    cbv zeta in Hs.
    assert (Htot : forall a b,
               compareRanked localeCompare query a b <= 0
               \/ compareRanked localeCompare query b a <= 0).
    { intros a b. rewrite !compareRanked_rankedBefore.
      apply rankedBefore_total. }
    specialize (Hs Htot l).
    induction Hs as [|x s Hs IH Hhd]; constructor; [exact IH|].
    destruct Hhd as [|y s Hxy]; constructor.
    now apply compareRanked_rankedBefore.
Qed.

End Ranking.

(** C2: for a non-blank query the results of the local search are in
    ascending order of tier, then of stock-identifier length, then of the
    collation of the stock identifiers ([localeCompare], a total
    preorder); so a record's tier is at most the tier of every record
    ranked after it. *)
Theorem searchRecords_sorted
        (localeCompare : string -> string -> Z)
        (db : TOSDatabase.t) (stockId : string) :
  (forall a b, localeCompare a b <= 0 \/ localeCompare b a <= 0) ->
  (forall a b c, localeCompare a b <= 0 -> localeCompare b c <= 0 ->
                 localeCompare a c <= 0) ->
  trim stockId <> EmptyString ->
  let query := trim (toLowerCase stockId) in
  let results := TOSDatabase.searchRecords localeCompare db stockId in
  StronglySorted (rankedBefore localeCompare query) results
  /\ (forall i j a b, (i < j)%nat ->
        nth_error results i = Some a -> nth_error results j = Some b ->
        TOSDatabase.priority query a <= TOSDatabase.priority query b).
Proof.
  intros Htot Htrans Hq query results.
  assert (Hs : StronglySorted (rankedBefore localeCompare query) results).
  { subst results. rewrite (searchRecords_ranked localeCompare db stockId Hq).
    now apply sort_ranked. }
  split; [exact Hs|].
  intros i j a b Hij Ha Hb.
  pose proof (StronglySorted_nth_error _ _ Hs i j a b Hij Ha Hb) as Hab.
  unfold rankedBefore in Hab. lia.
Qed.

(** Code-unit order is a total preorder. *)
Lemma codeUnitCompare_le (a b : string) :
  codeUnitCompare a b <= 0 <-> String.compare a b <> Gt.
Proof.
  unfold codeUnitCompare.
  destruct (String.compare a b); split; intros H; try lia; congruence.
Qed.

Lemma codeUnitCompare_total (a b : string) :
  codeUnitCompare a b <= 0 \/ codeUnitCompare b a <= 0.
Proof.
  rewrite !codeUnitCompare_le, (String.compare_antisym a b).
  destruct (String.compare b a); simpl; [left | right | left]; congruence.
Qed.

Lemma codeUnitCompare_trans (a b c : string) :
  codeUnitCompare a b <= 0 -> codeUnitCompare b c <= 0 ->
  codeUnitCompare a c <= 0.
Proof.
  rewrite !codeUnitCompare_le. intros Hab Hbc.
  destruct (String.compare a b) eqn:Eab; [| |congruence].
  - apply String.compare_eq_iff in Eab. now subst b.
  - destruct (String.compare b c) eqn:Ebc; [| |congruence].
    + apply String.compare_eq_iff in Ebc. subst c. congruence.
    + assert (String.compare a c = Lt) as ->; [|discriminate].
      exact (StrictOrder_Transitive (R := OrdersEx.String_as_OT.lt)
               a b c Eab Ebc).
Qed.

Lemma searchRecords_sorted_witness :
  StronglySorted (rankedBefore codeUnitCompare "5348")
                 (TOSDatabase.searchRecords codeUnitCompare sampleDb " 5348 ").
Proof.
  refine (proj1 (searchRecords_sorted codeUnitCompare sampleDb " 5348 "
                   codeUnitCompare_total codeUnitCompare_trans _)).
  vm_compute. discriminate.
Defined.

(** ** The two searches compared *)

Lemma includes_prefix (s q : string) :
  String.prefix q s = true -> includes s q = true.
Proof. intros H. destruct s; cbn [includes]; rewrite H; reflexivity. Qed.

Lemma firstn_length_min {A : Type} (n : nat) (l : list A) :
  firstn (Nat.min n (List.length l)) l = firstn n l.
Proof.
  destruct (Nat.le_gt_cases n (List.length l)) as [H|H].
  - now rewrite Nat.min_l.
  - rewrite Nat.min_r by lia. rewrite !firstn_all2 by lia. reflexivity.
Qed.

Lemma slice_first_page {A : Type} (l : list A) :
  slice l 0 (0 + 50) = firstn 50 l.
Proof.
  unfold slice.
  change (0 <? 0) with false. change (0 + 50 <? 0) with false. cbv iota.
  rewrite (Z.min_l 0) by lia. rewrite Z.sub_0_r.
  change (Z.to_nat 0) with 0%nat. simpl skipn.
  replace (Z.to_nat (Z.min (0 + 50) (Z.of_nat (List.length l))))
    with (Nat.min 50 (List.length l)) by lia.
  apply firstn_length_min.
Qed.

(** The server's search with no filter, for a non-blank query: the
    first page of the sorted matches. *)
Lemma mock_searchRecords_ranked (data : MockTOSModel.t) (query : string) :
  trim query <> EmptyString ->
  map fst (MockTOSModel.records
             (MockTOSModel.searchRecords data query MockTOSModel.noFilters))
  = firstn 50
      (sort (MockTOSModel.compareRelevance (toLowerCase query))
            (filter (MockTOSModel.matches (toLowerCase query)) data)).
Proof.
  intros Hq. unfold MockTOSModel.searchRecords, truthy.
  destruct (String.eqb_spec (trim query) EmptyString) as [E|_];
    [contradiction|].
  destruct (String.eqb_spec query EmptyString) as [E|_];
    [subst query; now elim Hq|].
  simpl. rewrite map_map. simpl. rewrite map_id.
  apply slice_first_page.
Qed.

(** The server's search with no filter, for a blank query: the first
    page of the data. *)
Lemma mock_searchRecords_blank (data : MockTOSModel.t) (query : string) :
  trim query = EmptyString ->
  map fst (MockTOSModel.records
             (MockTOSModel.searchRecords data query MockTOSModel.noFilters))
  = firstn 50 data.
Proof.
  intros Hq. unfold MockTOSModel.searchRecords, truthy.
  rewrite Hq. simpl String.eqb. rewrite andb_false_r.
  simpl. rewrite map_map. simpl. rewrite map_id.
  apply slice_first_page.
Qed.

Lemma searchRecords_blank (localeCompare : string -> string -> Z)
      (db : TOSDatabase.t) (stockId : string) :
  trim stockId = EmptyString ->
  TOSDatabase.searchRecords localeCompare db stockId
  = TOSDatabase.getAllRecords db.
Proof.
  intros Hq. unfold TOSDatabase.searchRecords, truthy.
  rewrite Hq. reflexivity.
Qed.

(** The tier of a record, by the tests the server makes: the two tests
    of its comparison and the test of its filter. *)
Lemma priority_tests (query : string) (r : TOSRecord) :
  let stockId := toLowerCase (STOCK_ID r) in
  (TOSDatabase.priority query r = 1
   /\ String.eqb stockId query = true
   /\ startsWith stockId query = true
   /\ MockTOSModel.matches query r = true)
  \/ (TOSDatabase.priority query r = 2
      /\ String.eqb stockId query = false
      /\ startsWith stockId query = true
      /\ MockTOSModel.matches query r = true)
  \/ ((TOSDatabase.priority query r = 3 \/ TOSDatabase.priority query r = 4)
      /\ String.eqb stockId query = false
      /\ startsWith stockId query = false
      /\ MockTOSModel.matches query r = true)
  \/ ((TOSDatabase.priority query r = 5 \/ TOSDatabase.priority query r = 0)
      /\ MockTOSModel.matches query r = false).
Proof.
  unfold TOSDatabase.priority, MockTOSModel.matches. cbv zeta.
  destruct (String.eqb_spec (toLowerCase (STOCK_ID r)) query) as [E|E].
  - left. rewrite E. unfold startsWith.
    rewrite (includes_prefix query query), prefix_refl by apply prefix_refl.
    repeat split.
  - destruct (startsWith (toLowerCase (STOCK_ID r)) query) eqn:Ep.
    + right; left. rewrite (includes_prefix _ _ Ep). repeat split.
    + destruct (includes (toLowerCase (STOCK_ID r)) query) eqn:Ei.
      * right; right; left. repeat split; now left.
      * destruct (includes (toLowerCase (CONTRACTOR r)) query).
        -- right; right; left. repeat split; now right.
        -- right; right; right.
           destruct ((TOSDatabase.calculateSimpleDistance
                        (toLowerCase (STOCK_ID r)) query <=? 2)
                     && (2 <? len query)); split; auto.
Qed.

(** Without a fuzzy match, the server's filter keeps the records the
    local search gives a tier. *)
Lemma matches_priority (query : string) (r : TOSRecord) :
  TOSDatabase.priority query r <> 5 ->
  MockTOSModel.matches query r = (0 <? TOSDatabase.priority query r).
Proof.
  intros H5.
  destruct (priority_tests query r)
    as [(P & _ & _ & M)|[(P & _ & _ & M)|[(P & _ & _ & M)|(P & M)]]];
    rewrite M; symmetry.
  - apply Z.ltb_lt. lia.
  - apply Z.ltb_lt. lia.
  - apply Z.ltb_lt. lia.
  - apply Z.ltb_ge. lia.
Qed.

Lemma ForallOrdPairs_filter {A : Type} (R : A -> A -> Prop)
      (f : A -> bool) (l : list A) :
  ForallOrdPairs R l -> ForallOrdPairs R (filter f l).
Proof.
  induction 1 as [|x l Hx Hl IH]; simpl; [constructor|].
  destruct (f x); [|exact IH].
  constructor; [|exact IH].
  rewrite Forall_forall in Hx |- *.
  intros y Hy. apply Hx. now apply filter_In in Hy.
Qed.

(** The sort compares an element only with elements that follow it in
    the list: two comparators that agree on such pairs sort the list the
    same way. *)
Lemma sort_ext_listed {A : Type} (R : A -> A -> Prop)
      (c1 c2 : A -> A -> Z) (l : list A) :
  ForallOrdPairs R l ->
  (forall x y, In x l -> In y l -> R x y ->
               (c1 x y <=? 0) = (c2 x y <=? 0)) ->
  sort c1 l = sort c2 l.
Proof.
  induction 1 as [|x l Hx Hl IH]; intros H; simpl; [reflexivity|].
  rewrite IH by (intros a b Ha Hb; apply H; now right).
  apply insert_ext. intros y Hy.
  pose proof (proj1 (sort_In c2 y l) Hy) as Hy'.
  apply H; [now left | now right|].
  rewrite Forall_forall in Hx. now apply Hx.
Qed.

(** On two matching records listed in rank, neither a fuzzy match, the
    comparison of the server and that of the local search agree. The
    server measures the lower-cased identifier and the local search the
    identifier itself: the two lengths are assumed equal. *)
Lemma comparators_agree (localeCompare : string -> string -> Z)
      (query : string) (a b : TOSRecord) :
  0 < TOSDatabase.priority query a -> TOSDatabase.priority query a <> 5 ->
  0 < TOSDatabase.priority query b -> TOSDatabase.priority query b <> 5 ->
  len (toLowerCase (STOCK_ID a)) = len (STOCK_ID a) ->
  len (toLowerCase (STOCK_ID b)) = len (STOCK_ID b) ->
  listedInRank localeCompare query a b ->
  (MockTOSModel.compareRelevance query a b <=? 0)
  = (compareRanked localeCompare query a b <=? 0).
Proof.
  intros Hpa Hfa Hpb Hfb La Lb Hrank.
  destruct (Hrank Hpa Hpb) as (H34 & H43 & Htie).
  unfold MockTOSModel.compareRelevance, compareRanked,
    TOSDatabase.compareResults.
  cbv zeta. cbn [fst snd]. rewrite La, Lb.
  destruct (priority_tests query a)
    as [(Pa & Ea & Sa & _)|[(Pa & Ea & Sa & _)|[(Pa & Ea & Sa & _)|(Pa & _)]]];
    [| |destruct Pa as [Pa|Pa]|lia];
    (destruct (priority_tests query b)
       as [(Pb & Eb & Sb & _)|[(Pb & Eb & Sb & _)
                              |[(Pb & Eb & Sb & _)|(Pb & _)]]];
     [| |destruct Pb as [Pb|Pb]|lia]);
    rewrite Ea, Eb, Sa, Sb, Pa, Pb; simpl; try reflexivity;
    try (apply Z.leb_le; specialize (H34 Pa Pb); lia);
    try (apply Z.leb_gt; specialize (H43 Pa Pb); lia);
    (destruct (Z.eqb_spec (len (STOCK_ID a)) (len (STOCK_ID b))) as [El|El];
     simpl; [|reflexivity]);
    rewrite El, Z.sub_diag; symmetry; apply Z.leb_le, Htie; congruence.
Qed.

(** C4 (amended): the server's in-memory search with no filter returns
    the first 50 records of the local search, in the same order, for
    every blank query, and for a non-blank query under four conditions:
    the query has no surrounding white space; no record is a fuzzy match
    only (tier 5); lower-casing keeps the length of the identifier of
    every matching record; and any two matching records are listed in
    the collection in rank ([listedInRank]: an identifier match by
    substring is not longer than a match by contractor only, and shorter
    than one listed before it; records of one tier and identifier length
    are listed in collation order). *)
Theorem searchRecords_backends_agree
        (localeCompare : string -> string -> Z)
        (db : TOSDatabase.t) (query : string) :
  (trim query <> EmptyString ->
   trim (toLowerCase query) = toLowerCase query
   /\ (forall r, In r (TOSDatabase.getAllRecords db) ->
         TOSDatabase.priority (toLowerCase query) r <> 5)
   /\ (forall r, In r (TOSDatabase.getAllRecords db) ->
         0 < TOSDatabase.priority (toLowerCase query) r ->
         len (toLowerCase (STOCK_ID r)) = len (STOCK_ID r))
   /\ ForallOrdPairs (listedInRank localeCompare (toLowerCase query))
                     (TOSDatabase.getAllRecords db)) ->
  map fst (MockTOSModel.records
             (MockTOSModel.searchRecords (TOSDatabase.getAllRecords db)
                                         query MockTOSModel.noFilters))
  = firstn 50 (TOSDatabase.searchRecords localeCompare db query).
Proof.
  intros H.
  destruct (String.eqb_spec (trim query) EmptyString) as [Hblank|Hq].
  - now rewrite mock_searchRecords_blank, searchRecords_blank.
  - destruct (H Hq) as (Htrim & Hfuzzy & Hlen & Hrank).
    rewrite mock_searchRecords_ranked by exact Hq.
    rewrite (searchRecords_ranked localeCompare db query Hq), Htrim.
    f_equal.
    rewrite (filter_ext_in
               (MockTOSModel.matches (toLowerCase query))
               (fun r => 0 <? TOSDatabase.priority (toLowerCase query) r))
      by (intros r Hr; apply matches_priority, Hfuzzy, Hr).
    apply (sort_ext_listed (listedInRank localeCompare (toLowerCase query))).
    + apply ForallOrdPairs_filter, Hrank.
    + intros a b Ha Hb Hab.
      apply filter_In in Ha, Hb. destruct Ha as [Ha Hpa], Hb as [Hb Hpb].
      apply Z.ltb_lt in Hpa, Hpb.
      apply comparators_agree; auto.
Qed.

(** The seeded store and the query of the source's own comment: records
    2, 4 and 6 tie on tier and identifier length and are listed in
    collation order. *)
Lemma searchRecords_backends_agree_witness :
  map fst (MockTOSModel.records
             (MockTOSModel.searchRecords SAMPLE_TOS_DATA "5348"
                                         MockTOSModel.noFilters))
  = firstn 50 (TOSDatabase.searchRecords codeUnitCompare sampleDb "5348").
Proof.
  apply (searchRecords_backends_agree codeUnitCompare sampleDb "5348").
  intros _. split; [reflexivity|]. split; [|split].
  - intros r Hr. simpl in Hr.
    repeat (destruct Hr as [<-|Hr]; [vm_compute; discriminate|]).
    destruct Hr.
  - intros r Hr _. simpl in Hr.
    repeat (destruct Hr as [<-|Hr]; [reflexivity|]).
    destruct Hr.
  - unfold sampleDb, TOSDatabase.getAllRecords, storeGetAll,
      SAMPLE_TOS_DATA. cbn [TOSDatabase.tosRecords].
    repeat (apply FOP_cons;
            [repeat (apply Forall_cons;
                     [intros Ha Hb; (split; [|split]); intros Hp Hl;
                      first [ vm_compute; discriminate
                            | vm_compute in Hp; discriminate
                            | vm_compute in Hl; discriminate ]|]);
             apply Forall_nil|]).
    apply FOP_nil.
Defined.

(** C4, as stated, fails, in five ways. A record matched by its
    contractor is ranked after an identifier match by the local search
    and before it, for its shorter identifier, by the server's. The
    server searches for the query with its surrounding white space, the
    local search trims it. The server has no fuzzy match. Records of one
    tier and identifier length keep the order of the collection on the
    server and are put in collation order by the local search. The
    server returns a page of 50 records. *)
Lemma searchRecords_backends_counterexample :
  (map ID (map fst (MockTOSModel.records
                      (MockTOSModel.searchRecords contractorRecords "ab"
                                                  MockTOSModel.noFilters)))
   = [1; 2]
   /\ map ID (TOSDatabase.searchRecords codeUnitCompare
                (TOSDatabase.mk contractorRecords []) "ab")
      = [2; 1])
  /\ (map ID (map fst (MockTOSModel.records
                         (MockTOSModel.searchRecords SAMPLE_TOS_DATA " 5348"
                                                     MockTOSModel.noFilters)))
      = []
      /\ map ID (TOSDatabase.searchRecords codeUnitCompare sampleDb " 5348")
         = [1; 2; 4; 6])
  /\ (map ID (map fst (MockTOSModel.records
                         (MockTOSModel.searchRecords SAMPLE_TOS_DATA
                                                     "BB.D.5349"
                                                     MockTOSModel.noFilters)))
      = []
      /\ map ID (TOSDatabase.searchRecords codeUnitCompare sampleDb
                   "BB.D.5349")
         = [1])
  /\ (map ID (map fst (MockTOSModel.records
                         (MockTOSModel.searchRecords
                            [ sampleRecord 1 "North Pit" "ZZ.5348";
                              sampleRecord 2 "South Pit" "AA.5348" ]
                            "5348" MockTOSModel.noFilters)))
      = [1; 2]
      /\ map ID (TOSDatabase.searchRecords codeUnitCompare
                   (TOSDatabase.mk
                      [ sampleRecord 1 "North Pit" "ZZ.5348";
                        sampleRecord 2 "South Pit" "AA.5348" ] [])
                   "5348")
         = [2; 1])
  /\ (List.length
        (MockTOSModel.records
           (MockTOSModel.searchRecords
              (repeat (sampleRecord 1 "North Pit" "AA.5348") 51)
              "5348" MockTOSModel.noFilters))
      = 50%nat
      /\ List.length
           (TOSDatabase.searchRecords codeUnitCompare
              (TOSDatabase.mk
                 (repeat (sampleRecord 1 "North Pit" "AA.5348") 51) [])
              "5348")
         = 51%nat).
Proof. repeat split; vm_compute; reflexivity. Qed.

(** ** The keys of the pending updates *)

Lemma append_snoc (s : string) (c : ascii) (t : string) :
  (s ++ String c t)%string = ((s ++ String c EmptyString) ++ t)%string.
Proof. induction s as [|a s IH]; simpl; [reflexivity | now rewrite IH]. Qed.

Lemma append_snoc_inj (s1 s2 : string) (c : ascii) :
  (s1 ++ String c EmptyString)%string = (s2 ++ String c EmptyString)%string ->
  s1 = s2.
Proof.
  revert s2. induction s1 as [|a s1 IH]; intros [|b s2] H; simpl in H.
  - reflexivity.
  - injection H as _ H. destruct s2; discriminate.
  - injection H as _ H. destruct s1; discriminate.
  - injection H as -> H. f_equal. now apply IH.
Qed.

Lemma occurs_append (c : ascii) (s t : string) :
  occurs c (s ++ t) = occurs c s || occurs c t.
Proof.
  induction s as [|a s IH]; simpl; [reflexivity|].
  now rewrite IH, orb_assoc.
Qed.

(** A string splits in one way only at the first occurrence of [c]. *)
Lemma append_marker_inj (c : ascii) (s1 s2 t1 t2 : string) :
  occurs c s1 = false -> occurs c s2 = false ->
  (s1 ++ String c t1)%string = (s2 ++ String c t2)%string ->
  s1 = s2 /\ t1 = t2.
Proof.
  revert s2. induction s1 as [|a s1 IH]; intros [|b s2] H1 H2 H;
    simpl in H, H1, H2.
  - injection H as ->. now split.
  - injection H as -> _. rewrite Ascii.eqb_refl in H2. discriminate.
  - injection H as -> _. rewrite Ascii.eqb_refl in H1. discriminate.
  - injection H as -> H.
    apply orb_false_iff in H1, H2.
    destruct (IH s2 (proj2 H1) (proj2 H2) H) as [-> ->]. now split.
Qed.

Lemma occurs_S_uint (d : Decimal.uint) :
  occurs "S" (NilEmpty.string_of_uint d) = false.
Proof. induction d; simpl; auto. Qed.

Lemma occurs_S_number (n : Z) : occurs "S" (numberToString n) = false.
Proof.
  unfold numberToString, NilZero.string_of_int, NilZero.string_of_uint.
  destruct (Z.to_int n) as [d|d]; destruct d; simpl;
    solve [reflexivity | apply occurs_S_uint].
Qed.

Lemma numberToString_inj (a b : Z) :
  numberToString a = numberToString b -> a = b.
Proof.
  unfold numberToString. intros H.
  apply (f_equal NilZero.int_of_string) in H.
  assert (Hnil : forall n, Z.to_int n <> Decimal.Pos Decimal.Nil
                           /\ Z.to_int n <> Decimal.Neg Decimal.Nil).
  { intros [|p|p]; simpl; split; try discriminate;
      intros E; injection E as E;
      exact (DecimalPos.Unsigned.to_uint_nonnil p E). }
  rewrite !NilZero.isi in H by apply Hnil.
  injection H as H. now apply DecimalZ.to_int_inj.
Qed.

Lemma pendingId_inj (id1 id2 : Z) (f1 f2 : MutableField) (t1 t2 : Z) :
  TOSDatabase.pendingId id1 f1 t1 = TOSDatabase.pendingId id2 f2 t2 ->
  id1 = id2 /\ f1 = f2 /\ t1 = t2.
Proof.
  unfold TOSDatabase.pendingId. intros H.
  assert (Hsplit : forall id f t,
    (numberToString id ++ "-" ++ fieldName f ++ "-" ++ numberToString t)%string
    = ((numberToString id ++ "-")
       ++ String "S" (match f with
                      | SHIFT_field => "HIFT"
                      | STOCK_STATUS_field => "TOCK_STATUS"
                      end ++ String "-" (numberToString t)))%string).
  { intros id f t. simpl. rewrite append_snoc. now destruct f. }
  rewrite !Hsplit in H.
  apply append_marker_inj in H;
    try (rewrite occurs_append, occurs_S_number; reflexivity).
  destruct H as [Hid Hrest].
  apply append_snoc_inj, numberToString_inj in Hid.
  destruct f1, f2; simpl in Hrest; try discriminate;
    inversion Hrest as [Ht]; apply numberToString_inj in Ht; auto.
Qed.

(** C6, as stated, fails: two edits of one field of one record at one
    clock reading, the pending update of the first cleared in between,
    both succeed and get the same identifier. *)
Lemma pendingId_repeated_counterexample :
  let first := TOSDatabase.updateRecord twoRecordDb 2 SHIFT_field
                 "Night Shift" 1000 1000 in
  let cleared := TOSDatabase.clearPendingUpdate (fst first) "2-SHIFT-1000" in
  let second := TOSDatabase.updateRecord (fst cleared) 2 SHIFT_field
                  "Day Shift" 1000 1000 in
  snd first = inr tt
  /\ snd second = inr tt
  /\ map pu_id (TOSDatabase.getPendingUpdates (fst first))
     = ["2-SHIFT-1000"%string]
  /\ map pu_id (TOSDatabase.getPendingUpdates (fst second))
     = ["2-SHIFT-1000"%string].
Proof. cbv zeta. repeat split; vm_compute; reflexivity. Qed.

(** ** The [pendingUpdates] store *)

Lemma string_compare_refl (s : string) : String.compare s s = Eq.
Proof.
  pose proof (String.compare_antisym s s) as H.
  destruct (String.compare s s); [reflexivity | discriminate..].
Qed.

Lemma sameKey_pu_id (k : string) (p : PendingUpdate) :
  sameKey pu_id String.compare k p = String.eqb (pu_id p) k.
Proof.
  unfold sameKey.
  destruct (String.eqb_spec (pu_id p) k) as [->|Hne].
  - now rewrite string_compare_refl.
  - destruct (String.compare k (pu_id p)) eqn:E; try reflexivity.
    apply String.compare_eq_iff in E. congruence.
Qed.

Lemma storeGet_absent (k : string) (s : list PendingUpdate) :
  storeGet pu_id String.compare k s = None
  <-> forall p, In p s -> pu_id p <> k.
Proof.
  unfold storeGet. split.
  - intros H p Hp E.
    pose proof (find_none _ _ H p Hp) as Hk.
    rewrite sameKey_pu_id in Hk.
    apply String.eqb_neq in Hk. contradiction.
  - intros H. induction s as [|w s IH]; simpl; [reflexivity|].
    rewrite sameKey_pu_id.
    destruct (String.eqb_spec (pu_id w) k) as [E|_].
    + elim (H w (or_introl eq_refl) E).
    + apply IH. intros p Hp. apply H. now right.
Qed.

Lemma storePut_fresh_perm (v : PendingUpdate) (s : list PendingUpdate) :
  storeGet pu_id String.compare (pu_id v) s = None ->
  Permutation (storePut pu_id String.compare v s) (v :: s).
Proof.
  rewrite storeGet_absent.
  induction s as [|w s IH]; intros H; simpl.
  - apply Permutation_refl.
  - destruct (String.compare (pu_id v) (pu_id w)) eqn:E.
    + apply String.compare_eq_iff in E.
      elim (H w (or_introl eq_refl)). now symmetry.
    + apply Permutation_refl.
    + eapply Permutation_trans; [|apply perm_swap].
      apply perm_skip, IH. intros p Hp. apply H. now right.
Qed.

Lemma keyBefore_trans (a b c : PendingUpdate) :
  keyBefore a b -> keyBefore b c -> keyBefore a c.
Proof.
  unfold keyBefore.
  exact (StrictOrder_Transitive (R := OrdersEx.String_as_OT.lt)
           (pu_id a) (pu_id b) (pu_id c)).
Qed.

Lemma storePut_fresh_sorted (v : PendingUpdate) (s : list PendingUpdate) :
  storeGet pu_id String.compare (pu_id v) s = None ->
  StronglySorted keyBefore s ->
  StronglySorted keyBefore (storePut pu_id String.compare v s).
Proof.
  intros Hfresh Hs. induction Hs as [|w s Hs IH Hall]; simpl.
  - repeat constructor.
  - assert (Hfresh' : storeGet pu_id String.compare (pu_id v) s = None).
    { rewrite storeGet_absent in Hfresh |- *.
      intros p Hp. apply Hfresh. now right. }
    destruct (String.compare (pu_id v) (pu_id w)) eqn:E.
    + apply String.compare_eq_iff in E.
      rewrite storeGet_absent in Hfresh.
      elim (Hfresh w (or_introl eq_refl)). now symmetry.
    + constructor; [now constructor|].
      constructor; [exact E|].
      eapply Forall_impl; [|exact Hall].
      intros p Hp. now apply (keyBefore_trans v w p).
    + constructor; [now apply IH|].
      assert (Hwv : keyBefore w v).
      { unfold keyBefore. rewrite String.compare_antisym, E. reflexivity. }
      rewrite Forall_forall in Hall |- *.
      intros p Hp.
      apply (Permutation_in _ (storePut_fresh_perm v s Hfresh')) in Hp.
      destruct Hp as [<-|Hp]; [exact Hwv | now apply Hall].
Qed.

Lemma keyBefore_sorted_NoDup (s : list PendingUpdate) :
  StronglySorted keyBefore s -> NoDup (map pu_id s).
Proof.
  induction 1 as [|w s Hs IH Hall]; simpl; constructor; [|exact IH].
  rewrite in_map_iff. intros [p [E Hp]].
  rewrite Forall_forall in Hall. specialize (Hall p Hp).
  unfold keyBefore in Hall.
  rewrite E, string_compare_refl in Hall. discriminate.
Qed.

(** What a successful [updateRecord] did to the pending updates. *)
Lemma updateRecord_success (db db' : TOSDatabase.t) (id : Z)
      (field : MutableField) (newValue : string) (now now' : Z) :
  TOSDatabase.updateRecord db id field newValue now now' = (db', inr tt) ->
  exists p,
    pu_id p = TOSDatabase.pendingId id field now
    /\ storeGet pu_id String.compare (pu_id p) (TOSDatabase.pendingUpdates db)
       = None
    /\ TOSDatabase.pendingUpdates db'
       = storePut pu_id String.compare p (TOSDatabase.pendingUpdates db).
Proof.
  unfold TOSDatabase.updateRecord, storeAdd.
  destruct (storeGet ID Z.compare id (TOSDatabase.tosRecords db))
    as [record|]; [|discriminate].
  set (p := mkPendingUpdate _ _ _ _ _ _ _).
  destruct (storeGet pu_id String.compare (pu_id p)
                     (TOSDatabase.pendingUpdates db)) eqn:E; [discriminate|].
  intros H. injection H as <-. exists p. now repeat split.
Qed.

(** An edit whose key is in the queue is rejected, and nothing changes. *)
Lemma updateRecord_key_taken (db : TOSDatabase.t) (id : Z)
      (field : MutableField) (newValue : string) (now now' : Z) :
  In (TOSDatabase.pendingId id field now)
     (map pu_id (TOSDatabase.getPendingUpdates db)) ->
  exists e,
    TOSDatabase.updateRecord db id field newValue now now' = (db, inl e).
Proof.
  intros Hin. unfold TOSDatabase.updateRecord, storeAdd.
  destruct (storeGet ID Z.compare id (TOSDatabase.tosRecords db))
    as [record|]; [|eauto].
  set (p := mkPendingUpdate _ _ _ _ _ _ _).
  destruct (storeGet pu_id String.compare (pu_id p)
                     (TOSDatabase.pendingUpdates db)) eqn:E; [eauto|].
  rewrite storeGet_absent in E. apply in_map_iff in Hin.
  destruct Hin as [q [Hq Hin]]. elim (E q Hin Hq).
Qed.

Lemma applyEdits_pending (edits : list TOSDatabase.Edit) :
  forall db db',
    TOSDatabase.applyEdits db edits = Some db' ->
    StronglySorted keyBefore (TOSDatabase.pendingUpdates db) ->
    StronglySorted keyBefore (TOSDatabase.pendingUpdates db')
    /\ Permutation (map pu_id (TOSDatabase.pendingUpdates db'))
                   (map pu_id (TOSDatabase.pendingUpdates db)
                    ++ map TOSDatabase.editKey edits).
Proof.
  induction edits as [|e edits IH]; intros db db' Hrun Hs; simpl in Hrun.
  - injection Hrun as <-. rewrite app_nil_r. now split.
  - destruct (TOSDatabase.updateRecord db (TOSDatabase.e_id e)
                (TOSDatabase.e_field e) (TOSDatabase.e_newValue e)
                (TOSDatabase.e_now e) (TOSDatabase.e_now' e))
      as [db1 [err|[]]] eqn:Eu; [discriminate|].
    destruct (updateRecord_success _ _ _ _ _ _ _ Eu) as (p & Hid & Hfresh & Hp).
    assert (Hs1 : StronglySorted keyBefore (TOSDatabase.pendingUpdates db1))
      by (rewrite Hp; now apply storePut_fresh_sorted).
    destruct (IH db1 db' Hrun Hs1) as [Hs' Hperm].
    split; [exact Hs'|].
    eapply Permutation_trans; [exact Hperm|].
    rewrite Hp. simpl map.
    change (TOSDatabase.editKey e :: map TOSDatabase.editKey edits)
      with ([TOSDatabase.editKey e] ++ map TOSDatabase.editKey edits).
    rewrite app_assoc. apply Permutation_app_tail.
    eapply Permutation_trans;
      [apply Permutation_map, storePut_fresh_perm, Hfresh|].
    simpl. rewrite Hid.
    change (TOSDatabase.pendingId _ _ _) with (TOSDatabase.editKey e).
    apply Permutation_cons_append.
Qed.

Lemma applyEdits_keys_distinct (db db' : TOSDatabase.t)
      (edits : list TOSDatabase.Edit) :
  StronglySorted keyBefore (TOSDatabase.pendingUpdates db) ->
  TOSDatabase.applyEdits db edits = Some db' ->
  NoDup (map TOSDatabase.editKey edits).
Proof.
  intros Hs Hrun.
  destruct (applyEdits_pending edits db db' Hrun Hs) as [Hs' Hperm].
  apply keyBefore_sorted_NoDup in Hs'.
  apply (Permutation_NoDup Hperm) in Hs'.
  now apply NoDup_app_remove_l in Hs'.
Qed.

(** C6 (amended): two edits that differ in the record id, in the field
    or in the clock reading the key is built from get distinct
    identifiers; and the edits of a run of successful edits with nothing
    in between, on a queue in key order, have pairwise distinct
    identifiers. *)
Theorem pendingId_distinct :
  (forall (id1 id2 : Z) (f1 f2 : MutableField) (t1 t2 : Z),
     (id1, f1, t1) <> (id2, f2, t2) ->
     TOSDatabase.pendingId id1 f1 t1 <> TOSDatabase.pendingId id2 f2 t2)
  /\ (forall (db db' : TOSDatabase.t) (edits : list TOSDatabase.Edit),
        StronglySorted keyBefore (TOSDatabase.pendingUpdates db) ->
        TOSDatabase.applyEdits db edits = Some db' ->
        NoDup (map TOSDatabase.editKey edits)).
Proof.
  split.
  - intros id1 id2 f1 f2 t1 t2 Hne Heq. apply Hne.
    destruct (pendingId_inj _ _ _ _ _ _ Heq) as (-> & -> & ->). reflexivity.
  - apply applyEdits_keys_distinct.
Qed.

Lemma pendingId_distinct_witness :
  TOSDatabase.pendingId 1 SHIFT_field 1000
  <> TOSDatabase.pendingId 1 SHIFT_field 1001
  /\ NoDup (map TOSDatabase.editKey twoEdits).
Proof.
  split.
  - apply (proj1 pendingId_distinct 1 1 SHIFT_field SHIFT_field 1000 1001).
    intros H. discriminate H.
  - destruct (TOSDatabase.applyEdits twoRecordDb twoEdits) as [db'|] eqn:E;
      [|vm_compute in E; discriminate E].
    apply (proj2 pendingId_distinct twoRecordDb db' twoEdits);
      [constructor | exact E].
Defined.

(** C7 (amended): starting from an empty pending queue, after N
    successful edits with nothing in between, [getPendingUpdates] returns
    exactly N entries, one for each edit, in ascending order of their
    generated identifiers; the N identifiers are distinct. *)
Theorem getPendingUpdates_after_edits
        (db db' : TOSDatabase.t) (edits : list TOSDatabase.Edit) :
  TOSDatabase.pendingUpdates db = [] ->
  TOSDatabase.applyEdits db edits = Some db' ->
  List.length (TOSDatabase.getPendingUpdates db') = List.length edits
  /\ Permutation (map pu_id (TOSDatabase.getPendingUpdates db'))
                 (map TOSDatabase.editKey edits)
  /\ StronglySorted keyBefore (TOSDatabase.getPendingUpdates db')
  /\ NoDup (map TOSDatabase.editKey edits).
Proof.
  intros Hempty Hrun.
  destruct (applyEdits_pending edits db db' Hrun) as [Hs Hperm].
  { rewrite Hempty. constructor. }
  rewrite Hempty in Hperm. simpl in Hperm.
  unfold TOSDatabase.getPendingUpdates, storeGetAll.
  split; [|split; [exact Hperm | split; [exact Hs|]]].
  - rewrite <- (length_map pu_id), <- (length_map TOSDatabase.editKey).
    now apply Permutation_length.
  - apply (applyEdits_keys_distinct db db' edits); [|exact Hrun].
    rewrite Hempty. constructor.
Qed.

Lemma getPendingUpdates_after_edits_witness :
  exists db',
    TOSDatabase.applyEdits twoRecordDb twoEdits = Some db'
    /\ List.length (TOSDatabase.getPendingUpdates db') = 2%nat
    /\ StronglySorted keyBefore (TOSDatabase.getPendingUpdates db').
Proof.
  destruct (TOSDatabase.applyEdits twoRecordDb twoEdits) as [db'|] eqn:E;
    [|vm_compute in E; discriminate E].
  exists db'. split; [reflexivity|].
  destruct (getPendingUpdates_after_edits twoRecordDb db' twoEdits
              eq_refl E) as (Hlen & _ & Hs & _).
  split; [exact Hlen | exact Hs].
Defined.

(** C7, as stated, fails on the order: record 2 is edited before record
    10, and the entry of record 10 comes first, its identifier being the
    smaller key. *)
Lemma getPendingUpdates_order_counterexample :
  map TOSDatabase.editKey twoEdits
  = ["2-SHIFT-1000"; "10-STOCK_STATUS-1001"]%string
  /\ option_map (fun db' => map pu_id (TOSDatabase.getPendingUpdates db'))
                (TOSDatabase.applyEdits twoRecordDb twoEdits)
     = Some ["10-STOCK_STATUS-1001"; "2-SHIFT-1000"]%string.
Proof. split; vm_compute; reflexivity. Qed.

Lemma filter_all {A : Type} (f : A -> bool) (l : list A) :
  (forall x, In x l -> f x = true) -> filter f l = l.
Proof.
  induction l as [|x l IH]; intros H; simpl; [reflexivity|].
  rewrite (H x (or_introl eq_refl)). f_equal.
  apply IH. intros y Hy. apply H. now right.
Qed.

Lemma filter_idem {A : Type} (f : A -> bool) (l : list A) :
  filter f (filter f l) = filter f l.
Proof.
  apply filter_all. intros x Hx. now apply filter_In in Hx.
Qed.

(** C8: [clearPendingUpdate] succeeds, removes the entries with the
    given id (at most one, ids being keys) and no other, leaves the
    records alone, changes nothing when no entry has the id, and does
    the same whether run once or twice. *)
Theorem clearPendingUpdate_removes_one (db : TOSDatabase.t) (id : string) :
  let db' := fst (TOSDatabase.clearPendingUpdate db id) in
  snd (TOSDatabase.clearPendingUpdate db id) = inr tt
  /\ TOSDatabase.getPendingUpdates db'
     = filter (fun p => negb (String.eqb (pu_id p) id))
              (TOSDatabase.getPendingUpdates db)
  /\ (forall p, In p (TOSDatabase.getPendingUpdates db') <->
                In p (TOSDatabase.getPendingUpdates db) /\ pu_id p <> id)
  /\ TOSDatabase.tosRecords db' = TOSDatabase.tosRecords db
  /\ ((forall p, In p (TOSDatabase.getPendingUpdates db) -> pu_id p <> id) ->
      db' = db)
  /\ fst (TOSDatabase.clearPendingUpdate db' id) = db'.
Proof.
  assert (Hdel : forall s,
    storeDelete pu_id String.compare id s
    = filter (fun p => negb (String.eqb (pu_id p) id)) s).
  { intros s. unfold storeDelete. apply filter_ext.
    intros p. now rewrite sameKey_pu_id. }
  destruct db as [recs pend].
  unfold TOSDatabase.clearPendingUpdate, TOSDatabase.getPendingUpdates,
    storeGetAll.
  simpl. rewrite !Hdel.
  split; [reflexivity|]. split; [reflexivity|]. split; [|split; [reflexivity|]].
  - intros p. rewrite filter_In, negb_true_iff, String.eqb_neq. reflexivity.
  - split.
    + intros H. f_equal. apply filter_all.
      intros p Hp. apply negb_true_iff, String.eqb_neq. now apply H.
    + now rewrite filter_idem.
Qed.

Lemma clearPendingUpdate_removes_one_witness :
  fst (TOSDatabase.clearPendingUpdate twoRecordDb "2-SHIFT-1000")
  = twoRecordDb.
Proof.
  refine (proj1 (proj2 (proj2 (proj2 (proj2
    (clearPendingUpdate_removes_one twoRecordDb "2-SHIFT-1000"))))) _).
  intros p Hp. elim Hp.
Defined.

(** ** The server's in-memory model *)

Lemma findIndex_hasRecord (id : Z) (data : MockTOSModel.t) :
  MockTOSModel.findIndex id data = None <-> hasRecord data id = false.
Proof.
  unfold hasRecord. induction data as [|r data IH]; simpl.
  - tauto.
  - destruct (ID r =? id); simpl.
    + split; discriminate.
    + destruct (MockTOSModel.findIndex id data); simpl in *.
      * split; [discriminate|]. intros H. apply IH in H. discriminate.
      * tauto.
Qed.

Lemma hasRecord_In (id : Z) (data : MockTOSModel.t) :
  hasRecord data id = false <-> forall r, In r data -> ID r <> id.
Proof.
  unfold hasRecord. split.
  - intros H r Hr E.
    assert (Ht : existsb (fun r => ID r =? id) data = true)
      by (apply existsb_exists; exists r; split;
          [exact Hr | now apply Z.eqb_eq]).
    congruence.
  - intros H. destruct (existsb _ data) eqn:E; [|reflexivity].
    apply existsb_exists in E. destruct E as [r [Hr E]].
    apply Z.eqb_eq in E. elim (H r Hr E).
Qed.

Lemma assign_ID (field value : string) (r : TOSRecord) :
  ID (MockTOSModel.assign field value r) = ID r.
Proof.
  unfold MockTOSModel.assign.
  destruct (String.eqb field "SHIFT"); [reflexivity|].
  destruct (String.eqb field "STOCK_STATUS"); reflexivity.
Qed.

Lemma assignAt_IDs (i : nat) (field value : string) (data : MockTOSModel.t) :
  map ID (MockTOSModel.assignAt i field value data) = map ID data.
Proof.
  revert i. induction data as [|r data IH]; intros [|i]; simpl;
    try reflexivity.
  - now rewrite assign_ID.
  - now rewrite IH.
Qed.

Lemma hasRecord_IDs (d d' : MockTOSModel.t) (id : Z) :
  map ID d = map ID d' -> hasRecord d id = hasRecord d' id.
Proof.
  unfold hasRecord. intros H.
  assert (E : forall l, existsb (fun r => ID r =? id) l
                        = existsb (fun n => n =? id) (map ID l)).
  { induction l as [|r l IH]; simpl; [reflexivity | now rewrite IH]. }
  now rewrite !E, H.
Qed.

Lemma updateRecord_rejected (data : MockTOSModel.t)
      (u : MockTOSModel.Update) :
  accepted data u = false ->
  MockTOSModel.updateRecord data (MockTOSModel.u_id u)
    (MockTOSModel.u_field u) (MockTOSModel.u_value u)
  = (data, inl (snd (errorOf data u))).
Proof.
  unfold accepted, errorOf, MockTOSModel.updateRecord. intros H. simpl.
  destruct (MockTOSModel.findIndex (MockTOSModel.u_id u) data) eqn:E.
  - assert (Hh : hasRecord data (MockTOSModel.u_id u) = true).
    { destruct (hasRecord data (MockTOSModel.u_id u)) eqn:Eh; [reflexivity|].
      apply findIndex_hasRecord in Eh. congruence. }
    rewrite Hh in H |- *. simpl in H. rewrite H. reflexivity.
  - apply findIndex_hasRecord in E. rewrite E. reflexivity.
Qed.

Lemma updateRecord_accepted (data : MockTOSModel.t)
      (u : MockTOSModel.Update) :
  accepted data u = true ->
  exists data' r,
    MockTOSModel.updateRecord data (MockTOSModel.u_id u)
      (MockTOSModel.u_field u) (MockTOSModel.u_value u)
    = (data', inr r)
    /\ map ID data' = map ID data.
Proof.
  unfold accepted, MockTOSModel.updateRecord. intros H.
  apply andb_true_iff in H. destruct H as [Hh Ha].
  destruct (MockTOSModel.findIndex (MockTOSModel.u_id u) data) eqn:E.
  - rewrite Ha. simpl. eexists _, _. split; [reflexivity|].
    apply assignAt_IDs.
  - apply findIndex_hasRecord in E. congruence.
Qed.

Lemma applyUpdate_IDs (data : MockTOSModel.t) (u : MockTOSModel.Update) :
  map ID (applyUpdate data u) = map ID data.
Proof.
  unfold applyUpdate. destruct (accepted data u) eqn:E.
  - destruct (updateRecord_accepted data u E) as (d & r & -> & H). exact H.
  - now rewrite (updateRecord_rejected data u E).
Qed.

Lemma accepted_IDs (d d' : MockTOSModel.t) (u : MockTOSModel.Update) :
  map ID d = map ID d' -> accepted d u = accepted d' u.
Proof.
  intros H. unfold accepted. now rewrite (hasRecord_IDs d d' _ H).
Qed.

Lemma errorOf_IDs (d d' : MockTOSModel.t) (u : MockTOSModel.Update) :
  map ID d = map ID d' -> errorOf d u = errorOf d' u.
Proof.
  intros H. unfold errorOf. now rewrite (hasRecord_IDs d d' _ H).
Qed.

(** The loop, from any data with the ids of [data0] and any counts. *)
Lemma bulkLoop_spec (data0 : MockTOSModel.t)
      (updates : list MockTOSModel.Update) :
  forall data results,
    map ID data = map ID data0 ->
    MockTOSModel.bulkLoop updates data results
    = (fold_left applyUpdate updates data,
       MockTOSModel.mkBulkResult
         (MockTOSModel.successful results
          + Z.of_nat (List.length (filter (accepted data0) updates)))
         (MockTOSModel.failed results
          + Z.of_nat (List.length (filter (rejected data0) updates)))
         (MockTOSModel.errors results
          ++ map (errorOf data0) (filter (rejected data0) updates))).
Proof.
  induction updates as [|u updates IH]; intros data results Hids.
  - simpl. rewrite !Z.add_0_r, app_nil_r. now destruct results.
  - cbn [MockTOSModel.bulkLoop fold_left filter].
    change (rejected data0 u) with (negb (accepted data0 u)).
    pose proof (accepted_IDs data data0 u Hids) as Hacc.
    pose proof (errorOf_IDs data data0 u Hids) as Herr.
    destruct (accepted data0 u) eqn:E.
    + destruct (updateRecord_accepted data u Hacc) as (d & r & Hu & Hd).
      assert (Hap : applyUpdate data u = d)
        by (unfold applyUpdate; now rewrite Hu).
      rewrite Hu, Hap, IH by congruence.
      cbn [negb List.length MockTOSModel.successful MockTOSModel.failed
           MockTOSModel.errors].
      rewrite Nat2Z.inj_succ. do 2 f_equal. lia.
    + pose proof (updateRecord_rejected data u Hacc) as Hu.
      assert (Hap : applyUpdate data u = data)
        by (unfold applyUpdate; now rewrite Hu).
      rewrite Hu, Hap, Herr, IH by congruence.
      cbn [negb List.length map MockTOSModel.successful MockTOSModel.failed
           MockTOSModel.errors].
      rewrite Nat2Z.inj_succ, <- app_assoc. simpl app.
      do 2 f_equal. lia.
Qed.

Lemma fold_applyUpdate_IDs (updates : list MockTOSModel.Update) :
  forall data, map ID (fold_left applyUpdate updates data) = map ID data.
Proof.
  induction updates as [|u updates IH]; intros data; simpl; [reflexivity|].
  now rewrite IH, applyUpdate_IDs.
Qed.

Lemma isAllowed_In (field : string) :
  MockTOSModel.isAllowed field = true
  <-> In field MockTOSModel.allowedFields.
Proof.
  unfold MockTOSModel.isAllowed. rewrite existsb_exists. split.
  - intros [x [Hx E]]. apply String.eqb_eq in E. now subst x.
  - intros H. exists field. split; [exact H | apply String.eqb_refl].
Qed.

(** C5 (amended): on the server, an update of a field outside
    {SHIFT, STOCK_STATUS} fails and modifies no record; when the record
    exists, it fails with the invalid-field error.  On the client the
    field of an edit, and so of every Pending Update, is one of the two
    mutable fields by its type. *)
Theorem updateRecord_invalid_field
        (data : MockTOSModel.t) (id : Z) (field value : string) :
  ~ In field MockTOSModel.allowedFields ->
  fst (MockTOSModel.updateRecord data id field value) = data
  /\ (exists message,
        snd (MockTOSModel.updateRecord data id field value) = inl message)
  /\ (hasRecord data id = true ->
      snd (MockTOSModel.updateRecord data id field value)
      = inl (MockTOSModel.invalidFieldMessage field))
  /\ (forall f : MutableField, In (fieldName f) MockTOSModel.allowedFields).
Proof.
  intros Hfield.
  assert (Hno : MockTOSModel.isAllowed field = false).
  { destruct (MockTOSModel.isAllowed field) eqn:E; [|reflexivity].
    apply isAllowed_In in E. contradiction. }
  pose proof (updateRecord_rejected data (MockTOSModel.mkUpdate id field value))
    as Hrej.
  unfold accepted, errorOf in Hrej. simpl in Hrej.
  rewrite Hno, andb_false_r in Hrej. specialize (Hrej eq_refl).
  rewrite Hrej. simpl.
  split; [reflexivity|]. split; [eauto|]. split.
  - intros ->. reflexivity.
  - intros [|]; simpl; auto.
Qed.

Lemma updateRecord_invalid_field_witness :
  snd (MockTOSModel.updateRecord SAMPLE_TOS_DATA 1 "DATE" "2025-02-01")
  = inl "Invalid field: DATE"%string.
Proof.
  refine (proj1 (proj2 (proj2
    (updateRecord_invalid_field SAMPLE_TOS_DATA 1 "DATE" "2025-02-01" _))) _).
  - simpl. intros [H|[H|[]]]; discriminate H.
  - reflexivity.
Defined.

(** C5, as stated, fails for an id that references no record: the
    server answers with the record-not-found error, not with the
    invalid-field one. *)
Lemma updateRecord_invalid_field_counterexample :
  ~ In "DATE"%string MockTOSModel.allowedFields
  /\ snd (MockTOSModel.updateRecord SAMPLE_TOS_DATA 99 "DATE" "2025-02-01")
     = inl "Record with ID 99 not found"%string
  /\ snd (MockTOSModel.updateRecord SAMPLE_TOS_DATA 99 "DATE" "2025-02-01")
     <> inl (MockTOSModel.invalidFieldMessage "DATE").
Proof.
  split; [simpl; intros [H|[H|[]]]; discriminate H|].
  split; [reflexivity | vm_compute; discriminate].
Qed.

(** C10: in the server model the existence check comes first: for an id
    that references no record, [updateRecord] fails with the
    record-not-found error whatever the field name, also one outside
    {SHIFT, STOCK_STATUS}, and modifies no record. *)
Theorem updateRecord_not_found_first
        (data : MockTOSModel.t) (id : Z) (field value : string) :
  (forall r, In r data -> ID r <> id) ->
  MockTOSModel.updateRecord data id field value
  = (data, inl (MockTOSModel.notFoundMessage id))
  /\ MockTOSModel.notFoundMessage id
     <> MockTOSModel.invalidFieldMessage field.
Proof.
  intros Habsent. split.
  - unfold MockTOSModel.updateRecord.
    apply hasRecord_In, findIndex_hasRecord in Habsent.
    now rewrite Habsent.
  - unfold MockTOSModel.notFoundMessage, MockTOSModel.invalidFieldMessage.
    simpl. discriminate.
Qed.

Lemma updateRecord_not_found_first_witness :
  MockTOSModel.updateRecord SAMPLE_TOS_DATA 99 "DATE" "2025-02-01"
  = (SAMPLE_TOS_DATA, inl "Record with ID 99 not found"%string).
Proof.
  refine (proj1
    (updateRecord_not_found_first SAMPLE_TOS_DATA 99 "DATE" "2025-02-01" _)).
  intros r Hr. simpl in Hr.
  repeat (destruct Hr as [<-|Hr]; [discriminate|]). elim Hr.
Defined.

(** C9: [bulkUpdate] counts every item as successful or failed; the
    failing items, those that name no record or a field outside
    {SHIFT, STOCK_STATUS}, appear in [errors] once each and in input
    order; the data is what applying the items one after the other
    leaves, and a failing item changes neither that data nor the count
    of successes: the items after it are applied as if it were absent. *)
Theorem bulkUpdate_partial_failure
        (data : MockTOSModel.t) (updates : list MockTOSModel.Update) :
  let result := snd (MockTOSModel.bulkUpdate data updates) in
  MockTOSModel.successful result + MockTOSModel.failed result
  = Z.of_nat (List.length updates)
  /\ MockTOSModel.successful result
     = Z.of_nat (List.length (filter (accepted data) updates))
  /\ MockTOSModel.failed result
     = Z.of_nat (List.length (MockTOSModel.errors result))
  /\ MockTOSModel.errors result
     = map (errorOf data) (filter (rejected data) updates)
  /\ fst (MockTOSModel.bulkUpdate data updates)
     = fold_left applyUpdate updates data
  /\ (forall before u after,
        updates = before ++ u :: after ->
        rejected data u = true ->
        fst (MockTOSModel.bulkUpdate data updates)
        = fst (MockTOSModel.bulkUpdate data (before ++ after))
        /\ MockTOSModel.successful result
           = MockTOSModel.successful
               (snd (MockTOSModel.bulkUpdate data (before ++ after)))).
Proof.
  unfold MockTOSModel.bulkUpdate. cbv zeta.
  rewrite (bulkLoop_spec data updates data _ eq_refl). simpl.
  pose proof (filter_length (accepted data) updates) as Hlen.
  change (fun u => negb (accepted data u)) with (rejected data) in Hlen.
  split; [lia|]. split; [reflexivity|].
  split; [now rewrite length_map|]. split; [reflexivity|].
  split; [reflexivity|].
  intros before u after -> Hrej.
  unfold rejected in Hrej. apply negb_true_iff in Hrej.
  rewrite (bulkLoop_spec data _ data _ eq_refl). simpl. split.
  - rewrite !fold_left_app. simpl. f_equal.
    set (d := fold_left applyUpdate before data).
    assert (Hd : map ID d = map ID data) by apply fold_applyUpdate_IDs.
    rewrite <- (accepted_IDs d data u Hd) in Hrej.
    unfold applyUpdate.
    now rewrite (updateRecord_rejected d u Hrej).
  - rewrite !filter_app. simpl. now rewrite Hrej.
Qed.

Lemma bulkUpdate_partial_failure_witness :
  snd (MockTOSModel.bulkUpdate SAMPLE_TOS_DATA mixedUpdates)
  = MockTOSModel.mkBulkResult 2 2
      [ (1, "Invalid field: DATE");
        (77, "Record with ID 77 not found") ]%string.
Proof.
  pose proof (bulkUpdate_partial_failure SAMPLE_TOS_DATA mixedUpdates) as H.
  cbv zeta in H. destruct H as (_ & Hs & Hf & He & _).
  destruct (snd (MockTOSModel.bulkUpdate SAMPLE_TOS_DATA mixedUpdates))
    as [s f e].
  simpl in Hs, Hf, He. subst e. subst s. subst f. reflexivity.
Defined.

(** * Further properties of the client store *)

(** ** The [tosRecords] store *)

Lemma sameKey_ID (k : Z) (r : TOSRecord) :
  sameKey ID Z.compare k r = (k =? ID r).
Proof.
  unfold sameKey. rewrite Z.eqb_compare.
  destruct (Z.compare k (ID r)); reflexivity.
Qed.

Lemma storeGet_ID_found (k : Z) (s : list TOSRecord) (r : TOSRecord) :
  storeGet ID Z.compare k s = Some r -> In r s /\ ID r = k.
Proof.
  unfold storeGet. intros H. apply find_some in H.
  rewrite sameKey_ID in H. destruct H as [Hin E].
  apply Z.eqb_eq in E. now split.
Qed.

Lemma storeGet_ID_absent (k : Z) (s : list TOSRecord) :
  storeGet ID Z.compare k s = None <-> forall r, In r s -> ID r <> k.
Proof.
  unfold storeGet. split.
  - intros H r Hr E. pose proof (find_none _ _ H r Hr) as Hk.
    rewrite sameKey_ID in Hk. apply Z.eqb_neq in Hk. congruence.
  - intros H. induction s as [|w s IH]; simpl; [reflexivity|].
    rewrite sameKey_ID.
    destruct (Z.eqb_spec k (ID w)) as [E|_].
    + elim (H w (or_introl eq_refl)). now symmetry.
    + apply IH. intros r Hr. apply H. now right.
Qed.

Lemma storeGet_storePut_same (v : TOSRecord) (s : list TOSRecord) :
  storeGet ID Z.compare (ID v) (storePut ID Z.compare v s) = Some v.
Proof.
  unfold storeGet. induction s as [|w s IH]; simpl.
  - now rewrite sameKey_ID, Z.eqb_refl.
  - destruct (Z.compare_spec (ID v) (ID w)) as [E|E|E]; simpl.
    + now rewrite sameKey_ID, Z.eqb_refl.
    + now rewrite sameKey_ID, Z.eqb_refl.
    + rewrite sameKey_ID.
      destruct (Z.eqb_spec (ID v) (ID w)); [lia | exact IH].
Qed.

Lemma storeGet_storePut_other (k : Z) (v : TOSRecord) (s : list TOSRecord) :
  k <> ID v ->
  storeGet ID Z.compare k (storePut ID Z.compare v s)
  = storeGet ID Z.compare k s.
Proof.
  intros Hk. unfold storeGet.
  assert (Hv : sameKey ID Z.compare k v = false)
    by (rewrite sameKey_ID; now apply Z.eqb_neq).
  induction s as [|w s IH]; simpl.
  - now rewrite Hv.
  - destruct (Z.compare_spec (ID v) (ID w)) as [E|E|E]; simpl.
    + rewrite Hv, sameKey_ID.
      destruct (Z.eqb_spec k (ID w)); [congruence | reflexivity].
    + now rewrite Hv.
    + now rewrite IH.
Qed.

(** In a store in key order, [put] of a key that is present replaces
    the value in place. *)
Lemma storePut_replaces (v r : TOSRecord) (s : list TOSRecord) :
  StronglySorted idBefore s ->
  storeGet ID Z.compare (ID v) s = Some r ->
  storePut ID Z.compare v s
  = map (fun x => if ID x =? ID v then v else x) s.
Proof.
  intros Hs. revert r. induction Hs as [|w s Hs IH Hall]; intros r Hget.
  - discriminate.
  - unfold storeGet in Hget. simpl in Hget. rewrite sameKey_ID in Hget.
    rewrite Forall_forall in Hall. simpl.
    destruct (Z.compare_spec (ID v) (ID w)) as [E|E|E].
    + rewrite E, Z.eqb_refl. f_equal.
      rewrite <- (map_id s) at 1. apply map_ext_in.
      intros x Hx. specialize (Hall x Hx). unfold idBefore in Hall.
      destruct (Z.eqb_spec (ID x) (ID w)); [lia | reflexivity].
    + destruct (Z.eqb_spec (ID v) (ID w)); [lia|].
      apply (storeGet_ID_found (ID v) s r) in Hget.
      destruct Hget as [Hin Er]. specialize (Hall r Hin).
      unfold idBefore in Hall. lia.
    + destruct (Z.eqb_spec (ID v) (ID w)); [lia|].
      destruct (Z.eqb_spec (ID w) (ID v)); [lia|].
      f_equal. now apply (IH r).
Qed.

Lemma setField_ID (f : MutableField) (v : string) (r : TOSRecord) :
  ID (setField f v r) = ID r.
Proof. now destruct f. Qed.

Lemma setField_STOCK_ID (f : MutableField) (v : string) (r : TOSRecord) :
  STOCK_ID (setField f v r) = STOCK_ID r.
Proof. now destruct f. Qed.

Lemma setField_CONTRACTOR (f : MutableField) (v : string) (r : TOSRecord) :
  CONTRACTOR (setField f v r) = CONTRACTOR r.
Proof. now destruct f. Qed.

Lemma getField_setField (f : MutableField) (v : string) (r : TOSRecord) :
  getField f (setField f v r) = v.
Proof. now destruct f. Qed.

Lemma map_preserves_sorted (g : TOSRecord -> TOSRecord)
      (s : list TOSRecord) :
  (forall r, ID (g r) = ID r) ->
  StronglySorted idBefore s -> StronglySorted idBefore (map g s).
Proof.
  intros Hg. induction 1 as [|w s Hs IH Hall]; simpl; constructor.
  - exact IH.
  - rewrite Forall_forall in Hall |- *. intros x Hx.
    apply in_map_iff in Hx. destruct Hx as [y [<- Hy]].
    unfold idBefore. rewrite !Hg. now apply Hall.
Qed.

(** What a successful [updateRecord] did, store by store. *)
Lemma updateRecord_inversion (db db' : TOSDatabase.t) (id : Z)
      (field : MutableField) (newValue : string) (now now' : Z) :
  TOSDatabase.updateRecord db id field newValue now now' = (db', inr tt) ->
  exists record,
    storeGet ID Z.compare id (TOSDatabase.tosRecords db) = Some record
    /\ ID record = id
    /\ TOSDatabase.tosRecords db'
       = storePut ID Z.compare (setField field newValue record)
                  (TOSDatabase.tosRecords db)
    /\ storeGet pu_id String.compare (TOSDatabase.pendingId id field now)
                (TOSDatabase.pendingUpdates db) = None
    /\ TOSDatabase.pendingUpdates db'
       = storePut pu_id String.compare
           (mkPendingUpdate (TOSDatabase.pendingId id field now) id field
                            (getField field record) newValue now' false)
           (TOSDatabase.pendingUpdates db).
Proof.
  unfold TOSDatabase.updateRecord, storeAdd.
  destruct (storeGet ID Z.compare id (TOSDatabase.tosRecords db))
    as [record|] eqn:Eg; [|discriminate].
  simpl pu_id.
  destruct (storeGet pu_id String.compare (TOSDatabase.pendingId id field now)
                     (TOSDatabase.pendingUpdates db)) eqn:E; [discriminate|].
  intros H. injection H as <-. exists record. simpl.
  repeat split. now apply storeGet_ID_found in Eg.
Qed.

(** X1: an edit is visible at once: after a successful [updateRecord]
    the store answers the edited record with the new value in the
    field, its other field as before, and every other id as before. *)
Theorem updateRecord_read_your_write (db db' : TOSDatabase.t) (id : Z)
        (field : MutableField) (newValue : string) (now now' : Z) :
  TOSDatabase.updateRecord db id field newValue now now' = (db', inr tt) ->
  exists record updated,
    storeGet ID Z.compare id (TOSDatabase.tosRecords db) = Some record
    /\ storeGet ID Z.compare id (TOSDatabase.tosRecords db') = Some updated
    /\ updated = setField field newValue record
    /\ getField field updated = newValue
    /\ (forall other, other <> field ->
          getField other updated = getField other record)
    /\ (forall id', id' <> id ->
          storeGet ID Z.compare id' (TOSDatabase.tosRecords db')
          = storeGet ID Z.compare id' (TOSDatabase.tosRecords db)).
Proof.
  intros H.
  destruct (updateRecord_inversion _ _ _ _ _ _ _ H)
    as (record & Hget & Hid & Hrec & _ & _).
  exists record, (setField field newValue record).
  split; [exact Hget|]. rewrite Hrec.
  split.
  - rewrite <- Hid at 1. rewrite <- (setField_ID field newValue record).
    apply storeGet_storePut_same.
  - split; [reflexivity|]. split; [apply getField_setField|]. split.
    + intros other Ho. destruct other, field; try reflexivity; now elim Ho.
    + intros id' Hne. apply storeGet_storePut_other.
      rewrite setField_ID. congruence.
Qed.

Lemma updateRecord_read_your_write_witness :
  exists record updated,
    storeGet ID Z.compare 2 (TOSDatabase.tosRecords twoRecordDb)
    = Some record
    /\ storeGet ID Z.compare 2
         (TOSDatabase.tosRecords
            (fst (TOSDatabase.updateRecord twoRecordDb 2 SHIFT_field
                    "Night Shift" 1000 1000)))
       = Some updated
    /\ SHIFT updated = "Night Shift"%string.
Proof.
  destruct (updateRecord_read_your_write twoRecordDb
              (fst (TOSDatabase.updateRecord twoRecordDb 2 SHIFT_field
                      "Night Shift" 1000 1000))
              2 SHIFT_field "Night Shift" 1000 1000 eq_refl)
    as (record & updated & H1 & H2 & _ & H4 & _).
  exists record, updated. repeat split; assumption.
Defined.

(** X2: a successful [updateRecord] logs the edit: the queue gains
    exactly one entry, which holds the record id, the field, the value
    the field had and the value it got, the second clock reading, and is
    not synced; every entry queued before is still there. *)
Theorem updateRecord_logs_edit (db db' : TOSDatabase.t) (id : Z)
        (field : MutableField) (newValue : string) (now now' : Z) :
  TOSDatabase.updateRecord db id field newValue now now' = (db', inr tt) ->
  exists record,
    storeGet ID Z.compare id (TOSDatabase.tosRecords db) = Some record
    /\ Permutation
         (TOSDatabase.getPendingUpdates db')
         (mkPendingUpdate (TOSDatabase.pendingId id field now) id field
                          (getField field record) newValue now' false
          :: TOSDatabase.getPendingUpdates db).
Proof.
  intros H.
  destruct (updateRecord_inversion _ _ _ _ _ _ _ H)
    as (record & Hget & _ & _ & Hfresh & Hp).
  exists record. split; [exact Hget|].
  unfold TOSDatabase.getPendingUpdates, storeGetAll. rewrite Hp.
  now apply storePut_fresh_perm.
Qed.

Lemma updateRecord_logs_edit_witness :
  exists record,
    storeGet ID Z.compare 10 (TOSDatabase.tosRecords twoRecordDb)
    = Some record
    /\ Permutation
         (TOSDatabase.getPendingUpdates
            (fst (TOSDatabase.updateRecord twoRecordDb 10 STOCK_STATUS_field
                    "Full" 1001 1002)))
         [mkPendingUpdate "10-STOCK_STATUS-1001" 10 STOCK_STATUS_field
                          (STOCK_STATUS record) "Full" 1002 false].
Proof.
  exact (updateRecord_logs_edit twoRecordDb
           (fst (TOSDatabase.updateRecord twoRecordDb 10 STOCK_STATUS_field
                   "Full" 1001 1002))
           10 STOCK_STATUS_field "Full" 1001 1002 eq_refl).
Defined.

(** X3: the outcomes of [updateRecord]: 'Record not found' exactly when
    no record has the id; otherwise a [ConstraintError] exactly when the
    generated key is already queued; otherwise success.  A rejected call
    leaves both stores as they were. *)
Theorem updateRecord_outcomes (db : TOSDatabase.t) (id : Z)
        (field : MutableField) (newValue : string) (now now' : Z) :
  let result := TOSDatabase.updateRecord db id field newValue now now' in
  let present := exists r, In r (TOSDatabase.tosRecords db) /\ ID r = id in
  let queued := In (TOSDatabase.pendingId id field now)
                   (map pu_id (TOSDatabase.getPendingUpdates db)) in
  match snd result with
  | inl (TOSDatabase.Error message) =>
      message = "Record not found"%string /\ ~ present /\ fst result = db
  | inl TOSDatabase.ConstraintError =>
      present /\ queued /\ fst result = db
  | inr _ => present /\ ~ queued
  end.
Proof.
  cbv zeta. unfold TOSDatabase.updateRecord, storeAdd,
    TOSDatabase.getPendingUpdates, storeGetAll.
  destruct (storeGet ID Z.compare id (TOSDatabase.tosRecords db))
    as [record|] eqn:Eg.
  - apply storeGet_ID_found in Eg.
    assert (Hp : exists r, In r (TOSDatabase.tosRecords db) /\ ID r = id)
      by (exists record; exact Eg).
    simpl pu_id.
    destruct (storeGet pu_id String.compare
                (TOSDatabase.pendingId id field now)
                (TOSDatabase.pendingUpdates db)) as [q|] eqn:E; simpl.
    + split; [exact Hp|]. split; [|reflexivity].
      unfold storeGet in E. apply find_some in E.
      rewrite sameKey_pu_id in E. destruct E as [Hq E].
      apply String.eqb_eq in E. apply in_map_iff. now exists q.
    + split; [exact Hp|]. rewrite storeGet_absent in E.
      intros Hin. apply in_map_iff in Hin.
      destruct Hin as [q [Eq Hq]]. exact (E q Hq Eq).
  - simpl. split; [reflexivity|]. split; [|reflexivity].
    rewrite storeGet_ID_absent in Eg. intros [r [Hr E]]. exact (Eg r Hr E).
Qed.

(** Key order of the pending updates survives a removal. *)
Lemma storeDelete_sorted (k : string) (s : list PendingUpdate) :
  StronglySorted keyBefore s ->
  StronglySorted keyBefore (storeDelete pu_id String.compare k s).
Proof.
  unfold storeDelete. induction 1 as [|w s Hs IH Hall]; simpl.
  - constructor.
  - destruct (negb (sameKey pu_id String.compare k w)); [|exact IH].
    constructor; [exact IH|].
    rewrite Forall_forall in Hall |- *. intros x Hx.
    apply filter_In in Hx. now apply Hall.
Qed.

(** X4: key order is an invariant of the client store: [updateRecord],
    accepted or rejected, and [clearPendingUpdate] keep both object
    stores in ascending key order, and neither adds, removes or renumbers
    a record. *)
Theorem keyOrdered_preserved (db : TOSDatabase.t) :
  keyOrdered db ->
  (forall id field newValue now now',
     let db' := fst (TOSDatabase.updateRecord db id field newValue now now') in
     keyOrdered db'
     /\ map ID (TOSDatabase.tosRecords db')
        = map ID (TOSDatabase.tosRecords db))
  /\ (forall key,
        let db' := fst (TOSDatabase.clearPendingUpdate db key) in
        keyOrdered db'
        /\ TOSDatabase.tosRecords db' = TOSDatabase.tosRecords db).
Proof.
  intros [Hrec Hpend]. split.
  - intros id field newValue now now'. cbv zeta.
    destruct (TOSDatabase.updateRecord db id field newValue now now')
      as [db' [e|[]]] eqn:Eu.
    + pose proof (updateRecord_outcomes db id field newValue now now') as Ho.
      cbv zeta in Ho. rewrite Eu in Ho. simpl in Ho |- *.
      assert (db' = db) as -> by (destruct e; tauto).
      split; [now split | reflexivity].
    + destruct (updateRecord_inversion _ _ _ _ _ _ _ Eu)
        as (record & Hget & Hid & Hr & Hfresh & Hp).
      simpl fst.
      assert (Hrep : TOSDatabase.tosRecords db'
                     = map (fun x => if ID x =? id
                                     then setField field newValue record
                                     else x)
                           (TOSDatabase.tosRecords db)).
      { rewrite Hr.
        rewrite (storePut_replaces (setField field newValue record) record);
          [|exact Hrec | now rewrite setField_ID, Hid].
        apply map_ext. intros x. now rewrite setField_ID, Hid. }
      assert (Hids : forall x,
                 ID (if ID x =? id then setField field newValue record else x)
                 = ID x).
      { intros x. destruct (Z.eqb_spec (ID x) id) as [E|_]; [|reflexivity].
        rewrite setField_ID. congruence. }
      split; [split|].
      * rewrite Hrep. now apply map_preserves_sorted.
      * rewrite Hp. now apply storePut_fresh_sorted.
      * rewrite Hrep, map_map. now apply map_ext.
  - intros key. cbv zeta. simpl. split; [split|reflexivity].
    + exact Hrec.
    + now apply storeDelete_sorted.
Qed.

Lemma keyOrdered_preserved_witness :
  keyOrdered (fst (TOSDatabase.updateRecord twoRecordDb 2 SHIFT_field
                     "Night Shift" 1000 1000)).
Proof.
  refine (proj1 (proj1 (keyOrdered_preserved twoRecordDb _)
                   2 SHIFT_field "Night Shift"%string 1000 1000)).
  split.
  - repeat constructor.
  - constructor.
Defined.

(** Removing a key just put, which was not there before, undoes the
    [put]. *)
Lemma storeDelete_storePut_fresh (p : PendingUpdate)
      (s : list PendingUpdate) :
  (forall q, In q s -> pu_id q <> pu_id p) ->
  storeDelete pu_id String.compare (pu_id p)
              (storePut pu_id String.compare p s) = s.
Proof.
  unfold storeDelete. induction s as [|w s IH]; intros Hfresh; simpl.
  - now rewrite sameKey_pu_id, String.eqb_refl.
  - assert (Hw : sameKey pu_id String.compare (pu_id p) w = false).
    { rewrite sameKey_pu_id. apply String.eqb_neq.
      apply Hfresh. now left. }
    assert (Hs : forall q, In q s -> pu_id q <> pu_id p)
      by (intros q Hq; apply Hfresh; now right).
    destruct (String.compare (pu_id p) (pu_id w)) eqn:E; simpl.
    + apply String.compare_eq_iff in E.
      elim (Hfresh w (or_introl eq_refl)). now symmetry.
    + rewrite sameKey_pu_id, String.eqb_refl, Hw. simpl. f_equal.
      apply filter_all. intros q Hq.
      rewrite sameKey_pu_id. apply negb_true_iff, String.eqb_neq.
      now apply Hs.
    + rewrite Hw. simpl. f_equal. now apply IH.
Qed.

(** X5: clearing the entry an edit has just queued puts the queue back
    as it was and keeps the edit: the record still has the new value. *)
Theorem clearPendingUpdate_after_updateRecord (db db' : TOSDatabase.t)
        (id : Z) (field : MutableField) (newValue : string) (now now' : Z) :
  TOSDatabase.updateRecord db id field newValue now now' = (db', inr tt) ->
  let cleared :=
    fst (TOSDatabase.clearPendingUpdate db'
           (TOSDatabase.pendingId id field now)) in
  TOSDatabase.getPendingUpdates cleared = TOSDatabase.getPendingUpdates db
  /\ TOSDatabase.tosRecords cleared = TOSDatabase.tosRecords db'.
Proof.
  intros H. cbv zeta.
  destruct (updateRecord_inversion _ _ _ _ _ _ _ H)
    as (record & _ & _ & _ & Hfresh & Hp).
  unfold TOSDatabase.clearPendingUpdate, TOSDatabase.getPendingUpdates,
    storeGetAll. simpl. split; [|reflexivity].
  rewrite Hp. rewrite storeGet_absent in Hfresh.
  now apply (storeDelete_storePut_fresh
               (mkPendingUpdate (TOSDatabase.pendingId id field now) id field
                                (getField field record) newValue now' false)).
Qed.

Lemma clearPendingUpdate_after_updateRecord_witness :
  TOSDatabase.getPendingUpdates
    (fst (TOSDatabase.clearPendingUpdate
            (fst (TOSDatabase.updateRecord twoRecordDb 2 SHIFT_field
                    "Night Shift" 1000 1000))
            "2-SHIFT-1000"))
  = [].
Proof.
  exact (proj1 (clearPendingUpdate_after_updateRecord twoRecordDb
                  (fst (TOSDatabase.updateRecord twoRecordDb 2 SHIFT_field
                          "Night Shift" 1000 1000))
                  2 SHIFT_field "Night Shift" 1000 1000 eq_refl)).
Defined.

Lemma idBefore_unique (s : list TOSRecord) (a b : TOSRecord) :
  StronglySorted idBefore s -> In a s -> In b s -> ID a = ID b -> a = b.
Proof.
  induction 1 as [|w s Hs IH Hall]; intros Ha Hb E; [elim Ha|].
  rewrite Forall_forall in Hall. unfold idBefore in Hall.
  destruct Ha as [<-|Ha], Hb as [<-|Hb].
  - reflexivity.
  - specialize (Hall b Hb). lia.
  - specialize (Hall a Ha). lia.
  - now apply IH.
Qed.

(** In a store in key order a successful edit rewrites the one record
    with the id, in place. *)
Lemma updateRecord_records (db db' : TOSDatabase.t) (id : Z)
      (field : MutableField) (newValue : string) (now now' : Z) :
  StronglySorted idBefore (TOSDatabase.tosRecords db) ->
  TOSDatabase.updateRecord db id field newValue now now' = (db', inr tt) ->
  TOSDatabase.tosRecords db'
  = map (fun x => if ID x =? id then setField field newValue x else x)
        (TOSDatabase.tosRecords db).
Proof.
  intros Hs H.
  destruct (updateRecord_inversion _ _ _ _ _ _ _ H)
    as (record & Hget & Hid & Hr & _ & _).
  rewrite Hr.
  rewrite (storePut_replaces (setField field newValue record) record);
    [|exact Hs | now rewrite setField_ID, Hid].
  apply map_ext_in. intros x Hx. rewrite setField_ID, Hid.
  destruct (Z.eqb_spec (ID x) id) as [E|_]; [|reflexivity].
  apply storeGet_ID_found in Hget. destruct Hget as [Hin _].
  now rewrite (idBefore_unique _ x record Hs Hx Hin) by congruence.
Qed.

(** X6: the view's copy follows the store: after a successful edit of
    a store in key order, the records of the store are the
    [updatedRecords] that [handleUpdateConfirm] computes from the records
    before. *)
Theorem updatedRecords_mirror_store (db db' : TOSDatabase.t)
        (editingRecord : TOSRecord) (editField : MutableField)
        (editValue : string) (now now' : Z) :
  keyOrdered db ->
  TOSDatabase.updateRecord db (ID editingRecord) editField editValue now now'
  = (db', inr tt) ->
  TOSDatabase.getAllRecords db'
  = TOSManager.updatedRecords (TOSDatabase.getAllRecords db)
      editingRecord editField editValue.
Proof.
  intros [Hs _] H.
  unfold TOSDatabase.getAllRecords, storeGetAll, TOSManager.updatedRecords.
  now apply (updateRecord_records db db' _ _ _ now now').
Qed.

Lemma updatedRecords_mirror_store_witness :
  TOSDatabase.getAllRecords
    (fst (TOSDatabase.updateRecord twoRecordDb 10 SHIFT_field
            "Night Shift" 1000 1000))
  = TOSManager.updatedRecords (TOSDatabase.getAllRecords twoRecordDb)
      (sampleRecord 10 "South Pit" "BB.2") SHIFT_field "Night Shift".
Proof.
  apply (updatedRecords_mirror_store twoRecordDb _
           (sampleRecord 10 "South Pit" "BB.2") SHIFT_field
           "Night Shift" 1000 1000).
  - split; repeat constructor.
  - reflexivity.
Defined.

Lemma filter_map_commute {A B : Type} (g : A -> B) (f : B -> bool)
      (l : list A) :
  filter f (map g l) = map g (filter (fun x => f (g x)) l).
Proof.
  induction l as [|x l IH]; simpl; [reflexivity|].
  rewrite IH. now destruct (f (g x)).
Qed.

(** The search reads the identifier and the contractor only. *)
Lemma priority_reads (query : string) (r r' : TOSRecord) :
  STOCK_ID r' = STOCK_ID r -> CONTRACTOR r' = CONTRACTOR r ->
  TOSDatabase.priority query r' = TOSDatabase.priority query r.
Proof. intros Hs Hc. unfold TOSDatabase.priority. now rewrite Hs, Hc. Qed.

Lemma searchRecords_map (localeCompare : string -> string -> Z)
      (g : TOSRecord -> TOSRecord)
      (recs : list TOSRecord) (p p' : list PendingUpdate)
      (stockId : string) :
  (forall r, STOCK_ID (g r) = STOCK_ID r) ->
  (forall r, CONTRACTOR (g r) = CONTRACTOR r) ->
  TOSDatabase.searchRecords localeCompare
    (TOSDatabase.mk (map g recs) p') stockId
  = map g (TOSDatabase.searchRecords localeCompare
             (TOSDatabase.mk recs p) stockId).
Proof.
  intros Hs Hc.
  destruct (String.eqb_spec (trim stockId) EmptyString) as [E|E].
  - unfold TOSDatabase.searchRecords, truthy. rewrite E. reflexivity.
  - rewrite !searchRecords_ranked by exact E.
    unfold TOSDatabase.getAllRecords, storeGetAll. simpl.
    set (query := trim (toLowerCase stockId)).
    rewrite filter_map_commute, sort_map. f_equal.
    rewrite (filter_ext (fun x => 0 <? TOSDatabase.priority query (g x))
                        (fun x => 0 <? TOSDatabase.priority query x))
      by (intros x; now rewrite (priority_reads query x (g x))).
    apply sort_ext. intros a b _ _.
    unfold compareRanked, TOSDatabase.compareResults. simpl.
    now rewrite !(priority_reads query _ (g _)), !Hs by auto.
Qed.

(** X7: editing the shift or the status of a record changes neither
    which records a search finds nor their order: the search after a
    successful edit returns the results of the search before it, the
    edited record in its new state. *)
Theorem searchRecords_after_updateRecord
        (localeCompare : string -> string -> Z)
        (db db' : TOSDatabase.t) (id : Z) (field : MutableField)
        (newValue : string) (now now' : Z) (stockId : string) :
  keyOrdered db ->
  TOSDatabase.updateRecord db id field newValue now now' = (db', inr tt) ->
  TOSDatabase.searchRecords localeCompare db' stockId
  = map (fun x => if ID x =? id then setField field newValue x else x)
        (TOSDatabase.searchRecords localeCompare db stockId)
  /\ map ID (TOSDatabase.searchRecords localeCompare db' stockId)
     = map ID (TOSDatabase.searchRecords localeCompare db stockId).
Proof.
  intros [Hs _] H.
  set (g := fun x => if ID x =? id then setField field newValue x else x).
  assert (Hg : TOSDatabase.searchRecords localeCompare db' stockId
               = map g (TOSDatabase.searchRecords localeCompare db stockId)).
  { pose proof (updateRecord_records db db' _ _ _ _ _ Hs H) as Hr.
    fold g in Hr. destruct db as [recs p], db' as [recs' p'].
    simpl in Hr. subst recs'.
    apply searchRecords_map; intros r; unfold g;
      destruct (ID r =? id); auto using setField_STOCK_ID,
        setField_CONTRACTOR. }
  split; [exact Hg|].
  rewrite Hg, map_map. apply map_ext. intros x. unfold g.
  destruct (ID x =? id); [apply setField_ID | reflexivity].
Qed.

Lemma searchRecords_after_updateRecord_witness :
  map ID (TOSDatabase.searchRecords codeUnitCompare
            (fst (TOSDatabase.updateRecord twoRecordDb 10 SHIFT_field
                    "Night Shift" 1000 1000)) "pit")
  = map ID (TOSDatabase.searchRecords codeUnitCompare twoRecordDb "pit").
Proof.
  refine (proj2 (searchRecords_after_updateRecord codeUnitCompare
                   twoRecordDb _ 10 SHIFT_field "Night Shift" 1000 1000
                   "pit" _ eq_refl)).
  split; repeat constructor.
Defined.

(** ** The background sync *)

Lemma removeFromIndexedDB_fold (l : list PendingUpdate) :
  forall db,
    let db' := fold_left (fun d update =>
                            ServiceWorker.removeFromIndexedDB d (pu_id update))
                         l db in
    TOSDatabase.tosRecords db' = TOSDatabase.tosRecords db
    /\ forall p, In p (TOSDatabase.pendingUpdates db') ->
                 In p (TOSDatabase.pendingUpdates db)
                 /\ forall u, In u l -> pu_id u <> pu_id p.
Proof.
  induction l as [|u l IH]; intros db; cbv zeta; simpl.
  - split; [reflexivity|]. intros p Hp. split; [exact Hp | intros u []].
  - destruct (IH (ServiceWorker.removeFromIndexedDB db (pu_id u)))
      as [Hr Hp].
    split; [exact Hr|].
    intros p Hin. destruct (Hp p Hin) as [Hin' Hl].
    unfold ServiceWorker.removeFromIndexedDB, storeDelete in Hin'.
    simpl in Hin'. apply filter_In in Hin'. destruct Hin' as [Hin' Hk].
    rewrite sameKey_pu_id in Hk.
    apply negb_true_iff, String.eqb_neq in Hk.
    split; [exact Hin'|].
    intros v [<-|Hv]; [congruence | now apply Hl].
Qed.

(** X8: the background sync empties the queue of pending updates and
    leaves the records alone. *)
Theorem syncData_drains_queue (db : TOSDatabase.t) :
  TOSDatabase.getPendingUpdates (ServiceWorker.syncData db) = []
  /\ TOSDatabase.tosRecords (ServiceWorker.syncData db)
     = TOSDatabase.tosRecords db.
Proof.
  unfold ServiceWorker.syncData, ServiceWorker.getFromIndexedDB,
    TOSDatabase.getPendingUpdates, storeGetAll.
  destruct (Z.ltb_spec 0 (Z.of_nat (List.length
                                      (TOSDatabase.pendingUpdates db))))
    as [_|Hz].
  - destruct (removeFromIndexedDB_fold (TOSDatabase.pendingUpdates db) db)
      as [Hr Hp].
    split; [|exact Hr].
    destruct (TOSDatabase.pendingUpdates (fold_left _ _ db)) as [|p s] eqn:E;
      [reflexivity|].
    destruct (Hp p (or_introl eq_refl)) as [Hin Hne].
    elim (Hne p Hin eq_refl).
  - split; [|reflexivity].
    destruct (TOSDatabase.pendingUpdates db); [reflexivity | simpl in Hz; lia].
Qed.

(** * Properties of the suggestion list *)

(** ** The component's distance *)

Lemma countLoop_spec (str1 str2 : string) (fuel i : nat) (distance : Z) :
  EnhancedSearch.countLoop fuel i distance str1 str2
  = distance
    + Z.of_nat (List.length
                  (filter (fun j => strictNe (String.get j str1)
                                             (String.get j str2))
                          (seq i fuel))).
Proof.
  revert i distance. induction fuel as [|fuel IH]; intros i distance.
  - simpl. lia.
  - cbn [EnhancedSearch.countLoop seq filter]. rewrite IH.
    destruct (strictNe (String.get i str1) (String.get i str2));
      cbn [List.length]; lia.
Qed.

Lemma strictNe_sym (a b : option ascii) : strictNe a b = strictNe b a.
Proof.
  destruct a as [x|], b as [y|]; simpl; try reflexivity.
  now rewrite Ascii.eqb_sym.
Qed.

Lemma hammingDistance_sym (s1 s2 : string) :
  hammingDistance s1 s2 = hammingDistance s2 s1.
Proof.
  unfold hammingDistance. cbv zeta. rewrite Nat.max_comm.
  do 2 f_equal. apply filter_ext. intros i. apply strictNe_sym.
Qed.

Lemma component_distance_hamming (s1 s2 : string) :
  EnhancedSearch.calculateSimpleDistance s1 s2 = hammingDistance s1 s2.
Proof.
  unfold EnhancedSearch.calculateSimpleDistance. cbv zeta.
  destruct (len s1 <? len s2).
  - rewrite countLoop_spec, Z.add_0_l. apply (hammingDistance_sym s2 s1).
  - now rewrite countLoop_spec, Z.add_0_l.
Qed.

Lemma get_ext (s1 s2 : string) :
  (forall i, String.get i s1 = String.get i s2) -> s1 = s2.
Proof.
  revert s2. induction s1 as [|c s1 IH]; intros [|d s2] H.
  - reflexivity.
  - specialize (H 0%nat). discriminate.
  - specialize (H 0%nat). discriminate.
  - pose proof (H 0%nat) as H0. simpl in H0. injection H0 as <-.
    f_equal. apply IH. intros i. exact (H (S i)).
Qed.

Lemma filter_nil_all {A : Type} (f : A -> bool) (l : list A) :
  filter f l = [] -> forall x, In x l -> f x = false.
Proof.
  induction l as [|y l IH]; intros H x Hx; [elim Hx|].
  simpl in H. destruct (f y) eqn:E; [discriminate|].
  destruct Hx as [<-|Hx]; [exact E | now apply IH].
Qed.

Lemma hammingDistance_zero (s1 s2 : string) :
  hammingDistance s1 s2 = 0 <-> s1 = s2.
Proof.
  split.
  - intros H. pose proof (hammingDistance_length_gap s1 s2) as Hgap.
    assert (Hlen : String.length s1 = String.length s2)
      by (unfold len in Hgap; lia).
    unfold hammingDistance in H. cbv zeta in H.
    rewrite <- Hlen, Nat.max_id in H.
    assert (Hnil : filter (fun i => strictNe (String.get i s1)
                                             (String.get i s2))
                          (seq 0 (String.length s1)) = [])
      by (apply length_zero_iff_nil; lia).
    apply get_ext. intros i.
    destruct (Nat.lt_ge_cases i (String.length s1)) as [Hi|Hi].
    + pose proof (filter_nil_all _ _ Hnil i) as Hf.
      specialize (Hf ltac:(apply in_seq; lia)). simpl in Hf.
      destruct (String.get i s1) as [x|], (String.get i s2) as [y|];
        simpl in Hf; try discriminate; [|reflexivity].
      apply negb_false_iff, Ascii.eqb_eq in Hf. now subst y.
    + now rewrite !get_beyond by lia.
  - intros <-. unfold hammingDistance. cbv zeta.
    rewrite Nat.max_id.
    replace (filter _ _) with (@nil nat); [reflexivity|].
    symmetry. induction (seq 0 (String.length s1)) as [|i l IH];
      [reflexivity|].
    simpl. rewrite IH.
    destruct (String.get i s1); simpl; [|reflexivity].
    now rewrite Ascii.eqb_refl.
Qed.

(** X9: the distance of the suggestion list is the count of the
    positions at which the two strings differ: symmetric, zero exactly
    on equal strings, at least the difference of the lengths; and the
    distance of the store's search is that count capped: the same value
    up to 2, and 99 above. *)
Theorem component_distance_properties (s1 s2 : string) :
  EnhancedSearch.calculateSimpleDistance s1 s2 = hammingDistance s1 s2
  /\ EnhancedSearch.calculateSimpleDistance s1 s2
     = EnhancedSearch.calculateSimpleDistance s2 s1
  /\ (EnhancedSearch.calculateSimpleDistance s1 s2 = 0 <-> s1 = s2)
  /\ Z.abs (len s1 - len s2) <= EnhancedSearch.calculateSimpleDistance s1 s2
  /\ TOSDatabase.calculateSimpleDistance s1 s2
     = (if EnhancedSearch.calculateSimpleDistance s1 s2 <=? 2
        then EnhancedSearch.calculateSimpleDistance s1 s2 else 99).
Proof.
  rewrite !component_distance_hamming.
  split; [reflexivity|]. split; [apply hammingDistance_sym|].
  split; [apply hammingDistance_zero|].
  split; [apply hammingDistance_length_gap|].
  apply calculateSimpleDistance_spec.
Qed.

(** ** The suggestions and the store's search *)

Lemma isWhiteSpace_lowerUnit (c : ascii) :
  isWhiteSpace (lowerUnit c) = isWhiteSpace c.
Proof.
  destruct c as [[] [] [] [] [] [] [] []]; reflexivity.
Qed.

Lemma trimStart_toLowerCase (s : string) :
  trimStart (toLowerCase s) = toLowerCase (trimStart s).
Proof.
  induction s as [|c s IH]; simpl; [reflexivity|].
  rewrite isWhiteSpace_lowerUnit.
  destruct (isWhiteSpace c); [exact IH | reflexivity].
Qed.

Lemma trimEnd_toLowerCase (s : string) :
  trimEnd (toLowerCase s) = toLowerCase (trimEnd s).
Proof.
  induction s as [|c s IH]; simpl; [reflexivity|].
  rewrite IH, isWhiteSpace_lowerUnit.
  destruct (trimEnd s); simpl; [|reflexivity].
  now destruct (isWhiteSpace c).
Qed.

Lemma trim_toLowerCase (s : string) :
  trim (toLowerCase s) = toLowerCase (trim s).
Proof.
  unfold trim. now rewrite trimStart_toLowerCase, trimEnd_toLowerCase.
Qed.

Lemma slice_prefix {A : Type} (l : list A) (n : Z) :
  0 <= n -> slice l 0 n = firstn (Z.to_nat n) l.
Proof.
  intros Hn. unfold slice. change (0 <? 0) with false. cbv iota.
  destruct (Z.ltb_spec n 0); [lia|].
  rewrite (Z.min_l 0) by lia. rewrite Z.sub_0_r.
  change (Z.to_nat 0) with 0%nat. simpl skipn.
  replace (Z.to_nat (Z.min n (Z.of_nat (List.length l))))
    with (Nat.min (Z.to_nat n) (List.length l)) by lia.
  apply firstn_length_min.
Qed.

Lemma component_priority (query : string) (r : TOSRecord) :
  2 < len query ->
  EnhancedSearch.priority query r = TOSDatabase.priority query r.
Proof.
  intros Hq. unfold EnhancedSearch.priority, TOSDatabase.priority.
  rewrite component_distance_hamming, fuzzy_test.
  apply Z.ltb_lt in Hq. rewrite Hq, andb_true_r. reflexivity.
Qed.

(** X10: for a value of more than two code units once trimmed, the
    suggestions are the first 8 results of the store's search over the
    same records. *)
Theorem searchResults_top_of_search
        (localeCompare : string -> string -> Z)
        (records : list TOSRecord) (pending : list PendingUpdate)
        (value : string) :
  2 < len (trim value) ->
  EnhancedSearch.searchResults localeCompare records value
  = firstn 8 (TOSDatabase.searchRecords localeCompare
                (TOSDatabase.mk records pending) value).
Proof.
  intros Hq.
  assert (Hne : trim value <> EmptyString)
    by (intros E; rewrite E in Hq; unfold len in Hq; simpl in Hq; lia).
  assert (Hq' : 2 < len (trim (toLowerCase value)))
    by (now rewrite trim_toLowerCase, len_toLowerCase).
  unfold EnhancedSearch.searchResults, TOSDatabase.searchRecords, truthy.
  destruct (String.eqb_spec (trim value) EmptyString) as [E|_];
    [contradiction|].
  cbv zeta. simpl negb. cbv iota.
  rewrite slice_prefix by lia. change (Z.to_nat 8) with 8%nat.
  rewrite firstn_map. do 3 f_equal.
  unfold TOSDatabase.collect, TOSDatabase.getAllRecords, storeGetAll. simpl.
  apply flat_map_ext. intros r.
  now rewrite component_priority.
Qed.

Lemma searchResults_top_of_search_witness :
  EnhancedSearch.searchResults codeUnitCompare SAMPLE_TOS_DATA " 5348 "
  = firstn 8 (TOSDatabase.searchRecords codeUnitCompare sampleDb " 5348 ").
Proof.
  apply (searchResults_top_of_search codeUnitCompare SAMPLE_TOS_DATA []
           " 5348 ").
  vm_compute. reflexivity.
Defined.

(** ** Highlighting the match *)

Lemma substring_whole (s : string) :
  String.substring 0 (String.length s) s = s.
Proof. induction s as [|c s IH]; simpl; [reflexivity | now rewrite IH]. Qed.

Lemma substring_0_0 (s : string) : String.substring 0 0 s = EmptyString.
Proof. now destruct s. Qed.

(** A string is its first [n] code units, the next [m], and the rest. *)
Lemma substring_parts (s : string) :
  forall n m, (n + m <= String.length s)%nat ->
    s = (String.substring 0 n s
         ++ String.substring n m s
         ++ String.substring (n + m) (String.length s - (n + m)) s)%string.
Proof.
  induction s as [|c s IH]; intros n m H; simpl in H.
  - assert (n = 0%nat) as -> by lia. assert (m = 0%nat) as -> by lia.
    reflexivity.
  - destruct n as [|n].
    + destruct m as [|m].
      * simpl. now rewrite substring_whole.
      * simpl. f_equal.
        pose proof (IH 0%nat m ltac:(lia)) as E.
        rewrite substring_0_0 in E. exact E.
    + simpl. f_equal. apply (IH n m). lia.
Qed.

Lemma substring_toLowerCase (s : string) :
  forall n m,
    toLowerCase (String.substring n m s)
    = String.substring n m (toLowerCase s).
Proof.
  induction s as [|c s IH]; intros [|n] [|m]; simpl; try reflexivity.
  - now rewrite IH.
  - apply IH.
  - apply IH.
Qed.

Lemma prefix_length (q s : string) :
  String.prefix q s = true -> (String.length q <= String.length s)%nat.
Proof.
  revert s. induction q as [|c q IH]; intros [|d s] H; simpl in *;
    try lia; try discriminate.
  destruct (ascii_dec c d); [|discriminate].
  specialize (IH s H). lia.
Qed.

Lemma indexOfFrom_found (q : string) (s : string) :
  forall i, 0 <= i -> JsText.indexOfFrom s q i <> -1 ->
    exists n,
      JsText.indexOfFrom s q i = i + Z.of_nat n
      /\ (n + String.length q <= String.length s)%nat
      /\ String.substring n (String.length q) s = q.
Proof.
  induction s as [|c s IH]; intros i Hi Hfound;
    cbn [JsText.indexOfFrom] in Hfound |- *.
  - destruct (String.prefix q EmptyString) eqn:Ep; [|now elim Hfound].
    exists 0%nat. split; [lia|].
    split; [apply (prefix_length _ _ Ep) | now apply prefix_correct].
  - destruct (String.prefix q (String c s)) eqn:Ep.
    + exists 0%nat. split; [lia|].
      split; [apply (prefix_length _ _ Ep) | now apply prefix_correct].
    + destruct (IH (i + 1) ltac:(lia) Hfound) as (n & E & Hlen & Hsub).
      exists (S n). split; [lia|]. split; [simpl; lia | exact Hsub].
Qed.

Lemma indexOfFrom_includes (q : string) (s : string) :
  forall i, 0 <= i ->
    (JsText.indexOfFrom s q i = -1 <-> includes s q = false).
Proof.
  induction s as [|c s IH]; intros i Hi;
    cbn [JsText.indexOfFrom includes].
  - destruct (String.prefix q EmptyString); simpl.
    + split; [lia | discriminate].
    + tauto.
  - destruct (String.prefix q (String c s)); simpl.
    + split; [lia | discriminate].
    + apply IH. lia.
Qed.

(** [substring] with its clamping written out, for indices that are not
    negative. *)
Lemma JsText_substring_clamped (s : string) (a b : Z) :
  0 <= a <= b ->
  JsText.substring s a b
  = String.substring
      (Nat.min (Z.to_nat a) (String.length s))
      (Nat.min (Z.to_nat b) (String.length s)
       - Nat.min (Z.to_nat a) (String.length s)) s.
Proof.
  intros Hab. unfold JsText.substring, len. cbv zeta.
  rewrite !Z.max_l by lia.
  f_equal; lia.
Qed.

Lemma JsText_substring_rest (s : string) (a : Z) :
  0 <= a ->
  JsText.substring s a (len s)
  = String.substring
      (Nat.min (Z.to_nat a) (String.length s))
      (String.length s - Nat.min (Z.to_nat a) (String.length s)) s.
Proof.
  intros Ha. unfold JsText.substring, len. cbv zeta.
  rewrite (Z.max_l a), (Z.max_l (Z.of_nat (String.length s))) by lia.
  f_equal; lia.
Qed.

Lemma substring_0_length (s : string) (k : nat) :
  (k <= String.length s)%nat -> String.length (String.substring 0 k s) = k.
Proof.
  revert k. induction s as [|c s IH]; intros [|k] Hk; simpl in *;
    try reflexivity; try lia.
  rewrite IH by lia. reflexivity.
Qed.

Lemma substring_length_le (s : string) :
  forall n m, (String.length (String.substring n m s) <= m)%nat.
Proof.
  induction s as [|c s IH]; intros [|n] [|m]; simpl; try lia.
  - specialize (IH 0%nat m). lia.
  - apply IH.
  - apply IH.
Qed.

(** X11: [highlightMatch] cuts the text, and loses none of it. It finds
    the index in the lower-cased text and cuts the text itself there:
    when the trimmed query is not empty and occurs in the lower-cased
    text, the three pieces put together are the text, and the first has
    as many code units as the index, or the whole text if that is
    shorter; otherwise the text is returned as it is. Where lower-casing
    acts on the text code unit by code unit and keeps the length of the
    query, the first piece ends at the index and the middle one is the
    query up to case. *)
Theorem highlightMatch_pieces (text query : string) :
  match EnhancedSearch.highlightMatch text query with
  | inl t =>
      t = text
      /\ (trim query = EmptyString
          \/ includes (toLowerCase text) (toLowerCase query) = false)
  | inr (before, matched, after) =>
      trim query <> EmptyString
      /\ includes (toLowerCase text) (toLowerCase query) = true
      /\ text = (before ++ matched ++ after)%string
      /\ len before
         = Z.min (JsText.indexOf (toLowerCase text) (toLowerCase query))
                 (len text)
      /\ ((forall n m,
              toLowerCase (String.substring n m text)
              = String.substring n m (toLowerCase text)) ->
          len (toLowerCase query) = len query ->
          len before = JsText.indexOf (toLowerCase text) (toLowerCase query)
          /\ toLowerCase matched = toLowerCase query)
  end.
Proof.
  unfold EnhancedSearch.highlightMatch, truthy.
  destruct (String.eqb_spec (trim query) EmptyString) as [E|E]; simpl.
  - split; [reflexivity | now left].
  - unfold JsText.indexOf.
    pose proof (indexOfFrom_includes (toLowerCase query) (toLowerCase text)
                  0 (Z.le_refl 0)) as Hinc.
    destruct (Z.eqb_spec (JsText.indexOfFrom (toLowerCase text)
                            (toLowerCase query) 0) (-1)) as [Hm|Hm].
    + split; [reflexivity | right; now apply Hinc].
    + destruct (indexOfFrom_found (toLowerCase query) (toLowerCase text)
                  0 (Z.le_refl 0) Hm) as (n & Hn & Hlen & Hsub).
      rewrite Hn, Z.add_0_l.
      assert (Hq : len query = Z.of_nat (String.length query))
        by reflexivity.
      rewrite JsText_substring_clamped by lia.
      rewrite JsText_substring_clamped by lia.
      rewrite JsText_substring_rest by lia.
      rewrite Hq, <- Nat2Z.inj_add, !Nat2Z.id.
      change (Z.to_nat 0) with 0%nat. rewrite Nat.min_0_l, Nat.sub_0_r.
      set (L := String.length text).
      set (i := Nat.min n L).
      set (j := Nat.min (n + String.length query) L).
      assert (Hij : (i <= j <= L)%nat) by (unfold i, j; lia).
      split; [exact E|]. split; [|split; [|split]].
      * destruct (includes (toLowerCase text) (toLowerCase query)) eqn:Ei;
          [reflexivity|]. elim Hm. now apply Hinc.
      * pose proof (substring_parts text i (j - i) ltac:(fold L; lia)) as Hp.
        fold L in Hp.
        replace (i + (j - i))%nat with j in Hp by lia.
        exact Hp.
      * unfold len. rewrite substring_0_length by (fold L; lia).
        fold L. unfold i. lia.
      * intros Hunits Hquery.
        assert (Hlq : String.length (toLowerCase query)
                      = String.length query)
          by (unfold len in Hquery; lia).
        assert (Hlt : (String.length (toLowerCase text) <= L)%nat).
        { pose proof (Hunits 0%nat L) as Hu. unfold L in Hu.
          rewrite substring_whole in Hu. rewrite Hu at 1.
          apply substring_length_le. }
        assert (Hi : i = n) by (unfold i; lia).
        assert (Hj : (j - i)%nat = String.length query)
          by (unfold i, j; lia).
        rewrite Hj, Hi. split.
        -- unfold len. rewrite substring_0_length by (fold L; lia).
           reflexivity.
        -- rewrite Hunits, <- Hlq. exact Hsub.
Qed.

(** The identifier of the first sample record and a query in another
    case: lower-casing acts on both code unit by code unit. *)
Lemma highlightMatch_pieces_witness :
  EnhancedSearch.highlightMatch "BB.D.5348" "d.53"
  = inr ("BB."%string, "D.53"%string, "48"%string)
  /\ toLowerCase "D.53" = toLowerCase "d.53".
Proof.
  split; [reflexivity|].
  pose proof (highlightMatch_pieces "BB.D.5348" "d.53") as H.
  change (EnhancedSearch.highlightMatch "BB.D.5348" "d.53")
    with (@inr string _ ("BB."%string, "D.53"%string, "48"%string)) in H.
  destruct H as (_ & _ & _ & _ & H).
  apply H; [apply substring_toLowerCase | reflexivity].
Defined.

(** ** The search history *)

Lemma firstn_In {A : Type} (n : nat) (l : list A) (x : A) :
  In x (firstn n l) -> In x l.
Proof.
  intros H. rewrite <- (firstn_skipn n l). apply in_or_app. now left.
Qed.

Lemma NoDup_firstn {A : Type} (n : nat) (l : list A) :
  NoDup l -> NoDup (firstn n l).
Proof.
  intros H. rewrite <- (firstn_skipn n l) in H.
  now apply NoDup_app_remove_r in H.
Qed.

Lemma handleSearch_unfold (value : string) (searchHistory : list string) :
  trim value <> EmptyString ->
  EnhancedSearch.handleSearch value searchHistory
  = value :: firstn 4 (filter (fun h => negb (String.eqb h value))
                              searchHistory).
Proof.
  intros Hv. unfold EnhancedSearch.handleSearch, truthy.
  destruct (String.eqb_spec (trim value) EmptyString); [contradiction|].
  simpl negb. cbv iota. rewrite slice_prefix by lia. reflexivity.
Qed.

(** X12: searching a non-blank value puts it at the head of the search
    history, followed by the earlier entries other than it, in their
    order, as far as five entries go; a history without repetitions
    stays without, and searching the same value again changes nothing. *)
Theorem handleSearch_history (value : string)
        (searchHistory : list string) :
  trim value <> EmptyString ->
  let history := EnhancedSearch.handleSearch value searchHistory in
  history
  = value :: firstn 4 (filter (fun h => negb (String.eqb h value))
                              searchHistory)
  /\ (List.length history <= 5)%nat
  /\ (forall h, In h history -> h = value \/ In h searchHistory)
  /\ (NoDup searchHistory -> NoDup history)
  /\ EnhancedSearch.handleSearch value history = history.
Proof.
  intros Hv. cbv zeta. rewrite !handleSearch_unfold by exact Hv.
  set (others := filter (fun h => negb (String.eqb h value)) searchHistory).
  assert (Hothers : forall h, In h others -> h <> value /\ In h searchHistory).
  { intros h Hh. apply filter_In in Hh. destruct Hh as [Hin Hne].
    apply negb_true_iff, String.eqb_neq in Hne. now split. }
  split; [reflexivity|]. split.
  - cbn [List.length]. pose proof (firstn_le_length 4 others). lia.
  - split.
    + intros h [<-|Hh]; [now left|]. right.
      now apply firstn_In, Hothers in Hh.
    + split.
      * intros Hnd. constructor.
        -- intros Hin. apply firstn_In, Hothers in Hin. now destruct Hin.
        -- apply NoDup_firstn. now apply NoDup_filter.
      * f_equal. cbn [filter]. rewrite String.eqb_refl. cbn [negb].
        rewrite filter_all.
        -- rewrite firstn_firstn. reflexivity.
        -- intros h Hh. apply firstn_In, Hothers in Hh.
           apply negb_true_iff, String.eqb_neq. now destruct Hh.
Qed.

Lemma handleSearch_history_witness :
  EnhancedSearch.handleSearch "5348"
    ["BB.D"; "5348"; "AA"; "CC"; "DD"; "EE"]%string
  = ["5348"; "BB.D"; "AA"; "CC"; "DD"]%string.
Proof.
  refine (proj1 (handleSearch_history "5348"
                   ["BB.D"; "5348"; "AA"; "CC"; "DD"; "EE"]%string _)).
  vm_compute. discriminate.
Defined.

(** * Properties of the selection *)

Section SetFacts.
Context {A : Type} (eqb : A -> A -> bool).
Hypothesis eqb_eq : forall x y, eqb x y = true <-> x = y.

Lemma setHas_In (s : list A) (x : A) : setHas eqb s x = true <-> In x s.
Proof.
  unfold setHas. rewrite existsb_exists. split.
  - intros [y [Hy E]]. apply eqb_eq in E. now subst y.
  - intros H. exists x. split; [exact H | now apply eqb_eq].
Qed.

Lemma setAdd_In (s : list A) (x y : A) :
  In y (setAdd eqb s x) <-> y = x \/ In y s.
Proof.
  unfold setAdd. destruct (setHas eqb s x) eqn:E.
  - apply setHas_In in E. split; [now right|].
    intros [->|H]; assumption.
  - rewrite in_app_iff. simpl. intuition congruence.
Qed.

Lemma setAdd_NoDup (s : list A) (x : A) :
  NoDup s -> NoDup (setAdd eqb s x).
Proof.
  intros H. unfold setAdd. destruct (setHas eqb s x) eqn:E; [exact H|].
  assert (Hx : ~ In x s).
  { intros Hin. apply setHas_In in Hin. congruence. }
  apply NoDup_app; [exact H | repeat constructor; intros [] |].
  intros y Hy [<-|[]]. contradiction.
Qed.

Lemma setDelete_In (s : list A) (x y : A) :
  In y (setDelete eqb s x) <-> In y s /\ y <> x.
Proof.
  unfold setDelete. rewrite filter_In, negb_true_iff.
  apply and_iff_compat_l. split.
  - intros E ->. assert (eqb x x = true) by now apply eqb_eq. congruence.
  - intros Hne. destruct (eqb x y) eqn:E; [|reflexivity].
    apply eqb_eq in E. congruence.
Qed.

Lemma setFrom_fold (l : list A) :
  forall acc,
    NoDup acc ->
    NoDup (fold_left (setAdd eqb) l acc)
    /\ forall y, In y (fold_left (setAdd eqb) l acc) <-> In y acc \/ In y l.
Proof.
  induction l as [|x l IH]; intros acc Hacc; simpl.
  - split; [exact Hacc | intros y; tauto].
  - destruct (IH (setAdd eqb acc x) (setAdd_NoDup acc x Hacc)) as [Hnd Hin].
    split; [exact Hnd|].
    intros y. rewrite Hin, setAdd_In. intuition congruence.
Qed.

Lemma setFrom_spec (l : list A) :
  NoDup (setFrom eqb l) /\ forall y, In y (setFrom eqb l) <-> In y l.
Proof.
  destruct (setFrom_fold l [] (NoDup_nil A)) as [Hnd Hin].
  split; [exact Hnd|]. intros y. rewrite (Hin y). simpl. tauto.
Qed.

End SetFacts.

(** X13: [toggleRecord] flips the membership of the one record id and
    of no other, and keeps the selection free of repetitions; its size
    goes up or down by one. *)
Theorem toggleRecord_flips_one (selectedRecords : list Z) (recordId : Z) :
  NoDup selectedRecords ->
  let selection := BulkOperations.toggleRecord selectedRecords recordId in
  NoDup selection
  /\ (In recordId selection <-> ~ In recordId selectedRecords)
  /\ (forall id, id <> recordId ->
        (In id selection <-> In id selectedRecords))
  /\ Z.of_nat (List.length selection)
     = Z.of_nat (List.length selectedRecords)
       + (if setHas Z.eqb selectedRecords recordId then -1 else 1).
Proof.
  intros Hnd. cbv zeta. unfold BulkOperations.toggleRecord.
  destruct (setHas Z.eqb selectedRecords recordId) eqn:E.
  - apply (setHas_In Z.eqb Z.eqb_eq) in E.
    split; [now apply NoDup_filter|]. split; [|split].
    + rewrite (setDelete_In Z.eqb Z.eqb_eq). tauto.
    + intros id Hne. rewrite (setDelete_In Z.eqb Z.eqb_eq). tauto.
    + unfold setDelete.
      assert (Hlen : Nat.add
                       (List.length
                          (filter (fun y => negb (recordId =? y))
                                  selectedRecords)) 1
                     = List.length selectedRecords); [|lia].
      induction Hnd as [|x s Hx Hnd IH]; [elim E|].
      cbn [filter List.length].
      destruct (Z.eqb_spec recordId x) as [->|Hne]; cbn [negb List.length].
      * rewrite filter_all; [lia|].
        intros y Hy. apply negb_true_iff, Z.eqb_neq. congruence.
      * destruct E as [->|E]; [now elim Hne|].
        specialize (IH E). lia.
  - assert (Hx : ~ In recordId selectedRecords).
    { intros Hin. apply (setHas_In Z.eqb Z.eqb_eq) in Hin. congruence. }
    split; [now apply (setAdd_NoDup Z.eqb Z.eqb_eq)|]. split; [|split].
    + rewrite (setAdd_In Z.eqb Z.eqb_eq). tauto.
    + intros id Hne. rewrite (setAdd_In Z.eqb Z.eqb_eq). tauto.
    + unfold setAdd. rewrite E, length_app. simpl. lia.
Qed.

Lemma toggleRecord_flips_one_witness :
  NoDup (BulkOperations.toggleRecord [1; 2; 3] 2)
  /\ ~ In 2 (BulkOperations.toggleRecord [1; 2; 3] 2).
Proof.
  assert (Hnd : NoDup [1; 2; 3]).
  { repeat constructor; simpl; intuition discriminate. }
  destruct (toggleRecord_flips_one [1; 2; 3] 2 Hnd) as (H1 & H2 & _).
  split; [exact H1|]. intros Hin. apply H2 in Hin. apply Hin. simpl. tauto.
Defined.

(** X14: [toggleSelectAll] selects nothing when as many ids are selected
    as there are records, and otherwise selects the ids of the records,
    once each; the records then exported are all the records. *)
Theorem toggleSelectAll_all_or_nothing (records : list TOSRecord)
        (selectedRecords : list Z) :
  let selection :=
    BulkOperations.toggleSelectAll records selectedRecords in
  (List.length selectedRecords = List.length records -> selection = [])
  /\ (List.length selectedRecords <> List.length records ->
      NoDup selection
      /\ (forall id, In id selection <-> exists r, In r records /\ ID r = id)
      /\ BulkOperations.selectedData records selection = records).
Proof.
  cbv zeta. unfold BulkOperations.toggleSelectAll. split.
  - intros E. rewrite E, Z.eqb_refl. reflexivity.
  - intros Hne.
    destruct (Z.eqb_spec (Z.of_nat (List.length selectedRecords))
                         (Z.of_nat (List.length records))); [lia|].
    destruct (setFrom_spec Z.eqb Z.eqb_eq (map ID records)) as [Hnd Hin].
    split; [exact Hnd|]. split.
    + intros id. rewrite Hin, in_map_iff.
      split; intros [r [H1 H2]]; exists r; now split.
    + unfold BulkOperations.selectedData. apply filter_all.
      intros r Hr. apply (setHas_In Z.eqb Z.eqb_eq), Hin. now apply in_map.
Qed.

Lemma toggleSelectAll_all_or_nothing_witness :
  BulkOperations.selectedData SAMPLE_TOS_DATA
    (BulkOperations.toggleSelectAll SAMPLE_TOS_DATA [3])
  = SAMPLE_TOS_DATA.
Proof.
  refine (proj2 (proj2 (proj2
    (toggleSelectAll_all_or_nothing SAMPLE_TOS_DATA [3]) _))).
  simpl. discriminate.
Defined.

(** * Further properties of the server's in-memory model *)

(** ** Lists in order *)

Lemma filter_Permutation {A : Type} (f : A -> bool) (l l' : list A) :
  Permutation l l' -> Permutation (filter f l) (filter f l').
Proof.
  induction 1 as [|x l l' H IH|x y l|l l' l'' H1 IH1 H2 IH2]; simpl.
  - constructor.
  - destruct (f x); [now constructor | exact IH].
  - destruct (f x), (f y); try apply Permutation_refl. apply perm_swap.
  - eapply Permutation_trans; eassumption.
Qed.

Lemma filter_filter {A : Type} (f g : A -> bool) (l : list A) :
  filter f (filter g l) = filter (fun x => g x && f x) l.
Proof.
  induction l as [|x l IH]; simpl; [reflexivity|].
  destruct (g x); simpl; [|exact IH].
  destruct (f x); now rewrite IH.
Qed.

Section SortedSublists.
Context {A : Type} (R : A -> A -> Prop).

Lemma StronglySorted_filter (f : A -> bool) (l : list A) :
  StronglySorted R l -> StronglySorted R (filter f l).
Proof.
  induction 1 as [|x l Hs IH Hall]; simpl; [constructor|].
  destruct (f x); [|exact IH].
  constructor; [exact IH|].
  rewrite Forall_forall in Hall |- *. intros y Hy.
  apply filter_In in Hy. now apply Hall.
Qed.

Lemma StronglySorted_skipn (n : nat) (l : list A) :
  StronglySorted R l -> StronglySorted R (skipn n l).
Proof.
  revert l. induction n as [|n IH]; intros l Hs; [exact Hs|].
  destruct l as [|x l]; [constructor|].
  simpl. apply IH. now inversion Hs.
Qed.

Lemma StronglySorted_firstn (n : nat) (l : list A) :
  StronglySorted R l -> StronglySorted R (firstn n l).
Proof.
  revert l. induction n as [|n IH]; intros l Hs; [constructor|].
  destruct l as [|x l]; [constructor|].
  simpl. inversion Hs as [|? ? Hs' Hall]; subst.
  constructor; [now apply IH|].
  rewrite Forall_forall in Hall |- *. intros y Hy.
  apply Hall. now apply firstn_In in Hy.
Qed.

Lemma StronglySorted_slice (l : list A) (start finish : Z) :
  StronglySorted R l -> StronglySorted R (slice l start finish).
Proof.
  intros Hs. unfold slice.
  now apply StronglySorted_firstn, StronglySorted_skipn.
Qed.

End SortedSublists.

Lemma slice_In {A : Type} (l : list A) (start finish : Z) (x : A) :
  In x (slice l start finish) -> In x l.
Proof.
  unfold slice. intros H. apply firstn_In in H.
  rewrite <- (firstn_skipn (Z.to_nat
    (if start <? 0 then Z.max (Z.of_nat (List.length l) + start) 0
     else Z.min start (Z.of_nat (List.length l)))) l).
  apply in_or_app. now right.
Qed.

(** A page of nonnegative offset and limit. *)
Lemma slice_page {A : Type} (l : list A) (offset limit : Z) :
  0 <= offset -> 0 <= limit ->
  slice l offset (offset + limit)
  = firstn (Z.to_nat limit) (skipn (Z.to_nat offset) l).
Proof.
  intros Ho Hl. unfold slice.
  destruct (Z.ltb_spec offset 0); [lia|].
  destruct (Z.ltb_spec (offset + limit) 0); [lia|].
  set (n := Z.of_nat (List.length l)).
  destruct (Z.le_gt_cases offset n) as [Hon|Hon].
  - rewrite (Z.min_l offset) by lia.
    destruct (Z.le_gt_cases (offset + limit) n) as [Hln|Hln].
    + rewrite Z.min_l by lia. f_equal. lia.
    + rewrite Z.min_r by lia.
      rewrite (firstn_all2 (n := Z.to_nat limit))
        by (rewrite length_skipn; subst n; lia).
      apply firstn_all2. rewrite length_skipn. subst n. lia.
  - rewrite !Z.min_r by lia.
    rewrite !skipn_all2 by (subst n; lia).
    now rewrite !firstn_nil.
Qed.

(** ** The ranking of the server's search *)

Lemma compareRelevance_relevanceBefore (searchTerm : string)
      (a b : TOSRecord) :
  MockTOSModel.compareRelevance searchTerm a b <= 0
  <-> relevanceBefore searchTerm a b.
Proof.
  unfold MockTOSModel.compareRelevance, relevanceBefore, relevanceClass,
    startsWith.
  pose proof (prefix_refl searchTerm) as Hrefl.
  destruct (String.eqb_spec (toLowerCase (STOCK_ID a)) searchTerm) as [Ea|Ea];
    destruct (String.eqb_spec (toLowerCase (STOCK_ID b)) searchTerm)
      as [Eb|Eb];
    destruct (String.prefix searchTerm (toLowerCase (STOCK_ID a))) eqn:Pa;
    destruct (String.prefix searchTerm (toLowerCase (STOCK_ID b))) eqn:Pb;
    try (rewrite Ea in Pa; congruence);
    try (rewrite Eb in Pb; congruence);
    simpl; try rewrite Ea; try rewrite Eb; lia.
Qed.

Lemma relevanceBefore_total (searchTerm : string) (a b : TOSRecord) :
  relevanceBefore searchTerm a b \/ relevanceBefore searchTerm b a.
Proof. unfold relevanceBefore. lia. Qed.

Lemma relevanceBefore_trans (searchTerm : string) (a b c : TOSRecord) :
  relevanceBefore searchTerm a b -> relevanceBefore searchTerm b c ->
  relevanceBefore searchTerm a c.
Proof. unfold relevanceBefore. lia. Qed.

Lemma sort_relevance (searchTerm : string) (l : list TOSRecord) :
  StronglySorted (relevanceBefore searchTerm)
                 (sort (MockTOSModel.compareRelevance searchTerm) l).
Proof.
  apply Sorted_StronglySorted.
  - intros a b c. apply relevanceBefore_trans.
  - pose proof (sort_sorted (MockTOSModel.compareRelevance searchTerm))
      as Hs.
    cbv zeta in Hs.
    assert (Htot : forall a b,
               MockTOSModel.compareRelevance searchTerm a b <= 0
               \/ MockTOSModel.compareRelevance searchTerm b a <= 0).
    { intros a b. rewrite !compareRelevance_relevanceBefore.
      apply relevanceBefore_total. }
    specialize (Hs Htot l).
    induction Hs as [|x s Hs IH Hhd]; constructor; [exact IH|].
    destruct Hhd as [|y s Hxy]; constructor.
    now apply compareRelevance_relevanceBefore.
Qed.

(** The server's search, stage by stage: the results before the page is
    cut are the records that satisfy the term and the filters, ranked
    when there is a term. *)
Lemma mock_searchRecords_stages (data : MockTOSModel.t) (query : string)
      (filters : MockTOSModel.Filters) :
  exists results,
    Permutation results (filter (satisfies query filters) data)
    /\ (truthy query && truthy (trim query) = true ->
        StronglySorted (relevanceBefore (toLowerCase query)) results)
    /\ (truthy query && truthy (trim query) = false ->
        results = filter (satisfies query filters) data)
    /\ MockTOSModel.searchRecords data query filters
       = MockTOSModel.mkSearchResult
           (map (fun r => (r, Z.of_nat (List.length results)))
                (slice results
                       (MockTOSModel.orDefault (MockTOSModel.offset filters) 0)
                       (MockTOSModel.orDefault (MockTOSModel.offset filters) 0
                        + MockTOSModel.orDefault
                            (MockTOSModel.limit filters) 50)))
           (Z.of_nat (List.length results)).
Proof.
  unfold MockTOSModel.searchRecords, satisfies.
  set (c := fun record : TOSRecord =>
              match MockTOSModel.contractor filters with
              | Some c => String.eqb (CONTRACTOR record) c
              | None => false
              end).
  set (s := fun record : TOSRecord =>
              match MockTOSModel.status filters with
              | Some s => String.eqb (STOCK_STATUS record) s
              | None => false
              end).
  set (fc := fun r =>
              if MockTOSModel.truthyOpt (MockTOSModel.contractor filters)
              then c r else true).
  set (fs := fun r => if MockTOSModel.truthyOpt (MockTOSModel.status filters)
                      then s r else true).
  assert (Hc : forall l,
             (if MockTOSModel.truthyOpt (MockTOSModel.contractor filters)
              then filter c l else l) = filter fc l).
  { intros l. subst fc.
    destruct (MockTOSModel.truthyOpt (MockTOSModel.contractor filters));
      [reflexivity | now rewrite filter_true]. }
  assert (Hs : forall l,
             (if MockTOSModel.truthyOpt (MockTOSModel.status filters)
              then filter s l else l) = filter fs l).
  { intros l. subst fs.
    destruct (MockTOSModel.truthyOpt (MockTOSModel.status filters));
      [reflexivity | now rewrite filter_true]. }
  cbv zeta. rewrite Hc, Hs.
  destruct (truthy query && truthy (trim query)) eqn:Eq.
  - eexists. split; [|split; [|split; [discriminate | reflexivity]]].
    + rewrite (filter_ext (fun r => MockTOSModel.matches (toLowerCase query) r
                                    && fc r && fs r)
                          (fun r => (MockTOSModel.matches (toLowerCase query) r
                                     && fc r) && fs r))
        by reflexivity.
      rewrite <- !filter_filter.
      apply filter_Permutation, filter_Permutation, sort_perm.
    + intros _.
      apply StronglySorted_filter, StronglySorted_filter, sort_relevance.
  - eexists. split; [|split; [discriminate | split; [|reflexivity]]].
    + rewrite filter_filter.
      erewrite filter_ext; [apply Permutation_refl|].
      intros r. reflexivity.
    + intros _. rewrite filter_filter. apply filter_ext.
      intros r. reflexivity.
Qed.

Lemma truthy_trim (query : string) :
  truthy query && truthy (trim query) = truthy (trim query).
Proof.
  unfold truthy. destruct (String.eqb_spec query EmptyString) as [->|_];
    reflexivity.
Qed.

(** X15: what the server's search returns: [total] counts the records
    of the data that satisfy the search term and the filters; every
    record returned is one of them and carries that total; a page has at
    most [limit] records; and the first page holds them all when they
    fit in. *)
Theorem mock_searchRecords_sound (data : MockTOSModel.t) (query : string)
        (filters : MockTOSModel.Filters) :
  let result := MockTOSModel.searchRecords data query filters in
  let limit := MockTOSModel.orDefault (MockTOSModel.limit filters) 50 in
  let offset := MockTOSModel.orDefault (MockTOSModel.offset filters) 0 in
  MockTOSModel.total result
  = Z.of_nat (List.length (filter (satisfies query filters) data))
  /\ (forall r count, In (r, count) (MockTOSModel.records result) ->
        count = MockTOSModel.total result
        /\ In r data /\ satisfies query filters r = true)
  /\ (0 <= offset -> 0 <= limit ->
      Z.of_nat (List.length (MockTOSModel.records result)) <= limit)
  /\ (offset = 0 -> MockTOSModel.total result <= limit ->
      Permutation (map fst (MockTOSModel.records result))
                  (filter (satisfies query filters) data)).
Proof.
  cbv zeta.
  destruct (mock_searchRecords_stages data query filters)
    as (results & Hperm & _ & _ & ->).
  simpl.
  split; [now rewrite (Permutation_length Hperm)|]. split; [|split].
  - intros r count Hin. apply in_map_iff in Hin.
    destruct Hin as [x [E Hx]]. injection E as -> <-.
    split; [reflexivity|].
    apply slice_In in Hx. apply (Permutation_in _ Hperm) in Hx.
    now apply filter_In in Hx.
  - intros Ho Hl. rewrite length_map, slice_page by assumption.
    pose proof (firstn_le_length
                  (Z.to_nat (MockTOSModel.orDefault
                               (MockTOSModel.limit filters) 50))
                  (skipn (Z.to_nat (MockTOSModel.orDefault
                                      (MockTOSModel.offset filters) 0))
                         results)).
    lia.
  - intros Ho Hl. rewrite Ho, map_map. simpl. rewrite map_id.
    rewrite slice_prefix by lia.
    rewrite firstn_all2 by lia. exact Hperm.
Qed.

(** X16: the server's search ranks: for a non-blank query the records
    returned, whatever the filters and the page, have exact matches of
    the stock identifier first, then identifiers that start with the
    term, then the others, each group by ascending identifier length. *)
Theorem mock_searchRecords_ranked_by_relevance
        (data : MockTOSModel.t) (query : string)
        (filters : MockTOSModel.Filters) :
  trim query <> EmptyString ->
  StronglySorted
    (relevanceBefore (toLowerCase query))
    (map fst (MockTOSModel.records
                (MockTOSModel.searchRecords data query filters))).
Proof.
  intros Hq.
  destruct (mock_searchRecords_stages data query filters)
    as (results & _ & Hsorted & _ & ->).
  simpl. rewrite map_map. simpl. rewrite map_id.
  apply StronglySorted_slice, Hsorted.
  rewrite truthy_trim. unfold truthy.
  now destruct (String.eqb_spec (trim query) EmptyString).
Qed.

Lemma mock_searchRecords_ranked_by_relevance_witness :
  StronglySorted
    (relevanceBefore "ab")
    (map fst (MockTOSModel.records
                (MockTOSModel.searchRecords tieredRecords "AB"
                   (MockTOSModel.mkFilters None None (Some 2) None)))).
Proof.
  apply (mock_searchRecords_ranked_by_relevance tieredRecords "AB"
           (MockTOSModel.mkFilters None None (Some 2) None)).
  vm_compute. discriminate.
Defined.

(** X17: the view's filter and the server's search select the same
    records: [filterRecords] keeps, in their order, the records that
    satisfy the search term and the two filters; their number is the
    server's [total], and every record the server returns is among
    them. *)
Theorem filterRecords_same_selection (records : list TOSRecord)
        (searchQuery filterContractor filterStatus : string)
        (limit offset : option Z) :
  let filters :=
    MockTOSModel.mkFilters (Some filterContractor) (Some filterStatus)
                           limit offset in
  let filtered :=
    TOSManager.filterRecords records searchQuery filterContractor
                             filterStatus in
  let result := MockTOSModel.searchRecords records searchQuery filters in
  filtered = filter (satisfies searchQuery filters) records
  /\ MockTOSModel.total result = Z.of_nat (List.length filtered)
  /\ (forall r count, In (r, count) (MockTOSModel.records result) ->
        In r filtered).
Proof.
  cbv zeta.
  assert (Hf : TOSManager.filterRecords records searchQuery filterContractor
                 filterStatus
               = filter (satisfies searchQuery
                           (MockTOSModel.mkFilters (Some filterContractor)
                              (Some filterStatus) limit offset))
                        records).
  { unfold TOSManager.filterRecords, satisfies. cbv zeta. simpl.
    rewrite truthy_trim. unfold MockTOSModel.matches.
    destruct (truthy (trim searchQuery)), (truthy filterContractor),
      (truthy filterStatus); rewrite ?filter_filter.
    all: try (apply filter_ext; intros r;
              rewrite ?andb_true_r, ?andb_true_l, ?andb_assoc; reflexivity).
    symmetry. apply filter_all. reflexivity. }
  rewrite Hf.
  pose proof (mock_searchRecords_sound records searchQuery
                (MockTOSModel.mkFilters (Some filterContractor)
                   (Some filterStatus) limit offset)) as Hs.
  cbv zeta in Hs. destruct Hs as (Ht & Hin & _).
  split; [reflexivity|]. split; [exact Ht|].
  intros r count Hr. apply filter_In.
  destruct (Hin r count Hr) as (_ & H1 & H2). now split.
Qed.

(** ** Paging through the data *)

Lemma getAllRecords_page (data : MockTOSModel.t) (limit offset : Z) :
  0 <= offset -> 0 <= limit ->
  map fst (MockTOSModel.records
             (MockTOSModelQueries.getAllRecords data limit offset))
  = firstn (Z.to_nat limit) (skipn (Z.to_nat offset) data).
Proof.
  intros Ho Hl. unfold MockTOSModelQueries.getAllRecords. simpl.
  rewrite map_map. simpl. rewrite map_id. now apply slice_page.
Qed.

(** X18: the pages of [getAllRecords] fit together: for nonnegative
    offset and limits, a page followed by the page that starts where it
    ends is the page of both limits together; every record of a page
    carries the number of records of the data, which is [total]. *)
Theorem getAllRecords_pages_compose (data : MockTOSModel.t)
        (limit limit' offset : Z) :
  0 <= offset -> 0 <= limit -> 0 <= limit' ->
  MockTOSModel.records (MockTOSModelQueries.getAllRecords data limit offset)
  ++ MockTOSModel.records
       (MockTOSModelQueries.getAllRecords data limit' (offset + limit))
  = MockTOSModel.records
      (MockTOSModelQueries.getAllRecords data (limit + limit') offset)
  /\ MockTOSModel.total (MockTOSModelQueries.getAllRecords data limit offset)
     = Z.of_nat (List.length data)
  /\ (forall r count,
        In (r, count)
           (MockTOSModel.records
              (MockTOSModelQueries.getAllRecords data limit offset)) ->
        count = Z.of_nat (List.length data) /\ In r data).
Proof.
  intros Ho Hl Hl'. unfold MockTOSModelQueries.getAllRecords. simpl.
  split; [|split; [reflexivity|]].
  - rewrite <- map_app. f_equal.
    rewrite !slice_page by lia.
    rewrite !Z2Nat.inj_add by lia.
    set (n := Z.to_nat limit). set (m := Z.to_nat limit').
    set (k := Z.to_nat offset).
    rewrite <- (firstn_skipn n (firstn (n + m) (skipn k data))).
    rewrite firstn_firstn, Nat.min_l by lia. f_equal.
    rewrite skipn_firstn_comm, skipn_skipn.
    f_equal; [lia | f_equal; lia].
  - intros r count Hin. apply in_map_iff in Hin.
    destruct Hin as [x [E Hx]]. injection E as -> <-.
    split; [reflexivity | now apply slice_In in Hx].
Qed.

Lemma getAllRecords_pages_compose_witness :
  MockTOSModel.records (MockTOSModelQueries.getAllRecords SAMPLE_TOS_DATA 3 2)
  ++ MockTOSModel.records
       (MockTOSModelQueries.getAllRecords SAMPLE_TOS_DATA 4 (2 + 3))
  = MockTOSModel.records
      (MockTOSModelQueries.getAllRecords SAMPLE_TOS_DATA (3 + 4) 2).
Proof.
  apply (getAllRecords_pages_compose SAMPLE_TOS_DATA 3 4 2); lia.
Defined.

(** X19: the [hasMore] of the listing route says whether records are
    left: for a nonnegative offset and a positive limit it is false
    exactly when the page runs to the end of the data, and when it is
    true the page is full. *)
Theorem getList_hasMore (data : MockTOSModel.t)
        (limitParam offsetParam : option Z) :
  let page := fst (TosRoutes.getList data limitParam offsetParam) in
  let pagination := snd (TosRoutes.getList data limitParam offsetParam) in
  0 <= TosRoutes.offset pagination ->
  0 < TosRoutes.limit pagination ->
  (TosRoutes.hasMore pagination = false
   <-> map fst page = skipn (Z.to_nat (TosRoutes.offset pagination)) data)
  /\ (TosRoutes.hasMore pagination = true ->
      Z.of_nat (List.length page) = TosRoutes.limit pagination)
  /\ TosRoutes.total pagination = Z.of_nat (List.length data).
Proof.
  cbv zeta. unfold TosRoutes.getList. cbv zeta. simpl.
  set (limit := MockTOSModel.orDefault limitParam 50).
  set (offset := MockTOSModel.orDefault offsetParam 0).
  intros Ho Hl.
  rewrite map_map. simpl. rewrite map_id, length_map.
  rewrite slice_page by lia.
  set (rest := skipn (Z.to_nat offset) data).
  assert (Hrest : List.length rest
                  = (List.length data - Z.to_nat offset)%nat)
    by (subst rest; apply length_skipn).
  split; [|split; [|reflexivity]].
  - destruct (Z.ltb_spec (offset + limit) (Z.of_nat (List.length data)))
      as [Hlt|Hge].
    + split; [discriminate|]. intros E.
      apply (f_equal (@List.length TOSRecord)) in E.
      rewrite length_firstn in E. lia.
    + split; [|reflexivity]. intros _. apply firstn_all2. lia.
  - intros Hm. apply Z.ltb_lt in Hm. rewrite length_firstn. lia.
Qed.

Lemma getList_hasMore_witness :
  TosRoutes.hasMore (snd (TosRoutes.getList SAMPLE_TOS_DATA (Some 3) (Some 6)))
  = false
  <-> map fst (fst (TosRoutes.getList SAMPLE_TOS_DATA (Some 3) (Some 6)))
      = skipn 6 SAMPLE_TOS_DATA.
Proof.
  refine (proj1 (getList_hasMore SAMPLE_TOS_DATA (Some 3) (Some 6) _ _)).
  - simpl. lia.
  - simpl. lia.
Defined.

(** ** The lists of contractors and of statuses *)

Lemma sorted_NoDup_strict (l : list string) :
  StronglySorted (fun a b => codeUnitCompare a b <= 0) l ->
  NoDup l -> StronglySorted codeUnitBefore l.
Proof.
  induction 1 as [|x l Hs IH Hall]; intros Hnd; constructor.
  - apply IH. now inversion Hnd.
  - inversion Hnd as [|? ? Hx _]; subst.
    rewrite Forall_forall in Hall |- *. intros y Hy.
    specialize (Hall y Hy). apply codeUnitCompare_le in Hall.
    unfold codeUnitBefore.
    destruct (String.compare x y) eqn:E; [|reflexivity | congruence].
    apply String.compare_eq_iff in E. subst y. contradiction.
Qed.

Lemma distinctSorted_spec (f : TOSRecord -> string)
      (data : MockTOSModel.t) :
  StronglySorted codeUnitBefore (MockTOSModelQueries.distinctSorted f data)
  /\ forall v, In v (MockTOSModelQueries.distinctSorted f data)
               <-> exists r, In r data /\ f r = v.
Proof.
  unfold MockTOSModelQueries.distinctSorted.
  destruct (setFrom_spec String.eqb String.eqb_eq (map f data))
    as [Hnd Hin].
  pose proof (sort_perm codeUnitCompare
                (setFrom String.eqb (map f data))) as Hperm.
  split.
  - apply sorted_NoDup_strict.
    + apply Sorted_StronglySorted.
      * intros a b c. apply codeUnitCompare_trans.
      * apply (sort_sorted codeUnitCompare codeUnitCompare_total).
    + apply (Permutation_NoDup (Permutation_sym Hperm) Hnd).
  - intros v. rewrite sort_In, Hin, in_map_iff.
    split; intros [r [H1 H2]]; exists r; now split.
Qed.

(** X20: [getContractors] and [getStatuses] list the contractors and
    the statuses that occur in the data, each once, in strictly
    ascending code-unit order. *)
Theorem getContractors_getStatuses_distinct (data : MockTOSModel.t) :
  (StronglySorted codeUnitBefore (MockTOSModelQueries.getContractors data)
   /\ forall c, In c (MockTOSModelQueries.getContractors data)
                <-> exists r, In r data /\ CONTRACTOR r = c)
  /\ (StronglySorted codeUnitBefore (MockTOSModelQueries.getStatuses data)
      /\ forall s, In s (MockTOSModelQueries.getStatuses data)
                   <-> exists r, In r data /\ STOCK_STATUS r = s).
Proof. split; apply distinctSorted_spec. Qed.

(** ** Updates of the server's data *)

Lemma findIndex_split (id : Z) (data : MockTOSModel.t) (i : nat) :
  MockTOSModel.findIndex id data = Some i ->
  exists before r after,
    data = before ++ r :: after
    /\ List.length before = i
    /\ ID r = id
    /\ forall x, In x before -> ID x <> id.
Proof.
  revert i. induction data as [|w data IH]; intros i H; simpl in H;
    [discriminate|].
  destruct (Z.eqb_spec (ID w) id) as [E|E].
  - injection H as <-. exists [], w, data.
    repeat split; auto; intros x [].
  - destruct (MockTOSModel.findIndex id data) as [j|]; [|discriminate].
    injection H as <-.
    destruct (IH j eq_refl) as (before & r & after & -> & Hl & Hr & Hb).
    exists (w :: before), r, after.
    repeat split; simpl; auto;
      intros x [<-|Hx]; [exact E | now apply Hb].
Qed.

Lemma assignAt_middle (field value : string)
      (before : list TOSRecord) (r : TOSRecord) (after : list TOSRecord) :
  MockTOSModel.assignAt (List.length before) field value
    (before ++ r :: after)
  = before ++ MockTOSModel.assign field value r :: after.
Proof.
  induction before as [|w before IH]; simpl; [reflexivity | now rewrite IH].
Qed.

(** X21: an accepted update on the server rewrites one record and
    returns it: the first record of the data with the id gets the value
    in the named field, its other fields and all the other records stay
    as they were. *)
Theorem mock_updateRecord_success (data : MockTOSModel.t) (id : Z)
        (field value : string) :
  hasRecord data id = true ->
  In field MockTOSModel.allowedFields ->
  exists before r after updated,
    data = before ++ r :: after
    /\ ID r = id
    /\ (forall x, In x before -> ID x <> id)
    /\ MockTOSModel.updateRecord data id field value
       = (before ++ updated :: after, inr (Some updated))
    /\ updated
       = mkTOSRecord (ID r) (CONTRACTOR r) (DATE r)
           (if String.eqb field "SHIFT" then value else SHIFT r)
           (STOCK_ID r)
           (if String.eqb field "STOCK_STATUS" then value
            else STOCK_STATUS r).
Proof.
  intros Hhas Hfield. apply isAllowed_In in Hfield.
  unfold MockTOSModel.updateRecord.
  destruct (MockTOSModel.findIndex id data) as [i|] eqn:Ei.
  - destruct (findIndex_split id data i Ei)
      as (before & r & after & -> & Hl & Hr & Hb).
    exists before, r, after, (MockTOSModel.assign field value r).
    rewrite Hfield. simpl negb. cbv iota zeta.
    rewrite <- Hl, assignAt_middle.
    rewrite nth_error_app2, Nat.sub_diag by lia. simpl.
    repeat split; auto.
    unfold MockTOSModel.assign, MockTOSModel.isAllowed in *.
    simpl in Hfield.
    destruct (String.eqb_spec field "SHIFT") as [->|_];
      [now destruct r|].
    destruct (String.eqb_spec field "STOCK_STATUS") as [->|_];
      [now destruct r | discriminate].
  - apply findIndex_hasRecord in Ei. congruence.
Qed.

Lemma mock_updateRecord_success_witness :
  exists before r after updated,
    SAMPLE_TOS_DATA = before ++ r :: after
    /\ ID r = 2
    /\ MockTOSModel.updateRecord SAMPLE_TOS_DATA 2 "STOCK_STATUS" "Empty"
       = (before ++ updated :: after, inr (Some updated))
    /\ STOCK_STATUS updated = "Empty"%string.
Proof.
  destruct (mock_updateRecord_success SAMPLE_TOS_DATA 2
              "STOCK_STATUS" "Empty" eq_refl)
    as (before & r & after & updated & H1 & H2 & _ & H4 & H5).
  { simpl. tauto. }
  exists before, r, after, updated.
  repeat split; try assumption. now rewrite H5.
Defined.

(** Whatever a record function does not read of the two mutable fields
    is unchanged by the server's updates. *)
Lemma applyUpdate_frame {B : Type} (g : TOSRecord -> B)
      (data : MockTOSModel.t) (u : MockTOSModel.Update) :
  (forall f v r, g (setField f v r) = g r) ->
  map g (applyUpdate data u) = map g data.
Proof.
  intros Hg. unfold applyUpdate, MockTOSModel.updateRecord.
  destruct (MockTOSModel.findIndex (MockTOSModel.u_id u) data) as [i|];
    [|reflexivity].
  destruct (MockTOSModel.isAllowed (MockTOSModel.u_field u));
    [|reflexivity].
  simpl. revert i. induction data as [|w data IH]; intros [|i]; simpl;
    try reflexivity.
  - f_equal. unfold MockTOSModel.assign.
    destruct (String.eqb (MockTOSModel.u_field u) "SHIFT"); [apply Hg|].
    destruct (String.eqb (MockTOSModel.u_field u) "STOCK_STATUS");
      [apply Hg | reflexivity].
  - f_equal. apply IH.
Qed.

Lemma fold_applyUpdate_frame {B : Type} (g : TOSRecord -> B)
      (updates : list MockTOSModel.Update) :
  (forall f v r, g (setField f v r) = g r) ->
  forall data, map g (fold_left applyUpdate updates data) = map g data.
Proof.
  intros Hg. induction updates as [|u updates IH]; intros data; simpl;
    [reflexivity|].
  now rewrite IH, applyUpdate_frame.
Qed.

(** X22: the server's updates touch the shift and the status only: a
    bulk update, whatever it holds, leaves the id, the contractor, the
    date and the stock identifier of every record as they were, in the
    same order; so the list of contractors is the same after it. *)
Theorem bulkUpdate_keeps_immutable_fields
        (data : MockTOSModel.t) (updates : list MockTOSModel.Update) :
  let data' := fst (MockTOSModel.bulkUpdate data updates) in
  map (fun r => (ID r, CONTRACTOR r, DATE r, STOCK_ID r)) data'
  = map (fun r => (ID r, CONTRACTOR r, DATE r, STOCK_ID r)) data
  /\ MockTOSModelQueries.getContractors data'
     = MockTOSModelQueries.getContractors data.
Proof.
  cbv zeta. unfold MockTOSModel.bulkUpdate.
  rewrite (bulkLoop_spec data updates data _ eq_refl). simpl fst.
  split.
  - apply fold_applyUpdate_frame. now intros [|] v r.
  - unfold MockTOSModelQueries.getContractors,
      MockTOSModelQueries.distinctSorted.
    rewrite (fold_applyUpdate_frame CONTRACTOR); [reflexivity|].
    now intros [|] v r.
Qed.

Lemma findIndex_IDs (id : Z) (d d' : MockTOSModel.t) :
  map ID d = map ID d' ->
  MockTOSModel.findIndex id d = MockTOSModel.findIndex id d'.
Proof.
  revert d'. induction d as [|w d IH]; intros [|w' d'] H; simpl in *;
    try discriminate; [reflexivity|].
  injection H as Hw Hd. rewrite Hw, (IH d' Hd). reflexivity.
Qed.

Lemma assignAt_assignAt (i : nat) (field v1 v2 : string)
      (data : MockTOSModel.t) :
  MockTOSModel.assignAt i field v2 (MockTOSModel.assignAt i field v1 data)
  = MockTOSModel.assignAt i field v2 data.
Proof.
  revert i. induction data as [|w data IH]; intros [|i]; simpl;
    try reflexivity.
  - f_equal. unfold MockTOSModel.assign.
    destruct (String.eqb field "SHIFT"); [reflexivity|].
    destruct (String.eqb field "STOCK_STATUS"); reflexivity.
  - now rewrite IH.
Qed.

Lemma mock_updateRecord_done (data : MockTOSModel.t) (id : Z)
      (field value : string) (i : nat) :
  MockTOSModel.findIndex id data = Some i ->
  MockTOSModel.isAllowed field = true ->
  MockTOSModel.updateRecord data id field value
  = (MockTOSModel.assignAt i field value data,
     inr (nth_error (MockTOSModel.assignAt i field value data) i)).
Proof.
  intros Ei Ea. unfold MockTOSModel.updateRecord. now rewrite Ei, Ea.
Qed.

Lemma mock_updateRecord_refused (data : MockTOSModel.t) (id : Z)
      (field value : string) :
  MockTOSModel.findIndex id data = None
  \/ MockTOSModel.isAllowed field = false ->
  fst (MockTOSModel.updateRecord data id field value) = data.
Proof.
  intros H. unfold MockTOSModel.updateRecord.
  destruct (MockTOSModel.findIndex id data); [|reflexivity].
  destruct H as [H|H]; [discriminate | now rewrite H].
Qed.

(** X23: on the server the last write wins: two updates of the same
    field of the same record leave the data the second one alone would
    leave; in particular an update repeated changes nothing more and
    answers as the first time. *)
Theorem mock_updateRecord_last_write_wins (data : MockTOSModel.t)
        (id : Z) (field v1 v2 : string) :
  fst (MockTOSModel.updateRecord
         (fst (MockTOSModel.updateRecord data id field v1)) id field v2)
  = fst (MockTOSModel.updateRecord data id field v2)
  /\ MockTOSModel.updateRecord
       (fst (MockTOSModel.updateRecord data id field v1)) id field v1
     = MockTOSModel.updateRecord data id field v1.
Proof.
  destruct (MockTOSModel.findIndex id data) as [i|] eqn:Ei;
    [destruct (MockTOSModel.isAllowed field) eqn:Ea|].
  - rewrite !(mock_updateRecord_done data id field _ i Ei Ea). simpl fst.
    assert (Ei' : forall v,
               MockTOSModel.findIndex id
                 (MockTOSModel.assignAt i field v data) = Some i).
    { intros v.
      now rewrite (findIndex_IDs id _ data (assignAt_IDs i field v data)). }
    rewrite !(mock_updateRecord_done _ id field _ i (Ei' v1) Ea).
    rewrite !assignAt_assignAt. now split.
  - rewrite !(mock_updateRecord_refused data id field v1) by now right.
    now split.
  - rewrite !(mock_updateRecord_refused data id field v1) by now left.
    now split.
Qed.

(** X24: a bulk update can be run in two parts: the batch [first ++
    second] leaves the data that [second] leaves when run after [first],
    with the counts of the two runs added and the errors of the second
    after those of the first. *)
Theorem bulkUpdate_append (data : MockTOSModel.t)
        (first second : list MockTOSModel.Update) :
  let whole := MockTOSModel.bulkUpdate data (first ++ second) in
  let run1 := MockTOSModel.bulkUpdate data first in
  let run2 := MockTOSModel.bulkUpdate (fst run1) second in
  fst whole = fst run2
  /\ MockTOSModel.successful (snd whole)
     = MockTOSModel.successful (snd run1)
       + MockTOSModel.successful (snd run2)
  /\ MockTOSModel.failed (snd whole)
     = MockTOSModel.failed (snd run1) + MockTOSModel.failed (snd run2)
  /\ MockTOSModel.errors (snd whole)
     = MockTOSModel.errors (snd run1) ++ MockTOSModel.errors (snd run2).
Proof.
  cbv zeta. unfold MockTOSModel.bulkUpdate.
  rewrite (bulkLoop_spec data (first ++ second) data _ eq_refl).
  rewrite (bulkLoop_spec data first data _ eq_refl).
  simpl fst.
  rewrite (bulkLoop_spec data second (fold_left applyUpdate first data) _
             (fold_applyUpdate_IDs first data)).
  simpl. rewrite fold_left_app, !filter_app, !length_app, map_app.
  repeat split; lia.
Qed.

(** * Edits in a row on the client *)

Lemma updateRecord_pending_perm (db db' : TOSDatabase.t) (id : Z)
      (field : MutableField) (newValue : string) (now now' : Z)
      (record : TOSRecord) :
  TOSDatabase.updateRecord db id field newValue now now' = (db', inr tt) ->
  storeGet ID Z.compare id (TOSDatabase.tosRecords db) = Some record ->
  Permutation
    (TOSDatabase.pendingUpdates db')
    (mkPendingUpdate (TOSDatabase.pendingId id field now) id field
                     (getField field record) newValue now' false
     :: TOSDatabase.pendingUpdates db).
Proof.
  intros H Hget.
  destruct (updateRecord_inversion _ _ _ _ _ _ _ H)
    as (r & Hg & _ & _ & Hfresh & Hp).
  rewrite Hget in Hg. injection Hg as <-.
  rewrite Hp. now apply storePut_fresh_perm.
Qed.

(** X25: edits chain in the log: when the same field of the same
    record is edited twice, the entry queued for the second edit records
    the value of the first as its old value, and the record ends with
    the value of the second. *)
Theorem updateRecord_twice_chains (db db1 db2 : TOSDatabase.t) (id : Z)
        (field : MutableField) (v1 v2 : string) (t1 t1' t2 t2' : Z) :
  TOSDatabase.updateRecord db id field v1 t1 t1' = (db1, inr tt) ->
  TOSDatabase.updateRecord db1 id field v2 t2 t2' = (db2, inr tt) ->
  In (mkPendingUpdate (TOSDatabase.pendingId id field t2) id field
                      v1 v2 t2' false)
     (TOSDatabase.getPendingUpdates db2)
  /\ (exists first,
        In first (TOSDatabase.getPendingUpdates db2)
        /\ pu_id first = TOSDatabase.pendingId id field t1
        /\ pu_newValue first = v1)
  /\ t1 <> t2
  /\ exists record,
       storeGet ID Z.compare id (TOSDatabase.tosRecords db2) = Some record
       /\ getField field record = v2.
Proof.
  intros H1 H2.
  destruct (updateRecord_inversion _ _ _ _ _ _ _ H1)
    as (r0 & Hg0 & Hid0 & Hr1 & Hf1 & Hp1).
  destruct (updateRecord_inversion _ _ _ _ _ _ _ H2)
    as (r1 & Hg1 & Hid1 & Hr2 & Hf2 & Hp2).
  assert (Er1 : r1 = setField field v1 r0).
  { rewrite Hr1 in Hg1. rewrite <- Hid0 in Hg1 at 1.
    rewrite <- (setField_ID field v1 r0) in Hg1.
    rewrite storeGet_storePut_same in Hg1. now injection Hg1. }
  pose proof (updateRecord_pending_perm _ _ _ _ _ _ _ _ H1 Hg0) as Hperm1.
  pose proof (updateRecord_pending_perm _ _ _ _ _ _ _ _ H2 Hg1) as Hperm2.
  unfold TOSDatabase.getPendingUpdates, storeGetAll.
  split; [|split; [|split]].
  - apply (Permutation_in _ (Permutation_sym Hperm2)). left.
    now rewrite Er1, getField_setField.
  - exists (mkPendingUpdate (TOSDatabase.pendingId id field t1) id field
                            (getField field r0) v1 t1' false).
    split; [|split; reflexivity].
    apply (Permutation_in _ (Permutation_sym Hperm2)). right.
    apply (Permutation_in _ (Permutation_sym Hperm1)). now left.
  - intros <-. rewrite storeGet_absent in Hf2.
    apply (Hf2 (mkPendingUpdate (TOSDatabase.pendingId id field t1) id
                  field (getField field r0) v1 t1' false));
      [|reflexivity].
    apply (Permutation_in _ (Permutation_sym Hperm1)). now left.
  - exists (setField field v2 r1). split; [|apply getField_setField].
    rewrite Hr2. rewrite <- Hid1 at 1.
    rewrite <- (setField_ID field v2 r1).
    apply storeGet_storePut_same.
Qed.

Lemma updateRecord_twice_chains_witness :
  In (mkPendingUpdate "2-SHIFT-1001" 2 SHIFT_field
                      "Night Shift" "Morning Shift" 1001 false)
     (TOSDatabase.getPendingUpdates
        (fst (TOSDatabase.updateRecord
                (fst (TOSDatabase.updateRecord twoRecordDb 2 SHIFT_field
                        "Night Shift" 1000 1000))
                2 SHIFT_field "Morning Shift" 1001 1001))).
Proof.
  exact (proj1 (updateRecord_twice_chains twoRecordDb _ _ 2 SHIFT_field
                  "Night Shift" "Morning Shift" 1000 1000 1001 1001
                  eq_refl eq_refl)).
Defined.
